(** * Token lifecycle and authorization core of the authentication server

    A shallow embedding of [src/services/token.service.ts],
    [src/services/auth.service.ts], [src/middleware/auth.middleware.ts] and
    [src/middleware/permission.middleware.ts], with the error classes of
    [src/utils/errors.ts].

    Asynchronous TypeScript functions are embedded as finite programs over
    three effects (reading the clock, writing to the error log, one Prisma
    call); every [await prisma...] of the source is one effect node.  A
    sequential interpreter runs a program to completion against a world made
    of the clock, the database, the log and a schedule of store faults; a
    second interpreter resumes a program up to its next Prisma call, which is
    used to interleave two requests. *)

From Stdlib Require Import ZArith List String Ascii Bool Permutation Lia.
Import ListNotations.
Open Scope string_scope.
Open Scope list_scope.
Open Scope Z_scope.

(* ------------------------------------------------------------------ *)
(** ** Errors ([src/utils/errors.ts] and the libraries' error classes) *)

(** The classes of the values the code throws.  [JsonWebTokenError],
    [TokenExpiredError] and [NotBeforeError] are the three classes exported
    by [jsonwebtoken]; the Prisma classes stand for the client's errors. *)
Inductive ErrorClass :=
| JsError
| AppError
| ValidationError
| AuthenticationError
| AuthorizationError
| NotFoundError
| ConflictError
| JsonWebTokenError
| TokenExpiredError
| NotBeforeError
| TypeError
| PrismaClientKnownRequestError
| PrismaClientValidationError
| PrismaClientInitializationError.

Definition ErrorClass_eqb (a b : ErrorClass) : bool :=
  match a, b with
  | JsError, JsError | AppError, AppError | ValidationError, ValidationError
  | AuthenticationError, AuthenticationError
  | AuthorizationError, AuthorizationError
  | NotFoundError, NotFoundError | ConflictError, ConflictError
  | JsonWebTokenError, JsonWebTokenError
  | TokenExpiredError, TokenExpiredError
  | NotBeforeError, NotBeforeError | TypeError, TypeError
  | PrismaClientKnownRequestError, PrismaClientKnownRequestError
  | PrismaClientValidationError, PrismaClientValidationError
  | PrismaClientInitializationError, PrismaClientInitializationError => true
  | _, _ => false
  end.

(** The prototype chain.  Every [AppError] subclass of [errors.ts] extends
    [AppError]; in [jsonwebtoken], [TokenExpiredError] and [NotBeforeError]
    are created with [Object.create(JsonWebTokenError.prototype)]. *)
Definition superclass (c : ErrorClass) : option ErrorClass :=
  match c with
  | JsError => None
  | AppError => Some JsError
  | ValidationError | AuthenticationError | AuthorizationError
  | NotFoundError | ConflictError => Some AppError
  | JsonWebTokenError => Some JsError
  | TokenExpiredError | NotBeforeError => Some JsonWebTokenError
  | TypeError => Some JsError
  | PrismaClientKnownRequestError | PrismaClientValidationError
  | PrismaClientInitializationError => Some JsError
  end.

Record Exn := mkExn { cls : ErrorClass; message : string }.

Fixpoint inherits (fuel : nat) (c target : ErrorClass) : bool :=
  ErrorClass_eqb c target ||
  match fuel with
  | O => false
  | S n => match superclass c with
           | Some p => inherits n p target
           | None => false
           end
  end.

(** [error instanceof C]: walk the prototype chain (its depth is at most 3). *)
Definition instanceof (e : Exn) (c : ErrorClass) : bool := inherits 3 (cls e) c.

(** [statusCode] as the constructors of [errors.ts] fix it. *)
Definition statusCode (e : Exn) : option Z :=
  match cls e with
  | ValidationError => Some 400
  | AuthenticationError => Some 401
  | AuthorizationError => Some 403
  | NotFoundError => Some 404
  | ConflictError => Some 409
  | _ => None
  end.

Definition newAuthenticationError (msg : string) : Exn := mkExn AuthenticationError msg.
Definition newAuthorizationError (msg : string) : Exn := mkExn AuthorizationError msg.
Definition newNotFoundError (msg : string) : Exn := mkExn NotFoundError msg.

(** The failure kinds of the specification's taxonomy.  The code has one
    class, [AuthenticationError], for all of them and tells them apart by the
    message only; [kindOf] reads the kind off the message the source attaches. *)
Inductive ErrorKind :=
| InvalidCredentials
| AccountDisabled
| EmailNotVerified
| InvalidToken
| ExpiredToken
| OtherFailure.

Definition kindOfMessage (m : string) : ErrorKind :=
  if (m =? "Invalid email or password")%string then InvalidCredentials
  else if (m =? "Your account has been disabled")%string then AccountDisabled
  else if (m =? "User account is disabled")%string then AccountDisabled
  else if (m =? "Please verify your email address before signing in")%string
       then EmailNotVerified
  else if (m =? "Invalid access token")%string then InvalidToken
  else if (m =? "Invalid refresh token")%string then InvalidToken
  else if (m =? "Invalid token type")%string then InvalidToken
  else if (m =? "Refresh token is invalid or revoked")%string then InvalidToken
  else if (m =? "Token is invalid")%string then InvalidToken
  else if (m =? "Access token expired")%string then ExpiredToken
  else if (m =? "Refresh token expired")%string then ExpiredToken
  else OtherFailure.

Definition kindOf (e : Exn) : ErrorKind :=
  match cls e with
  | AuthenticationError => kindOfMessage (message e)
  | _ => OtherFailure
  end.

Inductive Res (A : Type) : Type :=
| Ok (a : A)
| Err (e : Exn).
Arguments Ok {A} a.
Arguments Err {A} e.

(* ------------------------------------------------------------------ *)
(** ** Signed tokens ([jsonwebtoken]) *)

(** [Omit<TokenPayload, 'type'>] of [src/types/auth.types.ts]. *)
Record Payload := mkPayload {
  userId : string;
  email : string;
  roles : list string;
  permissions : list string
}.

(** The claim set of a token: the payload, the [type] claim and the
    registered claims [jwt.sign] adds.  [exp], [iss] and [aud] are optional
    in a token that was not minted here. *)
Record Claims := mkClaims {
  payload : Payload;
  type : string;
  iat : Z;
  exp : option Z;
  iss : option string;
  aud : option string
}.

(** A token string, by what [jsonwebtoken] makes of it: either it does not
    parse as a JWT, or it carries a claim set and a signature that is valid
    under exactly one key (the symbolic model of the HMAC). *)
Inductive Token :=
| Malformed (raw : string)
| Signed (key : string) (body : Claims).

Definition list_string_eqb (a b : list string) : bool :=
  if list_eq_dec string_dec a b then true else false.

Definition option_eqb {A} (eqb : A -> A -> bool) (a b : option A) : bool :=
  match a, b with
  | Some x, Some y => eqb x y
  | None, None => true
  | _, _ => false
  end.

Definition Payload_eqb (p q : Payload) : bool :=
  (userId p =? userId q)%string && (email p =? email q)%string &&
  list_string_eqb (roles p) (roles q) &&
  list_string_eqb (permissions p) (permissions q).

Definition Claims_eqb (c d : Claims) : bool :=
  Payload_eqb (payload c) (payload d) && (type c =? type d)%string &&
  (iat c =? iat d) && option_eqb Z.eqb (exp c) (exp d) &&
  option_eqb String.eqb (iss c) (iss d) && option_eqb String.eqb (aud c) (aud d).

(** Equality of token strings. *)
Definition Token_eqb (s t : Token) : bool :=
  match s, t with
  | Malformed a, Malformed b => (a =? b)%string
  | Signed k c, Signed l d => (k =? l)%string && Claims_eqb c d
  | _, _ => false
  end.

(** [!token] for a token string: only the empty string is falsy. *)
Definition Token_falsy (t : Token) : bool :=
  match t with
  | Malformed EmptyString => true
  | _ => false
  end.

(** [config.jwt] of [src/config/environment.ts].  The two lifetimes are the
    parsed values of [JWT_ACCESS_EXPIRES_IN] and [JWT_REFRESH_EXPIRES_IN], in
    seconds ('15m' is 900, '7d' is 604800). *)
Record Config := mkConfig {
  accessSecret : string;
  refreshSecret : string;
  accessExpiresIn : Z;
  refreshExpiresIn : Z;
  bcryptRounds : Z
}.

Definition issuer : string := "auth-server".
Definition audience : string := "auth-client".

(** [jwt.sign(tokenPayload, secret, { expiresIn, issuer, audience })] at
    clock [now] (milliseconds): [iat] is the clock in whole seconds and [exp]
    is [iat + expiresIn]. *)
Definition jwt_sign (now : Z) (p : Payload) (ty : string) (secret : string)
    (expiresIn : Z) : Token :=
  let timestamp := now / 1000 in
  Signed secret
    (mkClaims p ty timestamp (Some (timestamp + expiresIn))
              (Some issuer) (Some audience)).

(** [jwt.decode(token)]: the claim set, without any check; [null] when the
    string does not parse. *)
Definition jwt_decode (t : Token) : option Claims :=
  match t with
  | Malformed _ => None
  | Signed _ c => Some c
  end.

Definition jwtError (c : ErrorClass) (msg : string) : Exn := mkExn c msg.

(** [jwt.verify(token, secret, { issuer, audience })] at clock [now]: the
    checks in the order [jsonwebtoken] makes them: parse, signature, [exp]
    (against the clock in whole seconds), audience, issuer. *)
Definition jwt_verify (now : Z) (t : Token) (secret : string) : Res Claims :=
  match t with
  | Malformed _ => Err (jwtError JsonWebTokenError "jwt malformed")
  | Signed key c =>
      if negb (key =? secret)%string
      then Err (jwtError JsonWebTokenError "invalid signature")
      else if match exp c with
              | Some e => e <=? now / 1000
              | None => false
              end
      then Err (jwtError TokenExpiredError "jwt expired")
      else if negb (option_eqb String.eqb (aud c) (Some audience))
      then Err (jwtError JsonWebTokenError
                  "jwt audience invalid. expected: auth-client")
      else if negb (option_eqb String.eqb (iss c) (Some issuer))
      then Err (jwtError JsonWebTokenError
                  "jwt issuer invalid. expected: auth-server")
      else Ok c
  end.

(** [generateAccessToken] and [generateRefreshToken], at clock [now]. *)
Definition generateAccessToken (cfg : Config) (now : Z) (p : Payload) : Token :=
  jwt_sign now p "access" (accessSecret cfg) (accessExpiresIn cfg).

Definition generateRefreshToken (cfg : Config) (now : Z) (p : Payload) : Token :=
  jwt_sign now p "refresh" (refreshSecret cfg) (refreshExpiresIn cfg).

(** The [catch] block shared by the two verifiers: the first test is
    [error instanceof jwt.JsonWebTokenError], the second
    [error instanceof jwt.TokenExpiredError], anything else is rethrown. *)
Definition verifyCatch (invalidMsg expiredMsg : string) (error : Exn) : Exn :=
  if instanceof error JsonWebTokenError then newAuthenticationError invalidMsg
  else if instanceof error TokenExpiredError then newAuthenticationError expiredMsg
  else error.

(** [verifyAccessToken(token)], at clock [now]. *)
Definition verifyAccessToken (cfg : Config) (now : Z) (token : Token) : Res Claims :=
  match
    match jwt_verify now token (accessSecret cfg) with
    | Ok decoded =>
        if negb (type decoded =? "access")%string
        then Err (newAuthenticationError "Invalid token type")
        else Ok decoded
    | Err e => Err e
    end
  with
  | Ok decoded => Ok decoded
  | Err error => Err (verifyCatch "Invalid access token" "Access token expired" error)
  end.

(** [verifyRefreshToken(token)], at clock [now]. *)
Definition verifyRefreshToken (cfg : Config) (now : Z) (token : Token) : Res Claims :=
  match
    match jwt_verify now token (refreshSecret cfg) with
    | Ok decoded =>
        if negb (type decoded =? "refresh")%string
        then Err (newAuthenticationError "Invalid token type")
        else Ok decoded
    | Err e => Err e
    end
  with
  | Ok decoded => Ok decoded
  | Err error => Err (verifyCatch "Invalid refresh token" "Refresh token expired" error)
  end.

(* ------------------------------------------------------------------ *)
(** ** The credential store (the Prisma models the services use) *)

Record Permission := mkPermission {
  perm_id : string;
  perm_name : string;
  perm_resource : string;
  perm_action : string
}.

Record Role := mkRole {
  role_id : string;
  role_name : string;
  role_permissions : list Permission
}.

(** A user row as the queries of the services read it, that is with
    [include: { roles: { include: { permissions: true } }, permissions: true }]
    resolved. *)
Record User := mkUser {
  user_id : string;
  user_email : string;
  user_password : option string;
  user_isActive : bool;
  user_emailVerified : bool;
  user_firstName : string;
  user_lastLoginAt : option Z;
  user_roles : list Role;
  user_permissions : list Permission
}.

Record RefreshToken := mkRefreshToken {
  rt_token : Token;
  rt_userId : string;
  rt_expiresAt : Z;
  rt_isRevoked : bool;
  rt_userAgent : option string;
  rt_ipAddress : option string
}.

Record BlacklistedToken := mkBlacklistedToken {
  bl_token : Token;
  bl_expiresAt : Z
}.

Record Database := mkDatabase {
  userTable : list User;
  refreshTokenTable : list RefreshToken;
  blacklistedTokenTable : list BlacklistedToken
}.

Definition findUserByEmail (e : string) (d : Database) : option User :=
  find (fun u => (user_email u =? e)%string) (userTable d).

Definition findUserById (i : string) (d : Database) : option User :=
  find (fun u => (user_id u =? i)%string) (userTable d).

Definition findRefreshToken (t : Token) (d : Database) : option RefreshToken :=
  find (fun r => Token_eqb (rt_token r) t) (refreshTokenTable d).

Definition findBlacklistedToken (t : Token) (d : Database) : option BlacklistedToken :=
  find (fun b => Token_eqb (bl_token b) t) (blacklistedTokenTable d).

Definition revokeRow (r : RefreshToken) : RefreshToken :=
  mkRefreshToken (rt_token r) (rt_userId r) (rt_expiresAt r) true
                 (rt_userAgent r) (rt_ipAddress r).

Definition setLastLogin (at_ : Z) (u : User) : User :=
  mkUser (user_id u) (user_email u) (user_password u) (user_isActive u)
         (user_emailVerified u) (user_firstName u) (Some at_)
         (user_roles u) (user_permissions u).

Definition setPassword (h : string) (u : User) : User :=
  mkUser (user_id u) (user_email u) (Some h) (user_isActive u)
         (user_emailVerified u) (user_firstName u) (user_lastLoginAt u)
         (user_roles u) (user_permissions u).

Definition withUsers (us : list User) (d : Database) : Database :=
  mkDatabase us (refreshTokenTable d) (blacklistedTokenTable d).

Definition withRefreshTokens (rs : list RefreshToken) (d : Database) : Database :=
  mkDatabase (userTable d) rs (blacklistedTokenTable d).

Definition withBlacklistedTokens (bs : list BlacklistedToken) (d : Database) : Database :=
  mkDatabase (userTable d) (refreshTokenTable d) bs.

Definition prismaKnownError (code : string) : Exn :=
  mkExn PrismaClientKnownRequestError code.

(** The Prisma calls of the services, indexed by what they resolve to. *)
Inductive DbOp : Type -> Type :=
| UserFindUniqueByEmail (e : string) : DbOp (option User)
| UserFindUniqueById (i : string) : DbOp (option User)
| UserUpdateLastLogin (i : string) (at_ : Z) : DbOp unit
| UserUpdatePassword (i : string) (hash : string) : DbOp unit
| RefreshTokenFindUnique (t : Token) : DbOp (option (RefreshToken * User))
| RefreshTokenCreate (t : Token) (uid : string) (expiresAt : option Z)
    (userAgent ipAddress : option string) : DbOp unit
| RefreshTokenUpdateRevoked (t : Token) : DbOp unit
| RefreshTokenUpdateManyRevoked (uid : string) (notToken : option Token) : DbOp unit
| RefreshTokenDeleteManyExpired (now : Z) : DbOp unit
| BlacklistedTokenCreate (t : Token) (expiresAt : option Z) : DbOp unit
| BlacklistedTokenFindUnique (t : Token) : DbOp (option BlacklistedToken)
| BlacklistedTokenDeleteManyExpired (now : Z) : DbOp unit.

(** What each call does to a store that answers.  [update] on a missing row
    throws P2025, [create] on a token that is already stored throws P2002 (the
    token column is the unique key [findUnique] looks rows up by); a refresh
    token row whose required user relation cannot be resolved is reported as
    an inconsistent result; a [Date] made from a missing [exp], or from a
    time value out of the range of [Date], is invalid and refused by the
    client. *)
Definition applyOp {R} (op : DbOp R) : Database -> Res R * Database :=
  match op in DbOp R return Database -> Res R * Database with
  | UserFindUniqueByEmail e => fun d => (Ok (findUserByEmail e d), d)
  | UserFindUniqueById i => fun d => (Ok (findUserById i d), d)
  | UserUpdateLastLogin i at_ => fun d =>
      match findUserById i d with
      | None => (Err (prismaKnownError "P2025"), d)
      | Some _ =>
          (Ok tt,
           withUsers
             (map (fun u => if (user_id u =? i)%string then setLastLogin at_ u else u)
                  (userTable d)) d)
      end
  | UserUpdatePassword i hash => fun d =>
      match findUserById i d with
      | None => (Err (prismaKnownError "P2025"), d)
      | Some _ =>
          (Ok tt,
           withUsers
             (map (fun u => if (user_id u =? i)%string then setPassword hash u else u)
                  (userTable d)) d)
      end
  | RefreshTokenFindUnique t => fun d =>
      match findRefreshToken t d with
      | None => (Ok None, d)
      | Some r =>
          match findUserById (rt_userId r) d with
          | Some u => (Ok (Some (r, u)), d)
          | None => (Err (mkExn PrismaClientKnownRequestError
                            "Inconsistent query result"), d)
          end
      end
  | RefreshTokenCreate t uid expiresAt userAgent ipAddress => fun d =>
      match expiresAt with
      | None => (Err (mkExn PrismaClientValidationError "Invalid Date"), d)
      | Some at_ =>
          match findRefreshToken t d with
          | Some _ => (Err (prismaKnownError "P2002"), d)
          | None =>
              (Ok tt,
               withRefreshTokens
                 (refreshTokenTable d ++
                  [mkRefreshToken t uid at_ false userAgent ipAddress]) d)
          end
      end
  | RefreshTokenUpdateRevoked t => fun d =>
      match findRefreshToken t d with
      | None => (Err (prismaKnownError "P2025"), d)
      | Some _ =>
          (Ok tt,
           withRefreshTokens
             (map (fun r => if Token_eqb (rt_token r) t then revokeRow r else r)
                  (refreshTokenTable d)) d)
      end
  | RefreshTokenUpdateManyRevoked uid notToken => fun d =>
      (Ok tt,
       withRefreshTokens
         (map (fun r =>
                 if (rt_userId r =? uid)%string && negb (rt_isRevoked r) &&
                    match notToken with
                    | Some t => negb (Token_eqb (rt_token r) t)
                    | None => true
                    end
                 then revokeRow r else r)
              (refreshTokenTable d)) d)
  | RefreshTokenDeleteManyExpired now => fun d =>
      (Ok tt,
       withRefreshTokens
         (filter (fun r => negb (rt_expiresAt r <? now)) (refreshTokenTable d)) d)
  | BlacklistedTokenCreate t expiresAt => fun d =>
      match expiresAt with
      | None => (Err (mkExn PrismaClientValidationError "Invalid Date"), d)
      | Some at_ =>
          match findBlacklistedToken t d with
          | Some _ => (Err (prismaKnownError "P2002"), d)
          | None =>
              (Ok tt,
               withBlacklistedTokens
                 (blacklistedTokenTable d ++ [mkBlacklistedToken t at_]) d)
          end
      end
  | BlacklistedTokenFindUnique t => fun d => (Ok (findBlacklistedToken t d), d)
  | BlacklistedTokenDeleteManyExpired now => fun d =>
      (Ok tt,
       withBlacklistedTokens
         (filter (fun b => negb (bl_expiresAt b <? now)) (blacklistedTokenTable d)) d)
  end.

(* ------------------------------------------------------------------ *)
(** ** The world and the programs *)

(** The world a request runs in: the clock ([Date.now()], milliseconds), the
    store, the lines [logger.error] wrote, and the schedule of store faults:
    the n-th Prisma call from now throws (store unreachable) when the n-th
    flag is [true]; past the end of the schedule the store answers. *)
Record World := mkWorld {
  clock : Z;
  db : Database;
  logs : list string;
  faults : list bool
}.

Definition storeFault : Exn :=
  mkExn PrismaClientInitializationError "Can't reach database server".

(** One Prisma call against the world. *)
Definition execDb {R} (op : DbOp R) (w : World) : Res R * World :=
  match faults w with
  | true :: fs => (Err storeFault, mkWorld (clock w) (db w) (logs w) fs)
  | false :: fs =>
      let (r, d) := applyOp op (db w) in (r, mkWorld (clock w) d (logs w) fs)
  | [] =>
      let (r, d) := applyOp op (db w) in (r, mkWorld (clock w) d (logs w) [])
  end.

Inductive Eff : Type -> Type :=
| Now : Eff Z
| LogError (line : string) : Eff unit
| Prisma {R} (op : DbOp R) : Eff (Res R).

(** Programs: a value, a thrown error, or an effect and what follows it. *)
Inductive Prog (A : Type) : Type :=
| Ret (a : A)
| Throw (e : Exn)
| Vis {R : Type} (eff : Eff R) (k : R -> Prog A).
Arguments Ret {A} a.
Arguments Throw {A} e.
Arguments Vis {A R} eff k.

Fixpoint bind {A B} (p : Prog A) (f : A -> Prog B) : Prog B :=
  match p with
  | Ret a => f a
  | Throw e => Throw e
  | Vis eff k => Vis eff (fun r => bind (k r) f)
  end.

(** [try { p } catch (error) { h error }]. *)
Fixpoint tryCatch {A} (p : Prog A) (h : Exn -> Prog A) : Prog A :=
  match p with
  | Ret a => Ret a
  | Throw e => h e
  | Vis eff k => Vis eff (fun r => tryCatch (k r) h)
  end.

Notation "x <- p ;; q" := (bind p (fun x => q))
  (at level 61, p at next level, right associativity).
Notation "p ;;; q" := (bind p (fun _ => q))
  (at level 61, right associativity).

Definition newDate : Prog Z := Vis Now Ret.
Definition logger_error (line : string) : Prog unit := Vis (LogError line) Ret.

(** [await prisma.<model>.<call>(...)]. *)
Definition await {R} (op : DbOp R) : Prog R :=
  Vis (Prisma op) (fun r => match r with Ok a => Ret a | Err e => Throw e end).

Definition ofRes {A} (r : Res A) : Prog A :=
  match r with Ok a => Ret a | Err e => Throw e end.

Definition execEff {R} (eff : Eff R) : World -> R * World :=
  match eff in Eff R return World -> R * World with
  | Now => fun w => (clock w, w)
  | LogError line => fun w =>
      (tt, mkWorld (clock w) (db w) (logs w ++ [line]) (faults w))
  | Prisma op => fun w => execDb op w
  end.

(** A request run to completion, alone. *)
Fixpoint run {A} (p : Prog A) (w : World) : Res A * World :=
  match p with
  | Ret a => (Ok a, w)
  | Throw e => (Err e, w)
  | Vis eff k => let (r, w') := execEff eff w in run (k r) w'
  end.

(* ------------------------------------------------------------------ *)
(** ** TokenService ([src/services/token.service.ts]) *)

Record JWTTokens := mkJWTTokens {
  accessToken : Token;
  refreshToken : Token
}.

(** [s || null] for an optional string: the empty string is falsy too. *)
Definition orNull (s : option string) : option string :=
  match s with
  | Some EmptyString => None
  | other => other
  end.

Definition storeRefreshToken (token : Token) (uid : string)
    (userAgent ipAddress : option string) : Prog unit :=
  tryCatch
    (match jwt_decode token with
     | None => Throw (mkExn TypeError "Cannot read properties of null (reading 'exp')")
     | Some decoded =>
         let expiresAt := option_map (fun e => e * 1000) (exp decoded) in
         await (RefreshTokenCreate token uid expiresAt
                  (orNull userAgent) (orNull ipAddress))
     end)
    (fun error => logger_error "Failed to store refresh token:" ;;; Throw error).

Definition generateTokenPair (cfg : Config) (uid mail : string)
    (roleNames permissionNames : list string)
    (userAgent ipAddress : option string) : Prog JWTTokens :=
  let payload := mkPayload uid mail roleNames permissionNames in
  now <- newDate ;;
  let accessToken := generateAccessToken cfg now payload in
  now' <- newDate ;;
  let refreshToken := generateRefreshToken cfg now' payload in
  storeRefreshToken refreshToken uid userAgent ipAddress ;;;
  Ret (mkJWTTokens accessToken refreshToken).

(** [new Set(array)]: the distinct elements in the order of their first
    occurrence. *)
Definition Set_add (s : list string) (x : string) : list string :=
  if existsb (String.eqb x) s then s else s ++ [x].

Definition new_Set (l : list string) : list string := fold_left Set_add l [].

(** The expression the source repeats wherever it resolves a user to the
    permission names it holds (in [login], in [refreshTokens], in the OAuth
    callbacks and in each permission middleware):
    [[...new Set([...rolePermissions, ...userPermissions])]]. *)
Definition rolePermissions (u : User) : list string :=
  flat_map (fun role => map perm_name (role_permissions role)) (user_roles u).

Definition userPermissions (u : User) : list string :=
  map perm_name (user_permissions u).

Definition allPermissions (u : User) : list string :=
  new_Set (rolePermissions u ++ userPermissions u).

Definition revokeRefreshToken (token : Token) : Prog unit :=
  tryCatch
    (await (RefreshTokenUpdateRevoked token))
    (fun _ => logger_error "Failed to revoke refresh token:").

Definition refreshTokens (cfg : Config) (token : Token) : Prog JWTTokens :=
  now <- newDate ;;
  decoded <- ofRes (verifyRefreshToken cfg now token) ;;
  storedToken <- await (RefreshTokenFindUnique token) ;;
  match storedToken with
  | None => Throw (newAuthenticationError "Refresh token is invalid or revoked")
  | Some (row, user) =>
      if rt_isRevoked row
      then Throw (newAuthenticationError "Refresh token is invalid or revoked")
      else
        today <- newDate ;;
        if rt_expiresAt row <? today
        then Throw (newAuthenticationError "Refresh token expired")
        else if negb (user_isActive user)
        then Throw (newAuthenticationError "User account is disabled")
        else
          let roleNames := map role_name (user_roles user) in
          newTokens <- generateTokenPair cfg (user_id user) (user_email user)
                         roleNames (allPermissions user)
                         (rt_userAgent row) (rt_ipAddress row) ;;
          revokeRefreshToken token ;;;
          Ret newTokens
  end.

Definition revokeAllUserTokens (uid : string) : Prog unit :=
  tryCatch
    (await (RefreshTokenUpdateManyRevoked uid None))
    (fun error => logger_error "Failed to revoke all user tokens:" ;;; Throw error).

(** [new Date(value)] for a number of milliseconds: a time value more than
    8.64e15 ms away from the epoch gives an Invalid Date.  (The [exp] of a
    token a caller sends is whatever the caller wrote; [storeRefreshToken]
    makes its [Date] from the [exp] that [jwt.sign] has just computed from
    the clock and the configured lifetime.) *)
Definition maxTimeValue : Z := 8640000000000000.

Definition newDateOf (value : Z) : option Z :=
  if Z.abs value <=? maxTimeValue then Some value else None.

(** [decoded && decoded.exp]: a missing or zero [exp] is falsy. *)
Definition blacklistAccessToken (token : Token) : Prog unit :=
  tryCatch
    (match jwt_decode token with
     | None => Ret tt
     | Some decoded =>
         match exp decoded with
         | None => Ret tt
         | Some e =>
             if e =? 0 then Ret tt
             else await (BlacklistedTokenCreate token (newDateOf (e * 1000)))
         end
     end)
    (fun _ => logger_error "Failed to blacklist access token:").

Definition isTokenBlacklisted (token : Token) : Prog bool :=
  tryCatch
    (blacklistedToken <- await (BlacklistedTokenFindUnique token) ;;
     match blacklistedToken with
     | None => Ret false
     | Some entry =>
         now <- newDate ;;
         Ret (now <? bl_expiresAt entry)
     end)
    (fun _ => logger_error "Failed to check token blacklist:" ;;; Ret false).

Definition cleanupExpiredTokens : Prog unit :=
  tryCatch
    (now <- newDate ;;
     await (RefreshTokenDeleteManyExpired now) ;;;
     await (BlacklistedTokenDeleteManyExpired now))
    (fun _ => logger_error "Failed to cleanup expired tokens:").

(* ------------------------------------------------------------------ *)
(** ** AuthService ([src/services/auth.service.ts]) *)

(** [!user.password]: no hash, or the empty string. *)
Definition noPassword (u : User) : bool :=
  match user_password u with
  | None => true
  | Some EmptyString => true
  | Some _ => false
  end.

Definition passwordOf (u : User) : string :=
  match user_password u with
  | Some h => h
  | None => EmptyString
  end.

Record LoginCredentials := mkLoginCredentials {
  cred_email : string;
  cred_password : string
}.

Record ChangePasswordData := mkChangePasswordData {
  currentPassword : string;
  newPassword : string
}.

Section AuthService.

(** [String.prototype.toLowerCase], [bcrypt.compare(plain, hash)] and
    [bcrypt.hash(plain, rounds)]: the services are embedded for whatever
    these three compute. *)
Variable toLowerCase : string -> string.
Variable bcrypt_compare : string -> string -> bool.
Variable bcrypt_hash : string -> Z -> string.
Variable cfg : Config.

Definition login (credentials : LoginCredentials)
    (userAgent ipAddress : option string) : Prog (User * JWTTokens) :=
  found <- await (UserFindUniqueByEmail (toLowerCase (cred_email credentials))) ;;
  match found with
  | None => Throw (newAuthenticationError "Invalid email or password")
  | Some user =>
      if noPassword user
      then Throw (newAuthenticationError "Invalid email or password")
      else if negb (bcrypt_compare (cred_password credentials) (passwordOf user))
      then Throw (newAuthenticationError "Invalid email or password")
      else if negb (user_isActive user)
      then Throw (newAuthenticationError "Your account has been disabled")
      else if negb (user_emailVerified user)
      then Throw (newAuthenticationError
                    "Please verify your email address before signing in")
      else
        today <- newDate ;;
        await (UserUpdateLastLogin (user_id user) today) ;;;
        let roleNames := map role_name (user_roles user) in
        tokens <- generateTokenPair cfg (user_id user) (user_email user)
                    roleNames (allPermissions user) userAgent ipAddress ;;
        Ret (user, tokens)
  end.

Definition logout (access refresh : Token) : Prog unit :=
  blacklistAccessToken access ;;;
  revokeRefreshToken refresh.

(** [currentRefreshToken && { token: { not: currentRefreshToken } }]. *)
Definition logoutAll (uid : string) (currentRefreshToken : option Token) : Prog unit :=
  await (RefreshTokenUpdateManyRevoked uid
           (match currentRefreshToken with
            | Some t => if Token_falsy t then None else Some t
            | None => None
            end)).

(** The notification mail sent after the tokens are revoked is wrapped in
    its own [try]/[catch] and touches neither the store nor the result. *)
Definition changePassword (uid : string) (data : ChangePasswordData) : Prog unit :=
  found <- await (UserFindUniqueById uid) ;;
  match found with
  | None => Throw (newNotFoundError "User not found")
  | Some user =>
      if noPassword user
      then Throw (newNotFoundError "User not found")
      else if negb (bcrypt_compare (currentPassword data) (passwordOf user))
      then Throw (newAuthenticationError "Current password is incorrect")
      else
        let hashedPassword := bcrypt_hash (newPassword data) (bcryptRounds cfg) in
        await (UserUpdatePassword uid hashedPassword) ;;;
        revokeAllUserTokens uid
  end.

End AuthService.

(* ------------------------------------------------------------------ *)
(** ** Middleware *)

(** The [Authorization] header by what [authenticate] makes of it: it starts
    with ['Bearer '] and the rest is a token string, or it does not. *)
Inductive AuthorizationHeader :=
| Bearer (token : Token)
| OtherScheme (value : string).

(** What a middleware hands on: [next()] with the user it attached to the
    request, or [next(error)]. *)
Inductive Next (A : Type) : Type :=
| NextOk (a : A)
| NextError (e : Exn).
Arguments NextOk {A} a.
Arguments NextError {A} e.

(** [authenticate] of [src/middleware/auth.middleware.ts]. *)
Definition authenticate (cfg : Config) (authHeader : option AuthorizationHeader)
    : Prog (Next User) :=
  tryCatch
    (match authHeader with
     | Some (Bearer token) =>
         if Token_falsy token
         then Throw (newAuthenticationError "Access token required")
         else
           isBlacklisted <- isTokenBlacklisted token ;;
           if isBlacklisted : bool
           then Throw (newAuthenticationError "Token is invalid")
           else
             now <- newDate ;;
             decoded <- ofRes (verifyAccessToken cfg now token) ;;
             found <- await (UserFindUniqueById (userId (payload decoded))) ;;
             match found with
             | None => Throw (newAuthenticationError "User not found")
             | Some user =>
                 if negb (user_isActive user)
                 then Throw (newAuthenticationError "User account is disabled")
                 else Ret (NextOk user)
             end
     | _ => Throw (newAuthenticationError "Access token required")
     end)
    (fun error => logger_error "Authentication failed:" ;;; Ret (NextError error)).

(** [hasPermission(...requiredPermissions)] of
    [src/middleware/permission.middleware.ts], on the user [authenticate]
    attached to the request (if any). *)
Definition hasPermission (requiredPermissions : list string) (reqUser : option User)
    : Prog (Next unit) :=
  tryCatch
    (match reqUser with
     | None => Throw (newAuthenticationError "User not authenticated")
     | Some user =>
         let all := allPermissions user in
         let hasRequiredPermission :=
           existsb (fun permission => existsb (String.eqb permission) all)
                   requiredPermissions in
         if negb hasRequiredPermission
         then Throw (newAuthorizationError
                       (String.append "Access denied. Required permissions: "
                          (String.concat ", " requiredPermissions)))
         else Ret (NextOk tt)
     end)
    (fun error => logger_error "Permission check failed:" ;;; Ret (NextError error)).

(* ------------------------------------------------------------------ *)
(** ** The other middlewares *)

(** [optionalAuthenticate] of [src/middleware/auth.middleware.ts]: it always
    calls [next()]; what it yields is the user it attached to the request, if
    any.  The inner [catch] logs at debug level only. *)
Definition optionalAuthenticate (cfg : Config) (authHeader : option AuthorizationHeader)
    : Prog (option User) :=
  tryCatch
    (match authHeader with
     | Some (Bearer token) =>
         if Token_falsy token
         then Ret None
         else
           isBlacklisted <- isTokenBlacklisted token ;;
           if isBlacklisted : bool
           then Ret None
           else
             tryCatch
               (now <- newDate ;;
                decoded <- ofRes (verifyAccessToken cfg now token) ;;
                found <- await (UserFindUniqueById (userId (payload decoded))) ;;
                match found with
                | None => Ret None
                | Some user => if user_isActive user then Ret (Some user) else Ret None
                end)
               (fun _ => Ret None)
     | _ => Ret None
     end)
    (fun _ => logger_error "Optional authentication middleware error:" ;;; Ret None).

(** [(req.user as any).roles.map(role => role.name)]. *)
Definition userRoles (u : User) : list string := map role_name (user_roles u).

(** [array.includes(x)] on names. *)
Definition includes (names : list string) (x : string) : bool :=
  existsb (String.eqb x) names.

(** [hasRole(...requiredRoles)] of [src/middleware/permission.middleware.ts]. *)
Definition hasRole (requiredRoles : list string) (reqUser : option User)
    : Prog (Next unit) :=
  tryCatch
    (match reqUser with
     | None => Throw (newAuthenticationError "User not authenticated")
     | Some user =>
         let hasRequiredRole := existsb (includes (userRoles user)) requiredRoles in
         if negb hasRequiredRole
         then Throw (newAuthorizationError
                       (String.append "Access denied. Required roles: "
                          (String.concat ", " requiredRoles)))
         else Ret (NextOk tt)
     end)
    (fun error => logger_error "Role check failed:" ;;; Ret (NextError error)).

Definition hasPermissionAny (requiredPermissions : list string) (reqUser : option User)
    : Prog (Next unit) :=
  tryCatch
    (match reqUser with
     | None => Throw (newAuthenticationError "User not authenticated")
     | Some user =>
         let hasAnyPermission :=
           existsb (includes (allPermissions user)) requiredPermissions in
         if negb hasAnyPermission
         then Throw (newAuthorizationError
                       (String.append "Access denied. Required at least one of: "
                          (String.concat ", " requiredPermissions)))
         else Ret (NextOk tt)
     end)
    (fun error => logger_error "Permission check failed:" ;;; Ret (NextError error)).

Definition hasPermissionAll (requiredPermissions : list string) (reqUser : option User)
    : Prog (Next unit) :=
  tryCatch
    (match reqUser with
     | None => Throw (newAuthenticationError "User not authenticated")
     | Some user =>
         let hasAllPermissions :=
           forallb (includes (allPermissions user)) requiredPermissions in
         if negb hasAllPermissions
         then Throw (newAuthorizationError
                       (String.append "Access denied. Required all of: "
                          (String.concat ", " requiredPermissions)))
         else Ret (NextOk tt)
     end)
    (fun error => logger_error "Permission check failed:" ;;; Ret (NextError error)).

(** [isOwnerOrHasPermission(getResourceUserId, ...requiredPermissions)];
    [resourceUserId] is what [getResourceUserId(req)] returned. *)
Definition isOwnerOrHasPermission (resourceUserId : string)
    (requiredPermissions : list string) (reqUser : option User) : Prog (Next unit) :=
  tryCatch
    (match reqUser with
     | None => Throw (newAuthenticationError "User not authenticated")
     | Some user =>
         if (user_id user =? resourceUserId)%string
         then Ret (NextOk tt)
         else
           let hasRequiredPermission :=
             existsb (includes (allPermissions user)) requiredPermissions in
           if negb hasRequiredPermission
           then Throw (newAuthorizationError
                         "Access denied. You can only access your own resources or need appropriate permissions.")
           else Ret (NextOk tt)
     end)
    (fun error => logger_error "Owner or permission check failed:" ;;;
                  Ret (NextError error)).

(** [a || b] on optional strings: [a] unless it is missing or empty. *)
Definition orElse (a b : option string) : option string :=
  match a with
  | None => b
  | Some EmptyString => b
  | Some _ => a
  end.

(** [isSelfOrHasRole(...requiredRoles)]; the two arguments after the roles
    are [req.params.id] and [req.params.userId]. *)
Definition isSelfOrHasRole (requiredRoles : list string)
    (paramsId paramsUserId : option string) (reqUser : option User)
    : Prog (Next unit) :=
  tryCatch
    (match reqUser with
     | None => Throw (newAuthenticationError "User not authenticated")
     | Some user =>
         let targetUserId := orElse paramsId paramsUserId in
         if option_eqb String.eqb (Some (user_id user)) targetUserId
         then Ret (NextOk tt)
         else
           let hasRequiredRole := existsb (includes (userRoles user)) requiredRoles in
           if negb hasRequiredRole
           then Throw (newAuthorizationError
                         "Access denied. You can only access your own resources or need appropriate roles.")
           else Ret (NextOk tt)
     end)
    (fun error => logger_error "Self or role check failed:" ;;; Ret (NextError error)).

(* ------------------------------------------------------------------ *)
(** ** The error handler ([src/middleware/errorHandler.middleware.ts]) *)

(** The [statusCode] field of a thrown value: the classes of [errors.ts]
    carry one ([AppError] itself defaults to 500), the libraries' errors do
    not. *)
Definition statusCodeField (e : Exn) : option Z :=
  match cls e with
  | AppError => Some 500
  | _ => statusCode e
  end.

Record Response := mkResponse {
  res_status : Z;
  res_message : string;
  res_timestamp : Z
}.

(** [errorHandler(error, req, res, next)]: it logs, and answers with the
    error's own status and message when the error has a [statusCode], with
    500 and a fixed message otherwise. *)
Definition errorHandler (error : Exn) : Prog Response :=
  logger_error "Error occurred:" ;;;
  timestamp <- newDate ;;
  match statusCodeField error with
  | Some code => Ret (mkResponse code (message error) timestamp)
  | None => Ret (mkResponse 500 "Internal server error" timestamp)
  end.

(* ------------------------------------------------------------------ *)
(** ** The local strategy ([src/config/passport.ts]) *)

(** The verify callback of the passport [LocalStrategy]: [done(error, false)]
    is [NextError], [done(null, user)] is [NextOk]. *)
Definition localStrategy (toLowerCase : string -> string)
    (bcrypt_compare : string -> string -> bool)
    (mail password : string) : Prog (Next User) :=
  tryCatch
    (found <- await (UserFindUniqueByEmail (toLowerCase mail)) ;;
     match found with
     | None => Ret (NextError (newAuthenticationError "Invalid email or password"))
     | Some user =>
         if noPassword user
         then Ret (NextError (newAuthenticationError
                                "Please sign in using your social media account"))
         else if negb (bcrypt_compare password (passwordOf user))
         then Ret (NextError (newAuthenticationError "Invalid email or password"))
         else if negb (user_isActive user)
         then Ret (NextError (newAuthenticationError "Your account has been disabled"))
         else if negb (user_emailVerified user)
         then Ret (NextError (newAuthenticationError
                                "Please verify your email address before signing in"))
         else
           today <- newDate ;;
           await (UserUpdateLastLogin (user_id user) today) ;;;
           Ret (NextOk user)
     end)
    (fun error => logger_error "Local strategy error:" ;;; Ret (NextError error)).

(* ------------------------------------------------------------------ *)
(** ** Two requests in flight *)

Definition isAwait {R} (eff : Eff R) : bool :=
  match eff with
  | Prisma _ => true
  | _ => false
  end.

(** A suspended request is resumed: its synchronous code runs up to the next
    Prisma call, the store executes that call, and the request is suspended
    again on the answer. *)
Fixpoint resume {A} (p : Prog A) (w : World) : Prog A * World :=
  match p with
  | Ret a => (Ret a, w)
  | Throw e => (Throw e, w)
  | Vis eff k =>
      let (r, w') := execEff eff w in
      if isAwait eff then (k r, w') else resume (k r) w'
  end.

Inductive Event :=
| RunFirst
| RunSecond
| Tick (ms : Z).

Definition advance (ms : Z) (w : World) : World :=
  mkWorld (clock w + ms) (db w) (logs w) (faults w).

(** Two requests interleaved at their [await]s, in the order of a schedule. *)
Fixpoint interleave {A B} (schedule : list Event) (p : Prog A) (q : Prog B)
    (w : World) : Prog A * Prog B * World :=
  match schedule with
  | [] => (p, q, w)
  | RunFirst :: rest => let (p', w') := resume p w in interleave rest p' q w'
  | RunSecond :: rest => let (q', w') := resume q w in interleave rest p q' w'
  | Tick ms :: rest => interleave rest p q (advance ms w)
  end.

(** The result of a request that has run to its end. *)
Definition settled {A} (p : Prog A) : option (Res A) :=
  match p with
  | Ret a => Some (Ok a)
  | Throw e => Some (Err e)
  | Vis _ _ => None
  end.

(* ------------------------------------------------------------------ *)
(** ** Worlds and rows the statements speak of *)

(** The world after the store answered a call and after it failed one. *)
Definition popFault (w : World) : World :=
  mkWorld (clock w) (db w) (logs w) (tl (faults w)).

Definition withDb (d : Database) (w : World) : World :=
  mkWorld (clock w) d (logs w) (faults w).

Definition log (line : string) (w : World) : World :=
  mkWorld (clock w) (db w) (logs w ++ [line]) (faults w).

(** The row [storeRefreshToken] writes for the refresh token
    [generateTokenPair] mints at clock [now]. *)
Definition mintedRow (cfg : Config) (now : Z) (uid mail : string)
    (roleNames permissionNames : list string)
    (userAgent ipAddress : option string) : RefreshToken :=
  mkRefreshToken
    (generateRefreshToken cfg now (mkPayload uid mail roleNames permissionNames))
    uid ((now / 1000 + refreshExpiresIn cfg) * 1000) false
    (orNull userAgent) (orNull ipAddress).

(** The row's [expiresAt] is the [exp] claim of the row's own token, in
    milliseconds. *)
Definition expiryMirrorsClaim (r : RefreshToken) : Prop :=
  exists c e, jwt_decode (rt_token r) = Some c /\ exp c = Some e /\
              rt_expiresAt r = e * 1000.

(** The store after [update({ where: { token }, data: { isRevoked: true } })]
    found its row. *)
Definition markRevoked (t : Token) (d : Database) : Database :=
  withRefreshTokens
    (map (fun r => if Token_eqb (rt_token r) t then revokeRow r else r)
         (refreshTokenTable d)) d.

Definition invalidOrRevoked : Exn :=
  newAuthenticationError "Refresh token is invalid or revoked".

Definition invalidCredentials : Exn :=
  newAuthenticationError "Invalid email or password".

(** The store after [updateMany({ where: { userId, isRevoked: false },
    data: { isRevoked: true } })]. *)
Definition markAllRevoked (uid : string) (d : Database) : Database :=
  snd (applyOp (RefreshTokenUpdateManyRevoked uid None) d).

(** The store after [user.update({ where: { id }, data: { password } })]
    found its row. *)
Definition storePassword (uid hash : string) (d : Database) : Database :=
  withUsers
    (map (fun u => if (user_id u =? uid)%string then setPassword hash u else u)
         (userTable d)) d.


(** What [authenticate] does once the blacklist check has let the token
    through: verify it, load its user, hand the request on. *)
Definition verifyAndLoad (cfg : Config) (t : Token) (w : World)
    : Res (Next User) * World :=
  match verifyAccessToken cfg (clock w) t with
  | Err e => (Ok (NextError e), log "Authentication failed:" w)
  | Ok decoded =>
      if hd false (faults w)
      then (Ok (NextError storeFault), log "Authentication failed:" (popFault w))
      else
        match findUserById (userId (payload decoded)) (db w) with
        | None => (Ok (NextError (newAuthenticationError "User not found")),
                   log "Authentication failed:" (popFault w))
        | Some user =>
            if negb (user_isActive user)
            then (Ok (NextError (newAuthenticationError "User account is disabled")),
                  log "Authentication failed:" (popFault w))
            else (Ok (NextOk user), popFault w)
        end
  end.

(** The same world with nothing on the blacklist and a store that answers
    the next call. *)
Definition withoutBlacklist (w : World) : World :=
  mkWorld (clock w) (withBlacklistedTokens [] (db w)) (logs w)
          (false :: tl (faults w)).

(** The claim set [jwt.sign] gives a token minted at clock [minted]. *)
Definition mintedClaims (minted : Z) (p : Payload) (ty : string) (expiresIn : Z)
    : Claims :=
  mkClaims p ty (minted / 1000) (Some (minted / 1000 + expiresIn))
           (Some issuer) (Some audience).

(** The payload the services build for a user: id, e-mail, role names and
    effective permissions. *)
Definition payloadOf (u : User) : Payload :=
  mkPayload (user_id u) (user_email u) (map role_name (user_roles u))
            (allPermissions u).

(** The [exp] claim [blacklistAccessToken] can use: the token decodes and
    its [exp] is present and not zero. *)
Definition usableExp (t : Token) : option Z :=
  match jwt_decode t with
  | None => None
  | Some decoded =>
      match exp decoded with
      | None => None
      | Some e => if e =? 0 then None else Some e
      end
  end.

(** The token [logoutAll] spares: the current refresh token, unless it is
    missing or the empty string. *)
Definition sparedToken (currentRefreshToken : option Token) : option Token :=
  match currentRefreshToken with
  | Some t => if Token_falsy t then None else Some t
  | None => None
  end.

(** The user a run of [authenticate] attached to the request, if it did. *)
Definition attached (outcome : Res (Next User)) : option User :=
  match outcome with
  | Ok (NextOk u) => Some u
  | _ => None
  end.

(** The answer of [errorHandler] for an error the store or a library threw:
    status 500 and the fixed message. *)
Definition answersInternalError (r : Response) : Prop :=
  res_status r = 500 /\ res_message r = "Internal server error".

(** The answer for an [AuthenticationError] with one of the given messages. *)
Definition answers401 (messages : list string) (r : Response) : Prop :=
  res_status r = 401 /\ In (res_message r) messages.

(* ------------------------------------------------------------------ *)
(** ** A sample deployment *)

Module Sample.

Definition cfg : Config :=
  mkConfig "access-secret-0123456789-0123456789-0123"
           "refresh-secret-0123456789-0123456789-012" 900 604800 12.

(** A stand-in for bcrypt: the hash of a password is the password behind a
    fixed prefix. *)
Definition hash (plain : string) (rounds : Z) : string :=
  String.append "$2b$" plain.
Definition compare (plain stored : string) : bool := (stored =? hash plain 12)%string.

(** A stand-in for [String.prototype.toLowerCase], which it agrees with on
    strings of ASCII characters, as the addresses of the sample are: the
    letters [A] to [Z] are lowered, every other character is kept. *)
Definition lowerAscii (c : ascii) : ascii :=
  let n := nat_of_ascii c in
  if (Nat.leb 65 n && Nat.leb n 90)%bool then ascii_of_nat (n + 32) else c.

Fixpoint toLowerCase (s : string) : string :=
  match s with
  | EmptyString => EmptyString
  | String c rest => String (lowerAscii c) (toLowerCase rest)
  end.

Definition usersRead := mkPermission "p1" "users:read" "users" "read".
Definition usersWrite := mkPermission "p2" "users:write" "users" "write".
Definition reportsView := mkPermission "p3" "reports:view" "reports" "view".

Definition admin := mkRole "r1" "admin" [usersRead; usersWrite].
Definition member := mkRole "r2" "user" [usersRead].

Definition alice : User :=
  mkUser "u1" "alice@example.com" (Some (hash "correct horse" 12)) true true
         "Alice" None [admin; member] [usersRead; reportsView].

(** A disabled account whose e-mail was never verified. *)
Definition bob : User :=
  mkUser "u2" "bob@example.com" (Some (hash "hunter2" 12)) false false
         "Bob" None [member] [].

(** An account created through OAuth: no password hash. *)
Definition carol : User :=
  mkUser "u3" "carol@example.com" None true true "Carol" None [member] [].

Definition alicePayload : Payload :=
  mkPayload "u1" "alice@example.com" ["admin"; "user"]
            ["users:read"; "users:write"; "reports:view"].

Definition bobPayload : Payload :=
  mkPayload "u2" "bob@example.com" ["user"] ["users:read"].

(** Tokens minted for Alice at clock 1 000 000 ms. *)
Definition aliceRefresh : Token := generateRefreshToken cfg 1000000 alicePayload.
Definition aliceAccess : Token := generateAccessToken cfg 1000000 alicePayload.
Definition bobRefresh : Token := generateRefreshToken cfg 1000000 bobPayload.

Definition aliceRow : RefreshToken :=
  mkRefreshToken aliceRefresh "u1" 605800000 false (Some "curl/8") None.

Definition bobRow : RefreshToken :=
  mkRefreshToken bobRefresh "u2" 605800000 false None None.

Definition store : Database :=
  mkDatabase [alice; bob; carol] [aliceRow; bobRow] [].

(** The store answers every call. *)
Definition world : World := mkWorld 2000000 store [] [].

(** The store answers the lookup and the insert of a refresh, and fails the
    update that follows. *)
Definition flakyWorld : World := mkWorld 2000000 store [] [false; false; true].

(** The pair a refresh of Alice's token issues at the clock of [world]. *)
Definition rotated : JWTTokens :=
  mkJWTTokens (generateAccessToken cfg 2000000 alicePayload)
              (generateRefreshToken cfg 2000000 alicePayload).

(** A refresh token minted for Carol that was never stored. *)
Definition carolRefresh : Token :=
  generateRefreshToken cfg 1000000 (mkPayload "u3" "carol@example.com" ["user"] ["users:read"]).

(** Alice's row with an [expiresAt] that lies before the clock of [world],
    although the token's own [exp] does not. *)
Definition staleWorld : World :=
  mkWorld 2000000
    (mkDatabase [alice; bob; carol]
       [mkRefreshToken aliceRefresh "u1" 1500000 false (Some "curl/8") None] [])
    [] [].

(** Alice's access token is on the blacklist, through its own expiry. *)
Definition blacklistedWorld (schedule : list bool) : World :=
  mkWorld 1500000
    (mkDatabase [alice; bob; carol] [aliceRow; bobRow]
       [mkBlacklistedToken aliceAccess 1900000])
    [] schedule.


(** The sample store at a clock at which Alice's access token is still
    within its lifetime. *)
Definition earlyWorld : World := mkWorld 1500000 store [] [].

(** An access token minted for Bob at clock 1 500 000 ms. *)
Definition bobAccess : Token := generateAccessToken cfg 1500000 bobPayload.

(** A store with a live and an expired refresh-token row, and a live and an
    expired blacklist entry, at clock 2 000 000 ms. *)
Definition mixedWorld : World :=
  mkWorld 2000000
    (mkDatabase [alice; bob; carol]
       [mkRefreshToken bobRefresh "u2" 1500000 false None None; aliceRow]
       [mkBlacklistedToken aliceAccess 1900000;
        mkBlacklistedToken bobAccess 2400000])
    [] [].
End Sample.

(* ------------------------------------------------------------------ *)
(** * Properties *)

(** ** The interpreter *)

Lemma run_bind {A B} (p : Prog A) (f : A -> Prog B) (w : World) :
  run (bind p f) w =
  match run p w with
  | (Ok a, w') => run (f a) w'
  | (Err e, w') => (Err e, w')
  end.
Proof.
  revert w. induction p as [a | e | R eff k IH]; intro w; simpl.
  - reflexivity.
  - reflexivity.
  - destruct (execEff eff w) as [r w']. apply IH.
Qed.

Lemma run_tryCatch {A} (p : Prog A) (h : Exn -> Prog A) (w : World) :
  run (tryCatch p h) w =
  match run p w with
  | (Ok a, w') => (Ok a, w')
  | (Err e, w') => run (h e) w'
  end.
Proof.
  revert w. induction p as [a | e | R eff k IH]; intro w; simpl.
  - reflexivity.
  - reflexivity.
  - destruct (execEff eff w) as [r w']. apply IH.
Qed.

Lemma run_await {R} (op : DbOp R) (w : World) :
  run (await op) w = execDb op w.
Proof.
  unfold await. simpl. destruct (execDb op w) as [[a | e] w']; reflexivity.
Qed.

Lemma run_ofRes {A} (r : Res A) (w : World) : run (ofRes r) w = (r, w).
Proof. destruct r; reflexivity. Qed.

(** Resuming a request and then running it to its end is running it. *)
Lemma run_resume {A} (p : Prog A) (w : World) :
  run p w = run (fst (resume p w)) (snd (resume p w)).
Proof.
  revert w. induction p as [a | e | R eff k IH]; intro w; simpl.
  - reflexivity.
  - reflexivity.
  - destruct (execEff eff w) as [r w']. destruct (isAwait eff).
    + reflexivity.
    + apply IH.
Qed.

Lemma execDb_answers {R} (op : DbOp R) (w : World) :
  hd false (faults w) = false ->
  execDb op w = (fst (applyOp op (db w)),
                 popFault (withDb (snd (applyOp op (db w))) w)).
Proof.
  unfold execDb, popFault, withDb. intros H.
  destruct (faults w) as [| [|] fs]; simpl in *; try discriminate;
    destruct (applyOp op (db w)); reflexivity.
Qed.

Lemma execDb_fails {R} (op : DbOp R) (w : World) :
  hd false (faults w) = true ->
  execDb op w = (Err storeFault, popFault w).
Proof.
  unfold execDb, popFault. intros H.
  destruct (faults w) as [| [|] fs]; simpl in *; try discriminate; reflexivity.
Qed.

Lemma execDb_cases {R} (op : DbOp R) (w : World) :
  execDb op w = (Err storeFault, popFault w) \/
  execDb op w = (fst (applyOp op (db w)),
                 popFault (withDb (snd (applyOp op (db w))) w)).
Proof.
  destruct (hd false (faults w)) eqn:H.
  - left. now apply execDb_fails.
  - right. now apply execDb_answers.
Qed.

(** ** Token strings *)

Lemma list_string_eqb_eq (a b : list string) : list_string_eqb a b = true <-> a = b.
Proof.
  unfold list_string_eqb. destruct (list_eq_dec string_dec a b); split;
    congruence.
Qed.

Lemma option_eqb_eq {A} (eqb : A -> A -> bool) (a b : option A) :
  (forall x y, eqb x y = true <-> x = y) ->
  option_eqb eqb a b = true <-> a = b.
Proof.
  intros H. destruct a as [x |], b as [y |]; simpl.
  - rewrite H. split; congruence.
  - split; discriminate.
  - split; discriminate.
  - tauto.
Qed.

(** [Token_eqb] decides equality of token strings, so the store's unique
    key on the token column is a key on [Token]. *)
Lemma Token_eqb_eq (s t : Token) : Token_eqb s t = true <-> s = t.
Proof.
  destruct s as [a | k c], t as [b | l d]; simpl.
  - rewrite String.eqb_eq. split; congruence.
  - split; discriminate.
  - split; discriminate.
  - unfold Claims_eqb, Payload_eqb. rewrite !andb_true_iff.
    rewrite !String.eqb_eq, !list_string_eqb_eq, Z.eqb_eq.
    rewrite (option_eqb_eq Z.eqb _ _ Z.eqb_eq).
    rewrite !(option_eqb_eq String.eqb _ _ String.eqb_eq).
    destruct c as [[u1 e1 r1 p1] ty1 i1 x1 is1 au1].
    destruct d as [[u2 e2 r2 p2] ty2 i2 x2 is2 au2]. simpl.
    split.
    + intros [-> [[[[[[[[-> ->] ->] ->] ->] ->] ->] ->] ->]]. reflexivity.
    + intros H; inversion H. repeat split.
Qed.

(** ** The verifiers *)

(** Every failure of [jwt.verify] is of one of the library's two classes. *)
Lemma jwt_verify_error (now : Z) (t : Token) (secret : string) (e : Exn) :
  jwt_verify now t secret = Err e ->
  cls e = JsonWebTokenError \/ cls e = TokenExpiredError.
Proof.
  unfold jwt_verify. destruct t as [raw | key c].
  - intros H; inversion H; now left.
  - repeat match goal with
           | |- context [if ?b then _ else _] => destruct b
           end; intros H; inversion H; simpl; auto.
Qed.

Lemma verifyCatch_jwt (inv expd : string) (e : Exn) :
  cls e = JsonWebTokenError \/ cls e = TokenExpiredError ->
  verifyCatch inv expd e = newAuthenticationError inv.
Proof.
  unfold verifyCatch, instanceof. intros [H | H]; rewrite H; reflexivity.
Qed.

(** A verifier fails with one of two errors only. *)
Lemma verifyAccessToken_errors (cfg : Config) (now : Z) (t : Token) (e : Exn) :
  verifyAccessToken cfg now t = Err e ->
  e = newAuthenticationError "Invalid access token" \/
  e = newAuthenticationError "Invalid token type".
Proof.
  unfold verifyAccessToken.
  destruct (jwt_verify now t (accessSecret cfg)) as [c | e0] eqn:V.
  - destruct (negb (type c =? "access")%string); intros H; inversion H.
    right; reflexivity.
  - intros H; inversion H. left.
    apply verifyCatch_jwt. eapply jwt_verify_error; eauto.
Qed.

Lemma verifyRefreshToken_errors (cfg : Config) (now : Z) (t : Token) (e : Exn) :
  verifyRefreshToken cfg now t = Err e ->
  e = newAuthenticationError "Invalid refresh token" \/
  e = newAuthenticationError "Invalid token type".
Proof.
  unfold verifyRefreshToken.
  destruct (jwt_verify now t (refreshSecret cfg)) as [c | e0] eqn:V.
  - destruct (negb (type c =? "refresh")%string); intros H; inversion H.
    right; reflexivity.
  - intros H; inversion H. left.
    apply verifyCatch_jwt. eapply jwt_verify_error; eauto.
Qed.

Lemma verifyRefreshToken_error_kind (cfg : Config) (now : Z) (t : Token) (e : Exn) :
  verifyRefreshToken cfg now t = Err e -> kindOf e = InvalidToken.
Proof.
  intros H. apply verifyRefreshToken_errors in H. destruct H as [-> | ->]; reflexivity.
Qed.

Lemma jwt_verify_ok (now : Z) (t : Token) (secret : string) (c : Claims) :
  jwt_verify now t secret = Ok c ->
  t = Signed secret c /\
  aud c = Some audience /\ iss c = Some issuer /\
  (forall e, exp c = Some e -> now / 1000 < e).
Proof.
  unfold jwt_verify. destruct t as [raw | key body]; [discriminate |].
  destruct (key =? secret)%string eqn:K; simpl; [| discriminate].
  apply String.eqb_eq in K. subst key.
  destruct (match exp body with Some e => e <=? now / 1000 | None => false end) eqn:X;
    [discriminate |].
  destruct (option_eqb String.eqb (aud body) (Some audience)) eqn:Au; simpl;
    [| discriminate].
  destruct (option_eqb String.eqb (iss body) (Some issuer)) eqn:Is; simpl;
    [| discriminate].
  intros H; inversion H; subst c. repeat split.
  - destruct (aud body) as [a |]; simpl in Au; [| discriminate].
    apply String.eqb_eq in Au. now subst.
  - destruct (iss body) as [i |]; simpl in Is; [| discriminate].
    apply String.eqb_eq in Is. now subst.
  - intros e He. rewrite He in X. apply Z.leb_gt in X. exact X.
Qed.

Lemma verifyAccessToken_ok (cfg : Config) (now : Z) (t : Token) (c : Claims) :
  verifyAccessToken cfg now t = Ok c ->
  t = Signed (accessSecret cfg) c /\ type c = "access".
Proof.
  unfold verifyAccessToken.
  destruct (jwt_verify now t (accessSecret cfg)) as [d | e0] eqn:V; [| discriminate].
  destruct (type d =? "access")%string eqn:T; simpl; [| discriminate].
  intros H; inversion H; subst d. apply jwt_verify_ok in V.
  apply String.eqb_eq in T. tauto.
Qed.

Lemma verifyRefreshToken_ok (cfg : Config) (now : Z) (t : Token) (c : Claims) :
  verifyRefreshToken cfg now t = Ok c ->
  t = Signed (refreshSecret cfg) c /\ type c = "refresh" /\
  (forall e, exp c = Some e -> now / 1000 < e).
Proof.
  unfold verifyRefreshToken.
  destruct (jwt_verify now t (refreshSecret cfg)) as [d | e0] eqn:V; [| discriminate].
  destruct (type d =? "refresh")%string eqn:T; simpl; [| discriminate].
  intros H; inversion H; subst d. apply jwt_verify_ok in V.
  apply String.eqb_eq in T. tauto.
Qed.

(** C4 (the code departs from the claim).  A token that carries a valid
    signature and whose [exp] has passed is answered by [verifyAccessToken]
    with the very error it gives for a bad signature,
    [AuthenticationError('Invalid access token')], and [verifyRefreshToken]
    does the same with ['Invalid refresh token']: the [catch] block tests
    [instanceof JsonWebTokenError] first, and [TokenExpiredError] is a
    subclass of it.  No token at all is answered ['Access token expired'] or
    ['Refresh token expired'], so the caller cannot tell an expired token from
    an invalid one. *)
Theorem verify_expired_token_reported_as_invalid :
  forall (cfg : Config) (now : Z) (c : Claims) (e : Z),
    exp c = Some e ->
    e <= now / 1000 ->
    verifyAccessToken cfg now (Signed (accessSecret cfg) c)
      = Err (newAuthenticationError "Invalid access token") /\
    verifyRefreshToken cfg now (Signed (refreshSecret cfg) c)
      = Err (newAuthenticationError "Invalid refresh token") /\
    (forall key, key <> accessSecret cfg ->
       verifyAccessToken cfg now (Signed key c)
         = Err (newAuthenticationError "Invalid access token")) /\
    (forall key, key <> refreshSecret cfg ->
       verifyRefreshToken cfg now (Signed key c)
         = Err (newAuthenticationError "Invalid refresh token")) /\
    (forall t err, verifyAccessToken cfg now t = Err err -> kindOf err = InvalidToken) /\
    (forall t err, verifyRefreshToken cfg now t = Err err -> kindOf err = InvalidToken).
Proof.
  intros cfg now c e He Hpast.
  assert (X : (e <=? now / 1000) = true) by now apply Z.leb_le.
  repeat split.
  - unfold verifyAccessToken, jwt_verify.
    rewrite String.eqb_refl, He, X. reflexivity.
  - unfold verifyRefreshToken, jwt_verify.
    rewrite String.eqb_refl, He, X. reflexivity.
  - intros key Hkey. unfold verifyAccessToken, jwt_verify.
    apply String.eqb_neq in Hkey. rewrite Hkey. reflexivity.
  - intros key Hkey. unfold verifyRefreshToken, jwt_verify.
    apply String.eqb_neq in Hkey. rewrite Hkey. reflexivity.
  - intros t err H. apply verifyAccessToken_errors in H.
    destruct H as [-> | ->]; reflexivity.
  - intros t err H. now apply verifyRefreshToken_error_kind in H.
Qed.

(** The access token minted for Alice at second 1000 expires at second 1900;
    at second 2000 it is reported as invalid. *)
Lemma verify_expired_token_reported_as_invalid_witness :
  verifyAccessToken Sample.cfg 2000000 Sample.aliceAccess
    = Err (newAuthenticationError "Invalid access token").
Proof.
  refine (proj1 (verify_expired_token_reported_as_invalid Sample.cfg 2000000
                   (mkClaims Sample.alicePayload "access" 1000 (Some 1900)
                             (Some issuer) (Some audience))
                   1900 _ _)).
  - reflexivity.
  - vm_compute. discriminate.
Defined.

(** C6.  For every configuration and payload, a token minted by
    [generateRefreshToken] is signed with the refresh secret and carries
    [type = 'refresh'], a token minted by [generateAccessToken] is signed with
    the access secret and carries [type = 'access'], and at any later clock
    [verifyAccessToken] fails on the former and [verifyRefreshToken] on the
    latter, with an error of the [InvalidToken] kind (also when the two
    configured secrets happen to be the same string: the [type] check
    rejects). *)
Theorem cross_type_rejection :
  forall (cfg : Config) (minted now : Z) (p : Payload),
    (exists c, generateRefreshToken cfg minted p = Signed (refreshSecret cfg) c /\
               type c = "refresh" /\ payload c = p) /\
    (exists c, generateAccessToken cfg minted p = Signed (accessSecret cfg) c /\
               type c = "access" /\ payload c = p) /\
    (exists e, verifyAccessToken cfg now (generateRefreshToken cfg minted p) = Err e /\
               kindOf e = InvalidToken) /\
    (exists e, verifyRefreshToken cfg now (generateAccessToken cfg minted p) = Err e /\
               kindOf e = InvalidToken).
Proof.
  intros cfg minted now p. repeat split.
  - eexists; repeat split; reflexivity.
  - eexists; repeat split; reflexivity.
  - destruct (verifyAccessToken cfg now (generateRefreshToken cfg minted p))
      as [c | e] eqn:V.
    + apply verifyAccessToken_ok in V. destruct V as [V T].
      unfold generateRefreshToken, jwt_sign in V. inversion V; subst c.
      simpl in T. discriminate.
    + exists e; split; [reflexivity |].
      apply verifyAccessToken_errors in V. destruct V as [-> | ->]; reflexivity.
  - destruct (verifyRefreshToken cfg now (generateAccessToken cfg minted p))
      as [c | e] eqn:V.
    + apply verifyRefreshToken_ok in V. destruct V as [V [T _]].
      unfold generateAccessToken, jwt_sign in V. inversion V; subst c.
      simpl in T. discriminate.
    + exists e; split; [reflexivity |].
      now apply verifyRefreshToken_error_kind in V.
Qed.

(** ** Issuing a pair *)

Lemma generateTokenPair_run (cfg : Config) (uid mail : string)
    (rs ps : list string) (ua ip : option string) (w : World) :
  run (generateTokenPair cfg uid mail rs ps ua ip) w =
  let p := mkPayload uid mail rs ps in
  let rt := generateRefreshToken cfg (clock w) p in
  if hd false (faults w)
  then (Err storeFault, log "Failed to store refresh token:" (popFault w))
  else match findRefreshToken rt (db w) with
       | Some _ => (Err (prismaKnownError "P2002"),
                    log "Failed to store refresh token:" (popFault w))
       | None =>
           (Ok (mkJWTTokens (generateAccessToken cfg (clock w) p) rt),
            popFault
              (withDb
                 (withRefreshTokens
                    (refreshTokenTable (db w) ++
                     [mintedRow cfg (clock w) uid mail rs ps ua ip]) (db w)) w))
       end.
Proof.
  unfold generateTokenPair, storeRefreshToken. simpl.
  unfold execDb. simpl.
  destruct (faults w) as [| [|] fs] eqn:F; simpl.
  - destruct (findRefreshToken _ (db w)); simpl.
    + unfold log, popFault. simpl. rewrite F. reflexivity.
    + unfold popFault, withDb. simpl. rewrite F. reflexivity.
  - unfold log, popFault. simpl. rewrite F. reflexivity.
  - destruct (findRefreshToken _ (db w)); simpl.
    + unfold log, popFault. simpl. rewrite F. reflexivity.
    + unfold popFault, withDb. simpl. rewrite F. reflexivity.
Qed.

(** What a successful [generateTokenPair] returned and left in the store. *)
Lemma generateTokenPair_ok (cfg : Config) (uid mail : string)
    (rs ps : list string) (ua ip : option string) (w w' : World)
    (tokens : JWTTokens) :
  run (generateTokenPair cfg uid mail rs ps ua ip) w = (Ok tokens, w') ->
  tokens = mkJWTTokens (generateAccessToken cfg (clock w) (mkPayload uid mail rs ps))
                       (generateRefreshToken cfg (clock w) (mkPayload uid mail rs ps)) /\
  findRefreshToken (refreshToken tokens) (db w) = None /\
  w' = popFault
         (withDb
            (withRefreshTokens
               (refreshTokenTable (db w) ++
                [mintedRow cfg (clock w) uid mail rs ps ua ip]) (db w)) w).
Proof.
  rewrite generateTokenPair_run. cbv zeta.
  destruct (hd false (faults w)); [discriminate |].
  destruct (findRefreshToken _ (db w)) eqn:F; [discriminate |].
  intros H; inversion H; subst. simpl. auto.
Qed.

Lemma mintedRow_mirrors (cfg : Config) (now : Z) (uid mail : string)
    (rs ps : list string) (ua ip : option string) :
  expiryMirrorsClaim (mintedRow cfg now uid mail rs ps ua ip).
Proof.
  unfold expiryMirrorsClaim, mintedRow, generateRefreshToken, jwt_sign. simpl.
  eexists; eexists; repeat split.
Qed.

(** C9.  When [generateTokenPair] succeeds, the store holds exactly one more
    RefreshToken row; it is keyed by the refresh token just returned, and its
    [expiresAt] is the [exp] claim obtained by decoding that token, times
    1000 (seconds to milliseconds).  Hence, if every row of the store
    mirrored the [exp] of its own token before, every row does after. *)
Theorem generateTokenPair_expiresAt_is_signed_exp :
  forall (cfg : Config) (uid mail : string) (rs ps : list string)
         (ua ip : option string) (w w' : World) (tokens : JWTTokens),
    run (generateTokenPair cfg uid mail rs ps ua ip) w = (Ok tokens, w') ->
    (exists row c e,
        refreshTokenTable (db w') = refreshTokenTable (db w) ++ [row] /\
        rt_token row = refreshToken tokens /\
        jwt_decode (refreshToken tokens) = Some c /\
        exp c = Some e /\
        rt_expiresAt row = e * 1000) /\
    (Forall expiryMirrorsClaim (refreshTokenTable (db w)) ->
     Forall expiryMirrorsClaim (refreshTokenTable (db w'))).
Proof.
  intros cfg uid mail rs ps ua ip w w' tokens H.
  apply generateTokenPair_ok in H. destruct H as [-> [_ ->]]. split.
  - exists (mintedRow cfg (clock w) uid mail rs ps ua ip).
    eexists; eexists. simpl. repeat split.
  - intros Hall. simpl. apply Forall_app. split; [exact Hall |].
    constructor; [apply mintedRow_mirrors | constructor].
Qed.

(** Issuing a pair for Alice in the sample world. *)
Lemma generateTokenPair_expiresAt_is_signed_exp_witness :
  exists row c e,
    refreshTokenTable
      (db (snd (run (generateTokenPair Sample.cfg "u1" "alice@example.com"
                       ["admin"] ["users:read"] (Some "curl/8") None)
                    Sample.world)))
      = refreshTokenTable (db Sample.world) ++ [row] /\
    rt_token row
      = generateRefreshToken Sample.cfg 2000000
          (mkPayload "u1" "alice@example.com" ["admin"] ["users:read"]) /\
    jwt_decode (rt_token row) = Some c /\
    exp c = Some e /\
    rt_expiresAt row = e * 1000.
Proof.
  destruct (generateTokenPair_expiresAt_is_signed_exp
              Sample.cfg "u1" "alice@example.com" ["admin"] ["users:read"]
              (Some "curl/8") None Sample.world
              (snd (run (generateTokenPair Sample.cfg "u1" "alice@example.com"
                           ["admin"] ["users:read"] (Some "curl/8") None)
                        Sample.world))
              (mkJWTTokens
                 (generateAccessToken Sample.cfg 2000000
                    (mkPayload "u1" "alice@example.com" ["admin"] ["users:read"]))
                 (generateRefreshToken Sample.cfg 2000000
                    (mkPayload "u1" "alice@example.com" ["admin"] ["users:read"])))
              eq_refl) as [[row [c [e [H1 [H2 [H3 [H4 H5]]]]]]] _].
  exists row, c, e. simpl in H2. rewrite H2. repeat split; assumption.
Defined.

(** ** Effective permissions *)

Lemma existsb_eqb_In (x : string) (s : list string) :
  existsb (String.eqb x) s = true <-> In x s.
Proof.
  rewrite existsb_exists. split.
  - intros [y [Hy E]]. apply String.eqb_eq in E. now subst.
  - intros H. exists x. split; [exact H | apply String.eqb_refl].
Qed.








(** A name is among the role permissions when some assigned role grants a
    permission of that name. *)
Lemma rolePermissions_In (u : User) (p : string) :
  In p (rolePermissions u) <->
  exists role perm, In role (user_roles u) /\ In perm (role_permissions role) /\
                    perm_name perm = p.
Proof.
  unfold rolePermissions. rewrite in_flat_map. split.
  - intros [role [Hr Hp]]. apply in_map_iff in Hp. destruct Hp as [perm [E Hperm]].
    exists role, perm. auto.
  - intros [role [perm [Hr [Hperm E]]]]. exists role. split; [exact Hr |].
    apply in_map_iff. exists perm. auto.
Qed.

(** ** Refreshing *)

Lemma revokeRefreshToken_run (t : Token) (w : World) :
  run (revokeRefreshToken t) w =
  if hd false (faults w)
  then (Ok tt, log "Failed to revoke refresh token:" (popFault w))
  else match findRefreshToken t (db w) with
       | None => (Ok tt, log "Failed to revoke refresh token:" (popFault w))
       | Some _ => (Ok tt, popFault (withDb (markRevoked t (db w)) w))
       end.
Proof.
  unfold revokeRefreshToken. rewrite run_tryCatch, run_await.
  destruct (hd false (faults w)) eqn:F.
  - rewrite execDb_fails by exact F. reflexivity.
  - rewrite execDb_answers by exact F. simpl.
    destruct (findRefreshToken t (db w)); reflexivity.
Qed.

(** [refreshTokens], run alone, case by case. *)
Lemma refreshTokens_run (cfg : Config) (t : Token) (w : World) :
  run (refreshTokens cfg t) w =
  match verifyRefreshToken cfg (clock w) t with
  | Err e => (Err e, w)
  | Ok _ =>
      if hd false (faults w) then (Err storeFault, popFault w)
      else
        match findRefreshToken t (db w) with
        | None => (Err invalidOrRevoked, popFault w)
        | Some row =>
            match findUserById (rt_userId row) (db w) with
            | None => (Err (mkExn PrismaClientKnownRequestError
                              "Inconsistent query result"), popFault w)
            | Some user =>
                if rt_isRevoked row then (Err invalidOrRevoked, popFault w)
                else if rt_expiresAt row <? clock w
                then (Err (newAuthenticationError "Refresh token expired"),
                      popFault w)
                else if negb (user_isActive user)
                then (Err (newAuthenticationError "User account is disabled"),
                      popFault w)
                else
                  match run (generateTokenPair cfg (user_id user) (user_email user)
                               (map role_name (user_roles user))
                               (allPermissions user)
                               (rt_userAgent row) (rt_ipAddress row))
                            (popFault w) with
                  | (Ok newTokens, w1) =>
                      (Ok newTokens, snd (run (revokeRefreshToken t) w1))
                  | (Err e, w1) => (Err e, w1)
                  end
            end
        end
  end.
Proof.
  unfold refreshTokens, newDate. cbn [bind run execEff].
  rewrite run_bind, run_ofRes.
  destruct (verifyRefreshToken cfg (clock w) t) as [c | e]; [| reflexivity].
  rewrite run_bind, run_await.
  destruct (hd false (faults w)) eqn:F.
  - rewrite execDb_fails by exact F. reflexivity.
  - rewrite execDb_answers by exact F. simpl applyOp.
    destruct (findRefreshToken t (db w)) as [row |]; [| reflexivity].
    destruct (findUserById (rt_userId row) (db w)) as [user |]; [| reflexivity].
    cbn [fst snd].
    destruct (rt_isRevoked row); [reflexivity |].
    cbn [bind run execEff clock popFault withDb].
    destruct (rt_expiresAt row <? clock w); [reflexivity |].
    destruct (negb (user_isActive user)); [reflexivity |].
    rewrite run_bind.
    change (popFault (withDb (db w) w)) with (popFault w).
    destruct (run (generateTokenPair _ _ _ _ _ _ _) (popFault w)) as [[nt | e] w1];
      [| reflexivity].
    rewrite run_bind.
    destruct (run (revokeRefreshToken t) w1) as [[[] | e] w2] eqn:R.
    + reflexivity.
    + rewrite revokeRefreshToken_run in R.
      destruct (hd false (faults w1)); [discriminate |].
      destruct (findRefreshToken t (db w1)); discriminate.
Qed.

(** C3.  Once [verifyRefreshToken] has accepted the token and the store has
    answered the row lookup, [refreshTokens] fails
    - with ['Refresh token is invalid or revoked'] ([InvalidToken]) when no
      row is stored for the token or the row is revoked, whatever the row's
      expiry and the owner's status;
    - with ['Refresh token expired'] ([ExpiredToken]) when the row is not
      revoked and its [expiresAt] lies before the clock, whatever the owner's
      status;
    - with ['User account is disabled'] ([AccountDisabled]) when the row is
      neither revoked nor expired and the owner has [isActive = false].
    In each case the store is left as it was. *)
Theorem refreshTokens_checks_in_order :
  forall (cfg : Config) (t : Token) (w : World) (c : Claims),
    verifyRefreshToken cfg (clock w) t = Ok c ->
    hd false (faults w) = false ->
    (findRefreshToken t (db w) = None ->
     run (refreshTokens cfg t) w = (Err invalidOrRevoked, popFault w)) /\
    (forall row owner,
        findRefreshToken t (db w) = Some row ->
        findUserById (rt_userId row) (db w) = Some owner ->
        (rt_isRevoked row = true ->
         run (refreshTokens cfg t) w = (Err invalidOrRevoked, popFault w)) /\
        (rt_isRevoked row = false ->
         rt_expiresAt row < clock w ->
         run (refreshTokens cfg t) w
           = (Err (newAuthenticationError "Refresh token expired"), popFault w)) /\
        (rt_isRevoked row = false ->
         clock w <= rt_expiresAt row ->
         user_isActive owner = false ->
         run (refreshTokens cfg t) w
           = (Err (newAuthenticationError "User account is disabled"),
              popFault w))) /\
    kindOf invalidOrRevoked = InvalidToken /\
    kindOf (newAuthenticationError "Refresh token expired") = ExpiredToken /\
    kindOf (newAuthenticationError "User account is disabled") = AccountDisabled.
Proof.
  intros cfg t w c V F.
  split; [| split; [| repeat split]].
  - intros N. rewrite refreshTokens_run, V, F, N. reflexivity.
  - intros row owner Hrow Howner. repeat split.
    + intros R. rewrite refreshTokens_run, V, F, Hrow, Howner, R. reflexivity.
    + intros R X. rewrite refreshTokens_run, V, F, Hrow, Howner, R.
      apply Z.ltb_lt in X. rewrite X. reflexivity.
    + intros R X A. rewrite refreshTokens_run, V, F, Hrow, Howner, R, A.
      apply Z.ltb_ge in X. rewrite X. reflexivity.
Qed.

(** In the sample worlds: a token with no row, a row that is past its
    [expiresAt], and the row of a disabled account. *)
Lemma refreshTokens_checks_in_order_witness :
  run (refreshTokens Sample.cfg Sample.carolRefresh) Sample.world
    = (Err invalidOrRevoked, popFault Sample.world) /\
  run (refreshTokens Sample.cfg Sample.aliceRefresh) Sample.staleWorld
    = (Err (newAuthenticationError "Refresh token expired"),
       popFault Sample.staleWorld) /\
  run (refreshTokens Sample.cfg Sample.bobRefresh) Sample.world
    = (Err (newAuthenticationError "User account is disabled"),
       popFault Sample.world).
Proof.
  split; [| split].
  - refine (proj1 (refreshTokens_checks_in_order Sample.cfg Sample.carolRefresh
                     Sample.world _ _ _) _);
      [vm_compute; reflexivity | reflexivity | reflexivity].
  - refine (proj1 (proj2 (proj1 (proj2
              (refreshTokens_checks_in_order Sample.cfg Sample.aliceRefresh
                 Sample.staleWorld _ _ _))
              (mkRefreshToken Sample.aliceRefresh "u1" 1500000 false
                 (Some "curl/8") None)
              Sample.alice _ _)) _ _);
      [vm_compute; reflexivity | reflexivity | reflexivity | reflexivity
       | reflexivity | reflexivity].
  - refine (proj2 (proj2 (proj1 (proj2
              (refreshTokens_checks_in_order Sample.cfg Sample.bobRefresh
                 Sample.world _ _ _))
              Sample.bobRow Sample.bob _ _)) _ _ _);
      [vm_compute; reflexivity | reflexivity | reflexivity | reflexivity
       | reflexivity | vm_compute; discriminate | reflexivity].
Defined.

(** ** Rows that stay revoked *)

Lemma find_app_Some {A} (p : A -> bool) (l l' : list A) (x : A) :
  find p l = Some x -> find p (l ++ l') = Some x.
Proof.
  induction l as [| a l IH]; simpl; [discriminate |].
  destruct (p a); [auto | exact IH].
Qed.

Lemma find_map_preserving {A} (p : A -> bool) (f : A -> A) (l : list A) :
  (forall a, p (f a) = p a) ->
  find p (map f l) = option_map f (find p l).
Proof.
  intros Hp. induction l as [| a l IH]; simpl; [reflexivity |].
  rewrite Hp. destruct (p a); [reflexivity | exact IH].
Qed.

Lemma findRefreshToken_markRevoked (t : Token) (d : Database) (row : RefreshToken) :
  findRefreshToken t d = Some row ->
  findRefreshToken t (markRevoked t d) = Some (revokeRow row).
Proof.
  unfold findRefreshToken, markRevoked. simpl. intros H.
  rewrite find_map_preserving.
  - rewrite H. simpl.
    apply find_some in H. destruct H as [_ E]. rewrite E. reflexivity.
  - intros r. destruct (Token_eqb (rt_token r) t) eqn:E; simpl; exact E.
Qed.

Lemma hd_tl_tl (l : list bool) : hd false (tl (tl l)) = nth 2 l false.
Proof. destruct l as [| a [| b [| c l]]]; reflexivity. Qed.

(** A stored token whose row is revoked is never redeemed: [refreshTokens]
    fails under every clock and every fault schedule, and with an error of the
    [InvalidToken] kind whenever the store answers the row lookup. *)
Lemma refreshTokens_revoked (cfg : Config) (t : Token) (w : World)
    (row : RefreshToken) (owner : User) :
  findRefreshToken t (db w) = Some row ->
  rt_isRevoked row = true ->
  findUserById (rt_userId row) (db w) = Some owner ->
  exists e w',
    run (refreshTokens cfg t) w = (Err e, w') /\
    (hd false (faults w) = false -> kindOf e = InvalidToken).
Proof.
  intros Hrow Hrev Howner. rewrite refreshTokens_run.
  destruct (verifyRefreshToken cfg (clock w) t) as [c | e] eqn:V.
  - destruct (hd false (faults w)) eqn:F.
    + eexists; eexists; split; [reflexivity | discriminate].
    + rewrite Hrow, Howner, Hrev. eexists; eexists; split; reflexivity.
  - exists e, w. split; [reflexivity |]. intros _.
    eapply verifyRefreshToken_error_kind; eauto.
Qed.

(** What a successful [refreshTokens] did, up to the call that revokes. *)
Lemma refreshTokens_ok (cfg : Config) (t : Token) (w w1 : World)
    (tokens : JWTTokens) :
  run (refreshTokens cfg t) w = (Ok tokens, w1) ->
  exists row owner wi,
    findRefreshToken t (db w) = Some row /\
    findUserById (rt_userId row) (db w) = Some owner /\
    rt_isRevoked row = false /\
    user_isActive owner = true /\
    run (generateTokenPair cfg (user_id owner) (user_email owner)
           (map role_name (user_roles owner)) (allPermissions owner)
           (rt_userAgent row) (rt_ipAddress row)) (popFault w)
      = (Ok tokens, wi) /\
    w1 = snd (run (revokeRefreshToken t) wi).
Proof.
  rewrite refreshTokens_run.
  destruct (verifyRefreshToken cfg (clock w) t) as [c | e]; [| discriminate].
  destruct (hd false (faults w)); [discriminate |].
  destruct (findRefreshToken t (db w)) as [row |] eqn:Hrow; [| discriminate].
  destruct (findUserById (rt_userId row) (db w)) as [owner |] eqn:Howner;
    [| discriminate].
  destruct (rt_isRevoked row) eqn:R; [discriminate |].
  destruct (rt_expiresAt row <? clock w); [discriminate |].
  destruct (user_isActive owner) eqn:A; cbn [negb]; [| discriminate].
  destruct (run (generateTokenPair _ _ _ _ _ _ _) (popFault w)) as [[nt | e] wi] eqn:G;
    [| discriminate].
  intros H; inversion H; subst. exists row, owner, wi.
  repeat split; try reflexivity; assumption.
Qed.

(** A successful [refreshTokens] whose revoking update the store performed
    leaves the row of the token revoked; it made three Prisma calls. *)
Lemma refreshTokens_ok_revoked (cfg : Config) (t : Token) (w w1 : World)
    (tokens : JWTTokens) :
  run (refreshTokens cfg t) w = (Ok tokens, w1) ->
  nth 2 (faults w) false = false ->
  exists row owner,
    findRefreshToken t (db w1) = Some row /\
    rt_isRevoked row = true /\
    findUserById (rt_userId row) (db w1) = Some owner /\
    faults w1 = tl (tl (tl (faults w))).
Proof.
  intros H F2.
  apply refreshTokens_ok in H.
  destruct H as [row [owner [wi [Hrow [Howner [Hrev [Hact [G ->]]]]]]]].
  apply generateTokenPair_ok in G. destruct G as [_ [_ ->]].
  rewrite revokeRefreshToken_run.
  cbn [faults popFault withDb db clock]. rewrite hd_tl_tl, F2.
  assert (Hrow' : findRefreshToken t
            (withRefreshTokens
               (refreshTokenTable (db w) ++
                [mintedRow cfg (clock w) (user_id owner) (user_email owner)
                   (map role_name (user_roles owner)) (allPermissions owner)
                   (rt_userAgent row) (rt_ipAddress row)]) (db w)) = Some row).
  { unfold findRefreshToken. simpl. now apply find_app_Some. }
  rewrite Hrow'. cbn [snd db popFault withDb faults].
  exists (revokeRow row), owner. repeat split.
  - now apply findRefreshToken_markRevoked.
  - exact Howner.
Qed.

(** C1, as the code has it.  Let [refreshTokens(t)] succeed, and let the store
    perform the update that marks the row revoked (the third Prisma call of a
    successful refresh; when that call fails, [revokeRefreshToken] logs the
    failure and the refresh still succeeds).  Then the row of [t] is revoked
    afterwards, and every later [refreshTokens(t)] against that store, at any
    clock, fails: it never issues a pair, and its error is of the
    [InvalidToken] kind whenever the store answers its row lookup. *)
Theorem refresh_rotation_is_one_shot :
  forall (cfg : Config) (t : Token) (w w1 : World) (tokens : JWTTokens),
    run (refreshTokens cfg t) w = (Ok tokens, w1) ->
    nth 2 (faults w) false = false ->
    (exists row, findRefreshToken t (db w1) = Some row /\ rt_isRevoked row = true) /\
    (forall w2, db w2 = db w1 ->
       exists e w3,
         run (refreshTokens cfg t) w2 = (Err e, w3) /\
         (hd false (faults w2) = false -> kindOf e = InvalidToken)).
Proof.
  intros cfg t w w1 tokens H F2.
  destruct (refreshTokens_ok_revoked cfg t w w1 tokens H F2)
    as [row [owner [Hrow [Hrev [Howner _]]]]].
  split.
  - exists row. split; assumption.
  - intros w2 E. apply refreshTokens_revoked with (row := row) (owner := owner).
    + rewrite E. exact Hrow.
    + exact Hrev.
    + rewrite E. exact Howner.
Qed.

(** In the sample world Alice's token is redeemed once; a second later the
    same token is refused. *)
Lemma refresh_rotation_is_one_shot_witness :
  exists e w3,
    run (refreshTokens Sample.cfg Sample.aliceRefresh)
        (advance 1000
           (snd (run (refreshTokens Sample.cfg Sample.aliceRefresh) Sample.world)))
      = (Err e, w3) /\
    kindOf e = InvalidToken.
Proof.
  assert (R : run (refreshTokens Sample.cfg Sample.aliceRefresh) Sample.world
              = (Ok Sample.rotated,
                 snd (run (refreshTokens Sample.cfg Sample.aliceRefresh) Sample.world)))
    by (vm_compute; reflexivity).
  destruct (proj2 (refresh_rotation_is_one_shot Sample.cfg Sample.aliceRefresh
                     Sample.world _ Sample.rotated R eq_refl)
                  (advance 1000
                     (snd (run (refreshTokens Sample.cfg Sample.aliceRefresh)
                               Sample.world)))
                  eq_refl) as [e [w3 [H K]]].
  exists e, w3. split; [exact H | apply K; reflexivity].
Defined.

(** C1, as the claim states it, fails: Alice's row exists, is not revoked,
    is not past its [expiresAt] and Alice is active; the store answers the
    lookup and the insert and fails the update that revokes the row.  The
    refresh succeeds all the same, the row stays unrevoked, and a second
    [refreshTokens] on the same token, one second later, issues another
    pair. *)
Lemma refresh_rotation_counterexample :
  exists tokens w1 tokens' w2,
    findRefreshToken Sample.aliceRefresh (db Sample.flakyWorld)
      = Some Sample.aliceRow /\
    rt_isRevoked Sample.aliceRow = false /\
    (rt_expiresAt Sample.aliceRow <? clock Sample.flakyWorld) = false /\
    findUserById (rt_userId Sample.aliceRow) (db Sample.flakyWorld)
      = Some Sample.alice /\
    user_isActive Sample.alice = true /\
    run (refreshTokens Sample.cfg Sample.aliceRefresh) Sample.flakyWorld
      = (Ok tokens, w1) /\
    findRefreshToken Sample.aliceRefresh (db w1) = Some Sample.aliceRow /\
    logs w1 = ["Failed to revoke refresh token:"] /\
    run (refreshTokens Sample.cfg Sample.aliceRefresh) (advance 1000 w1)
      = (Ok tokens', w2).
Proof.
  do 4 eexists. repeat split; vm_compute; reflexivity.
Qed.

(** ** Revoking every session of a user *)

Lemma revokeAllUserTokens_run (uid : string) (w : World) :
  run (revokeAllUserTokens uid) w =
  if hd false (faults w)
  then (Err storeFault, log "Failed to revoke all user tokens:" (popFault w))
  else (Ok tt, popFault (withDb (markAllRevoked uid (db w)) w)).
Proof.
  unfold revokeAllUserTokens. rewrite run_tryCatch, run_await.
  destruct (hd false (faults w)) eqn:F.
  - rewrite execDb_fails by exact F. reflexivity.
  - rewrite execDb_answers by exact F. reflexivity.
Qed.

Lemma findRefreshToken_markAllRevoked (uid : string) (t : Token) (d : Database)
    (row : RefreshToken) :
  findRefreshToken t d = Some row ->
  rt_userId row = uid ->
  exists row', findRefreshToken t (markAllRevoked uid d) = Some row' /\
               rt_isRevoked row' = true /\ rt_userId row' = uid.
Proof.
  intros H U. unfold findRefreshToken, markAllRevoked. simpl.
  rewrite find_map_preserving.
  - unfold findRefreshToken in H. rewrite H. simpl.
    rewrite U, String.eqb_refl. simpl.
    destruct (rt_isRevoked row) eqn:R; simpl.
    + exists row. auto.
    + exists (revokeRow row). auto.
  - intros r.
    destruct ((rt_userId r =? uid)%string && negb (rt_isRevoked r) && true);
      reflexivity.
Qed.

Lemma findUserById_storePassword (i uid hash : string) (d : Database) (u : User) :
  findUserById i d = Some u ->
  exists u', findUserById i (storePassword uid hash d) = Some u'.
Proof.
  intros H. unfold findUserById, storePassword. simpl.
  rewrite find_map_preserving.
  - unfold findUserById in H. rewrite H. simpl. eexists; reflexivity.
  - intros a. destruct (user_id a =? uid)%string; reflexivity.
Qed.

Section ChangePassword.

Variable bcrypt_compare : string -> string -> bool.
Variable bcrypt_hash : string -> Z -> string.
Variable cfg : Config.

(** A successful [changePassword] stored the new hash and then revoked
    every refresh token of the user. *)
Lemma changePassword_ok (uid : string) (data : ChangePasswordData) (w w1 : World) :
  run (changePassword bcrypt_compare bcrypt_hash cfg uid data) w = (Ok tt, w1) ->
  exists user,
    findUserById uid (db w) = Some user /\
    bcrypt_compare (currentPassword data) (passwordOf user) = true /\
    db w1 = markAllRevoked uid
              (storePassword uid (bcrypt_hash (newPassword data) (bcryptRounds cfg))
                             (db w)).
Proof.
  unfold changePassword. rewrite run_bind, run_await.
  destruct (hd false (faults w)) eqn:F.
  { rewrite execDb_fails by exact F. discriminate. }
  rewrite execDb_answers by exact F. simpl applyOp. cbn [fst snd].
  destruct (findUserById uid (db w)) as [user |] eqn:U; [| discriminate].
  destruct (noPassword user); [discriminate |].
  destruct (bcrypt_compare (currentPassword data) (passwordOf user)) eqn:C;
    cbn [negb]; [| discriminate].
  rewrite run_bind, run_await.
  set (wa := popFault (withDb (db w) w)).
  destruct (hd false (faults wa)) eqn:Fa.
  { rewrite execDb_fails by exact Fa. discriminate. }
  rewrite execDb_answers by exact Fa. simpl applyOp.
  cbn [wa popFault withDb db]. rewrite U.
  cbn [fst snd]. rewrite revokeAllUserTokens_run.
  match goal with
  | |- context [hd false (faults ?x)] => destruct (hd false (faults x))
  end; [discriminate |].
  intros H; inversion H. exists user. repeat split; try assumption.
Qed.

End ChangePassword.

(** C8.  Take a refresh token that has a row in the store, owned by user
    [uid].  After [revokeAllUserTokens(uid)] has returned, and likewise after
    a [changePassword] of that user has succeeded, every [refreshTokens] on
    that token, at any clock, fails: it never issues a pair, and its error is
    of the [InvalidToken] kind whenever the store answers the row lookup. *)
Theorem revokeAll_invalidates_every_session :
  forall (cfg : Config) (uid : string) (t : Token) (row : RefreshToken)
         (owner : User) (w : World),
    findRefreshToken t (db w) = Some row ->
    rt_userId row = uid ->
    findUserById uid (db w) = Some owner ->
    (forall w1,
        run (revokeAllUserTokens uid) w = (Ok tt, w1) ->
        forall w2, db w2 = db w1 ->
          exists e w3,
            run (refreshTokens cfg t) w2 = (Err e, w3) /\
            (hd false (faults w2) = false -> kindOf e = InvalidToken)) /\
    (forall bcrypt_compare bcrypt_hash data w1,
        run (changePassword bcrypt_compare bcrypt_hash cfg uid data) w = (Ok tt, w1) ->
        forall w2, db w2 = db w1 ->
          exists e w3,
            run (refreshTokens cfg t) w2 = (Err e, w3) /\
            (hd false (faults w2) = false -> kindOf e = InvalidToken)).
Proof.
  intros cfg uid t row owner w Hrow Huid Howner. split.
  - intros w1 R w2 E. rewrite revokeAllUserTokens_run in R.
    destruct (hd false (faults w)); [discriminate |].
    inversion R as [W1]. clear R.
    destruct (findRefreshToken_markAllRevoked uid t (db w) row Hrow Huid)
      as [row' [Hrow' [Hrev Huid']]].
    apply refreshTokens_revoked with (row := row') (owner := owner).
    + rewrite E, <- W1. exact Hrow'.
    + exact Hrev.
    + rewrite E, <- W1, Huid'. exact Howner.
  - intros bcrypt_compare bcrypt_hash data w1 R w2 E.
    apply changePassword_ok in R. destruct R as [user [_ [_ W1]]].
    set (d := storePassword uid (bcrypt_hash (newPassword data) (bcryptRounds cfg))
                            (db w)) in W1.
    assert (Hrow0 : findRefreshToken t d = Some row) by exact Hrow.
    destruct (findRefreshToken_markAllRevoked uid t d row Hrow0 Huid)
      as [row' [Hrow' [Hrev Huid']]].
    destruct (findUserById_storePassword uid uid
                (bcrypt_hash (newPassword data) (bcryptRounds cfg)) (db w) owner
                Howner)
      as [owner' Howner'].
    apply refreshTokens_revoked with (row := row') (owner := owner').
    + rewrite E, W1. exact Hrow'.
    + exact Hrev.
    + rewrite E, W1, Huid'. exact Howner'.
Qed.

(** Alice's session in the sample world, after [revokeAllUserTokens] and
    after she changed her password. *)
Lemma revokeAll_invalidates_every_session_witness :
  (exists e w3,
      run (refreshTokens Sample.cfg Sample.aliceRefresh)
          (snd (run (revokeAllUserTokens "u1") Sample.world)) = (Err e, w3) /\
      kindOf e = InvalidToken) /\
  (exists e w3,
      run (refreshTokens Sample.cfg Sample.aliceRefresh)
          (snd (run (changePassword Sample.compare Sample.hash Sample.cfg "u1"
                       (mkChangePasswordData "correct horse" "battery staple"))
                    Sample.world)) = (Err e, w3) /\
      kindOf e = InvalidToken).
Proof.
  pose proof (revokeAll_invalidates_every_session Sample.cfg "u1"
                Sample.aliceRefresh Sample.aliceRow Sample.alice Sample.world
                eq_refl eq_refl eq_refl) as [A B].
  split.
  - destruct (A (snd (run (revokeAllUserTokens "u1") Sample.world)) eq_refl
                (snd (run (revokeAllUserTokens "u1") Sample.world)) eq_refl)
      as [e [w3 [H K]]].
    exists e, w3. split; [exact H | apply K; reflexivity].
  - destruct (B Sample.compare Sample.hash
                (mkChangePasswordData "correct horse" "battery staple")
                (snd (run (changePassword Sample.compare Sample.hash Sample.cfg "u1"
                             (mkChangePasswordData "correct horse" "battery staple"))
                          Sample.world))
                eq_refl
                (snd (run (changePassword Sample.compare Sample.hash Sample.cfg "u1"
                             (mkChangePasswordData "correct horse" "battery staple"))
                          Sample.world))
                eq_refl)
      as [e [w3 [H K]]].
    exists e, w3. split; [exact H | apply K; reflexivity].
Defined.

(** ** Logging in *)

Section Login.

Variable toLowerCase : string -> string.
Variable bcrypt_compare : string -> string -> bool.
Variable cfg : Config.

(** [login], run alone, case by case. *)
Lemma login_run (credentials : LoginCredentials) (ua ip : option string)
    (w : World) :
  run (login toLowerCase bcrypt_compare cfg credentials ua ip) w =
  if hd false (faults w) then (Err storeFault, popFault w)
  else
    match findUserByEmail (toLowerCase (cred_email credentials)) (db w) with
    | None => (Err invalidCredentials, popFault w)
    | Some user =>
        if noPassword user then (Err invalidCredentials, popFault w)
        else if negb (bcrypt_compare (cred_password credentials) (passwordOf user))
        then (Err invalidCredentials, popFault w)
        else if negb (user_isActive user)
        then (Err (newAuthenticationError "Your account has been disabled"),
              popFault w)
        else if negb (user_emailVerified user)
        then (Err (newAuthenticationError
                     "Please verify your email address before signing in"),
              popFault w)
        else
          match run (await (UserUpdateLastLogin (user_id user) (clock w)))
                    (popFault w) with
          | (Ok _, wa) =>
              match run (generateTokenPair cfg (user_id user) (user_email user)
                           (map role_name (user_roles user))
                           (allPermissions user) ua ip) wa with
              | (Ok tokens, wb) => (Ok (user, tokens), wb)
              | (Err e, wb) => (Err e, wb)
              end
          | (Err e, wa) => (Err e, wa)
          end
    end.
Proof.
  unfold login. rewrite run_bind, run_await.
  destruct (hd false (faults w)) eqn:F.
  - rewrite execDb_fails by exact F. reflexivity.
  - rewrite execDb_answers by exact F. simpl applyOp. cbn [fst snd].
    change (popFault (withDb (db w) w)) with (popFault w).
    destruct (findUserByEmail _ (db w)) as [user |]; [| reflexivity].
    destruct (noPassword user); [reflexivity |].
    destruct (negb (bcrypt_compare _ _)); [reflexivity |].
    destruct (negb (user_isActive user)); [reflexivity |].
    destruct (negb (user_emailVerified user)); [reflexivity |].
    unfold newDate. cbn [bind run execEff clock popFault].
    rewrite run_bind.
    destruct (run (await _) (popFault w)) as [[[] | e] wa]; [| reflexivity].
    rewrite run_bind.
    destruct (run (generateTokenPair _ _ _ _ _ _ _) wa) as [[tokens | e] wb];
      reflexivity.
Qed.

End Login.

(** C5.  When the store answers the user lookup, [login] fails with the one
    error [AuthenticationError('Invalid email or password')]
    ([InvalidCredentials]), leaving the store untouched,
    - when no user has the lower-cased e-mail,
    - when the user has no password hash,
    - when the hash does not match the password,
    and in the last two cases whatever the user's [isActive] and
    [emailVerified] flags are.  Conversely, a login that fails with an error of
    the [AccountDisabled] or [EmailNotVerified] kind found the user, a
    password hash, and a matching password. *)
Theorem login_credential_failures_are_identical :
  forall (toLowerCase : string -> string)
         (bcrypt_compare : string -> string -> bool) (cfg : Config)
         (credentials : LoginCredentials) (ua ip : option string) (w : World),
    hd false (faults w) = false ->
    (findUserByEmail (toLowerCase (cred_email credentials)) (db w) = None ->
     run (login toLowerCase bcrypt_compare cfg credentials ua ip) w
       = (Err invalidCredentials, popFault w)) /\
    (forall user,
        findUserByEmail (toLowerCase (cred_email credentials)) (db w) = Some user ->
        noPassword user = true \/
        bcrypt_compare (cred_password credentials) (passwordOf user) = false ->
        run (login toLowerCase bcrypt_compare cfg credentials ua ip) w
          = (Err invalidCredentials, popFault w)) /\
    kindOf invalidCredentials = InvalidCredentials /\
    (forall e w',
        run (login toLowerCase bcrypt_compare cfg credentials ua ip) w = (Err e, w') ->
        kindOf e = AccountDisabled \/ kindOf e = EmailNotVerified ->
        exists user,
          findUserByEmail (toLowerCase (cred_email credentials)) (db w) = Some user /\
          noPassword user = false /\
          bcrypt_compare (cred_password credentials) (passwordOf user) = true).
Proof.
  intros toLowerCase bcrypt_compare cfg credentials ua ip w F.
  split; [| split; [| split]].
  - intros N. rewrite login_run, F, N. reflexivity.
  - intros user U [P | C]; rewrite login_run, F, U.
    + rewrite P. reflexivity.
    + destruct (noPassword user); [reflexivity |]. rewrite C. reflexivity.
  - reflexivity.
  - intros e w'. rewrite login_run, F.
    destruct (findUserByEmail _ (db w)) as [user |] eqn:U.
    2:{ intros H K; inversion H; subst e. destruct K; discriminate. }
    destruct (noPassword user) eqn:P.
    { intros H K; inversion H; subst e. destruct K; discriminate. }
    destruct (bcrypt_compare (cred_password credentials) (passwordOf user)) eqn:C;
      cbn [negb].
    2:{ intros H K; inversion H; subst e. destruct K; discriminate. }
    intros _ _. exists user. repeat split; first [assumption | reflexivity].
Qed.

(** In the sample world: an unknown address, an account without a password
    hash, and a wrong password against the disabled, unverified account. *)
Lemma login_credential_failures_are_identical_witness :
  run (login Sample.toLowerCase Sample.compare Sample.cfg
         (mkLoginCredentials "Nobody@Example.com" "correct horse") None None)
      Sample.world = (Err invalidCredentials, popFault Sample.world) /\
  run (login Sample.toLowerCase Sample.compare Sample.cfg
         (mkLoginCredentials "Carol@Example.com" "correct horse") None None)
      Sample.world = (Err invalidCredentials, popFault Sample.world) /\
  run (login Sample.toLowerCase Sample.compare Sample.cfg
         (mkLoginCredentials "Bob@Example.com" "correct horse") None None)
      Sample.world = (Err invalidCredentials, popFault Sample.world).
Proof.
  split; [| split].
  - exact (proj1 (login_credential_failures_are_identical
        Sample.toLowerCase Sample.compare Sample.cfg
                    (mkLoginCredentials "Nobody@Example.com" "correct horse")
                    None None Sample.world eq_refl) eq_refl).
  - exact (proj1 (proj2 (login_credential_failures_are_identical
        Sample.toLowerCase Sample.compare
                           Sample.cfg
                           (mkLoginCredentials "Carol@Example.com" "correct horse")
                           None None Sample.world eq_refl))
                 Sample.carol eq_refl (or_introl eq_refl)).
  - exact (proj1 (proj2 (login_credential_failures_are_identical
        Sample.toLowerCase Sample.compare
                           Sample.cfg
                           (mkLoginCredentials "Bob@Example.com" "correct horse")
                           None None Sample.world eq_refl))
                 Sample.bob eq_refl (or_intror eq_refl)).
Defined.

(** ** Where the effective permissions are computed *)



Lemma hasPermission_admits (required : list string) (u : User) (w : World) :
  fst (run (hasPermission required (Some u)) w) = Ok (NextOk tt) <->
  exists p, In p required /\ In p (allPermissions u).
Proof.
  unfold hasPermission. rewrite run_tryCatch.
  destruct (existsb (fun permission =>
                       existsb (String.eqb permission) (allPermissions u))
                    required) eqn:E; simpl.
  - split; [intros _ | reflexivity].
    apply existsb_exists in E. destruct E as [p [Hp Hin]].
    exists p. split; [exact Hp | now apply existsb_eqb_In].
  - split; [discriminate |]. intros [p [Hp Hin]].
    assert (X : existsb (fun permission =>
                           existsb (String.eqb permission) (allPermissions u))
                        required = true).
    { apply existsb_exists. exists p. split; [exact Hp | now apply existsb_eqb_In]. }
    congruence.
Qed.

(** [refreshTokens] returns the pair minted for the owner when nothing
    stands in its way. *)
Lemma refreshTokens_succeeds (cfg : Config) (t : Token) (w : World)
    (c : Claims) (row : RefreshToken) (owner : User) :
  verifyRefreshToken cfg (clock w) t = Ok c ->
  hd false (faults w) = false ->
  findRefreshToken t (db w) = Some row ->
  findUserById (rt_userId row) (db w) = Some owner ->
  rt_isRevoked row = false ->
  (rt_expiresAt row <? clock w) = false ->
  user_isActive owner = true ->
  hd false (tl (faults w)) = false ->
  findRefreshToken (generateRefreshToken cfg (clock w) (payloadOf owner)) (db w)
    = None ->
  fst (run (refreshTokens cfg t) w)
    = Ok (mkJWTTokens (generateAccessToken cfg (clock w) (payloadOf owner))
                      (generateRefreshToken cfg (clock w) (payloadOf owner))).
Proof.
  intros V F Hrow Howner R X A F1 N.
  rewrite refreshTokens_run, V, F, Hrow, Howner, R, X, A. cbn [negb].
  rewrite generateTokenPair_run. cbv zeta. cbn [popFault faults db clock].
  rewrite F1. fold (payloadOf owner). rewrite N. reflexivity.
Qed.





(** ** The blacklist *)

Lemma isTokenBlacklisted_run (t : Token) (w : World) :
  run (isTokenBlacklisted t) w =
  if hd false (faults w)
  then (Ok false, log "Failed to check token blacklist:" (popFault w))
  else match findBlacklistedToken t (db w) with
       | None => (Ok false, popFault w)
       | Some entry => (Ok (clock w <? bl_expiresAt entry), popFault w)
       end.
Proof.
  unfold isTokenBlacklisted. rewrite run_tryCatch, run_bind, run_await.
  destruct (hd false (faults w)) eqn:F.
  - rewrite execDb_fails by exact F. reflexivity.
  - rewrite execDb_answers by exact F. simpl applyOp. cbn [fst snd].
    change (popFault (withDb (db w) w)) with (popFault w).
    destruct (findBlacklistedToken t (db w)); reflexivity.
Qed.

Lemma authenticate_run (cfg : Config) (t : Token) (w : World) :
  Token_falsy t = false ->
  run (authenticate cfg (Some (Bearer t))) w =
  match run (isTokenBlacklisted t) w with
  | (Ok true, w1) =>
      (Ok (NextError (newAuthenticationError "Token is invalid")),
       log "Authentication failed:" w1)
  | (Ok false, w1) => verifyAndLoad cfg t w1
  | (Err e, w1) => (Ok (NextError e), log "Authentication failed:" w1)
  end.
Proof.
  intros T. unfold authenticate. rewrite T, run_tryCatch, run_bind.
  destruct (run (isTokenBlacklisted t) w) as [[[|] | e] w1]; try reflexivity.
  unfold verifyAndLoad, newDate. cbn [bind run execEff].
  rewrite run_bind, run_ofRes.
  destruct (verifyAccessToken cfg (clock w1) t) as [decoded | e]; [| reflexivity].
  rewrite run_bind, run_await.
  destruct (hd false (faults w1)) eqn:F.
  - rewrite execDb_fails by exact F. reflexivity.
  - rewrite execDb_answers by exact F. simpl applyOp. cbn [fst snd].
    change (popFault (withDb (db w1) w1)) with (popFault w1).
    destruct (findUserById _ (db w1)) as [user |]; [| reflexivity].
    destruct (negb (user_isActive user)); reflexivity.
Qed.

(** The outcome of the steps after the blacklist check depends on the clock,
    the user table and the fault schedule only. *)
Lemma verifyAndLoad_outcome (cfg : Config) (t : Token) (w w' : World) :
  clock w = clock w' ->
  userTable (db w) = userTable (db w') ->
  faults w = faults w' ->
  fst (verifyAndLoad cfg t w) = fst (verifyAndLoad cfg t w').
Proof.
  intros C U F. unfold verifyAndLoad, findUserById. rewrite C, U, F.
  destruct (verifyAccessToken cfg (clock w') t) as [decoded | e]; [| reflexivity].
  destruct (hd false (faults w')); [reflexivity |].
  destruct (find _ (userTable (db w'))) as [user |]; [| reflexivity].
  destruct (negb (user_isActive user)); reflexivity.
Qed.

(** C10.  When the blacklist lookup throws, [isTokenBlacklisted] logs the
    failure and returns [false], whatever the blacklist holds.  So
    [authenticate] goes on to verify the token: a token that verifies, whose
    user exists and is active, is admitted even if it is on the blacklist;
    and for every request, the outcome under a failing blacklist lookup is
    the outcome the same request has against an empty blacklist, so the
    failure of the lookup alone rejects nothing. *)
Theorem blacklist_check_fails_open :
  forall (cfg : Config) (t : Token) (w : World),
    hd false (faults w) = true ->
    run (isTokenBlacklisted t) w
      = (Ok false, log "Failed to check token blacklist:" (popFault w)) /\
    (forall decoded user,
        Token_falsy t = false ->
        verifyAccessToken cfg (clock w) t = Ok decoded ->
        hd false (tl (faults w)) = false ->
        findUserById (userId (payload decoded)) (db w) = Some user ->
        user_isActive user = true ->
        fst (run (authenticate cfg (Some (Bearer t))) w) = Ok (NextOk user)) /\
    (forall header,
        fst (run (authenticate cfg header) w)
          = fst (run (authenticate cfg header) (withoutBlacklist w))).
Proof.
  intros cfg t w F. split; [| split].
  - rewrite isTokenBlacklisted_run, F. reflexivity.
  - intros decoded user T V F' U A.
    rewrite authenticate_run by exact T.
    rewrite isTokenBlacklisted_run, F.
    unfold verifyAndLoad. cbn [clock db faults log popFault].
    rewrite V, F', U, A. reflexivity.
  - intros [[t' | other] |]; try reflexivity.
    destruct (Token_falsy t') eqn:T.
    + unfold authenticate. rewrite T. reflexivity.
    + rewrite !authenticate_run by exact T.
      rewrite !isTokenBlacklisted_run, F. cbn [withoutBlacklist faults hd].
      cbn [findBlacklistedToken db withBlacklistedTokens blacklistedTokenTable find].
      apply verifyAndLoad_outcome; reflexivity.
Qed.

(** Alice's access token is on the blacklist and still within its lifetime:
    the request is refused when the store answers the blacklist lookup, and
    admitted when that lookup fails. *)
Lemma blacklist_check_fails_open_witness :
  fst (run (authenticate Sample.cfg (Some (Bearer Sample.aliceAccess)))
           (Sample.blacklistedWorld []))
    = Ok (NextError (newAuthenticationError "Token is invalid")) /\
  fst (run (authenticate Sample.cfg (Some (Bearer Sample.aliceAccess)))
           (Sample.blacklistedWorld [true]))
    = Ok (NextOk Sample.alice).
Proof.
  split.
  - vm_compute. reflexivity.
  - refine (proj1 (proj2 (blacklist_check_fails_open Sample.cfg Sample.aliceAccess
                            (Sample.blacklistedWorld [true]) eq_refl))
                  (mkClaims Sample.alicePayload "access" 1000 (Some 1900)
                            (Some issuer) (Some audience))
                  Sample.alice _ _ _ _ _);
      vm_compute; reflexivity.
Defined.

(** ** Two refreshes of one token in flight *)

(** C2, as the claim states it, fails.  Two [refreshTokens] calls on Alice's
    token are interleaved at their [await]s: both look the row up before
    either revokes it, and they mint their new tokens in different seconds.
    Both calls return a pair; the store ends with Alice's old row revoked and
    two new, unrevoked rows. *)
Lemma concurrent_refresh_both_succeed :
  exists first second w',
    interleave [RunFirst; RunSecond; Tick 1000; RunFirst; Tick 1000; RunSecond;
                RunFirst; RunSecond]
               (refreshTokens Sample.cfg Sample.aliceRefresh)
               (refreshTokens Sample.cfg Sample.aliceRefresh)
               Sample.world
      = (Ret first, Ret second, w') /\
    refreshToken first = generateRefreshToken Sample.cfg 2001000 Sample.alicePayload /\
    refreshToken second = generateRefreshToken Sample.cfg 2002000 Sample.alicePayload /\
    option_map rt_isRevoked (findRefreshToken Sample.aliceRefresh (db w')) = Some true /\
    option_map rt_isRevoked (findRefreshToken (refreshToken first) (db w')) = Some false /\
    option_map rt_isRevoked (findRefreshToken (refreshToken second) (db w')) = Some false /\
    logs w' = [].
Proof.
  do 3 eexists. repeat split; vm_compute; reflexivity.
Qed.

Lemma settled_Ok {A} (p : Prog A) (a : A) : settled p = Some (Ok a) -> p = Ret a.
Proof. destruct p; simpl; intros H; inversion H; reflexivity. Qed.

(** The first step of a [refreshTokens] on a token whose row is revoked
    already settles the call. *)
Lemma resume_refreshTokens_revoked (cfg : Config) (t : Token) (w : World)
    (row : RefreshToken) (owner : User) :
  findRefreshToken t (db w) = Some row ->
  rt_isRevoked row = true ->
  findUserById (rt_userId row) (db w) = Some owner ->
  hd false (faults w) = false ->
  exists e w',
    resume (refreshTokens cfg t) w = (Throw e, w') /\ kindOf e = InvalidToken.
Proof.
  intros Hrow Hrev Howner F.
  unfold refreshTokens, newDate. cbn [bind resume execEff isAwait].
  destruct (verifyRefreshToken cfg (clock w) t) as [c | e] eqn:V.
  - cbn [ofRes bind await resume execEff isAwait].
    rewrite execDb_answers by exact F. simpl applyOp.
    rewrite Hrow, Howner. cbn [fst snd bind]. rewrite Hrev.
    eexists; eexists; split; reflexivity.
  - cbn [ofRes bind resume]. exists e, w. split; [reflexivity |].
    eapply verifyRefreshToken_error_kind; eauto.
Qed.

(** C2, as the code has it.  The code does not serialize the steps of a
    refresh; what it guarantees is the serial case.  With a store that
    answers every call: when a [refreshTokens(t)] has run its three store
    calls and returned a pair before a second [refreshTokens(t)] makes its
    first step, any time later, that second call is refused at its row
    lookup with an error of the [InvalidToken] kind, so at most one of the
    two succeeds. *)
Theorem refresh_after_completed_refresh_is_refused :
  forall (cfg : Config) (t : Token) (w w' : World) (ms : Z)
         (p q : Prog JWTTokens) (first : JWTTokens),
    faults w = [] ->
    interleave [RunFirst; RunFirst; RunFirst; Tick ms; RunSecond]
               (refreshTokens cfg t) (refreshTokens cfg t) w = (p, q, w') ->
    settled p = Some (Ok first) ->
    exists e, q = Throw e /\ kindOf e = InvalidToken.
Proof.
  intros cfg t w w' ms p q first F I S.
  cbn [interleave] in I.
  destruct (resume (refreshTokens cfg t) w) as [p1 w1] eqn:R1.
  destruct (resume p1 w1) as [p2 w2] eqn:R2.
  destruct (resume p2 w2) as [p3 w3] eqn:R3.
  destruct (resume (refreshTokens cfg t) (advance ms w3)) as [q1 w4] eqn:R4.
  inversion I; subst p q w'. clear I.
  apply settled_Ok in S. subst p3.
  assert (Hrun : run (refreshTokens cfg t) w = (Ok first, w3)).
  { rewrite run_resume, R1. cbn [fst snd].
    rewrite run_resume, R2. cbn [fst snd].
    rewrite run_resume, R3. reflexivity. }
  assert (F2 : nth 2 (faults w) false = false) by (rewrite F; reflexivity).
  destruct (refreshTokens_ok_revoked cfg t w w3 first Hrun F2)
    as [row [owner [Hrow [Hrev [Howner Hfaults]]]]].
  destruct (resume_refreshTokens_revoked cfg t (advance ms w3) row owner)
    as [e [w5 [R K]]]; try assumption.
  - cbn [advance faults]. rewrite Hfaults, F. reflexivity.
  - rewrite R in R4. inversion R4. exists e. split; [reflexivity | exact K].
Qed.

(** The two calls on Alice's token, one after the other. *)
Lemma refresh_after_completed_refresh_is_refused_witness :
  exists e,
    snd (fst (interleave [RunFirst; RunFirst; RunFirst; Tick 1000; RunSecond]
                (refreshTokens Sample.cfg Sample.aliceRefresh)
                (refreshTokens Sample.cfg Sample.aliceRefresh)
                Sample.world)) = Throw e /\
    kindOf e = InvalidToken.
Proof.
  exact (refresh_after_completed_refresh_is_refused
           Sample.cfg Sample.aliceRefresh Sample.world
           (snd (interleave [RunFirst; RunFirst; RunFirst; Tick 1000; RunSecond]
                   (refreshTokens Sample.cfg Sample.aliceRefresh)
                   (refreshTokens Sample.cfg Sample.aliceRefresh)
                   Sample.world))
           1000
           (fst (fst (interleave [RunFirst; RunFirst; RunFirst; Tick 1000; RunSecond]
                        (refreshTokens Sample.cfg Sample.aliceRefresh)
                        (refreshTokens Sample.cfg Sample.aliceRefresh)
                        Sample.world)))
           (snd (fst (interleave [RunFirst; RunFirst; RunFirst; Tick 1000; RunSecond]
                        (refreshTokens Sample.cfg Sample.aliceRefresh)
                        (refreshTokens Sample.cfg Sample.aliceRefresh)
                        Sample.world)))
           Sample.rotated eq_refl eq_refl eq_refl).
Defined.

(** The same two calls with every step in one second: the second call mints
    the very token the first one stored, its insert violates the unique key,
    and it fails with the store's error, not with an [InvalidToken] one. *)
Lemma concurrent_refresh_same_second :
  exists first w',
    interleave [RunFirst; RunSecond; RunFirst; RunSecond; RunFirst; RunSecond]
               (refreshTokens Sample.cfg Sample.aliceRefresh)
               (refreshTokens Sample.cfg Sample.aliceRefresh)
               Sample.world
      = (Ret first, Throw (prismaKnownError "P2002"), w') /\
    kindOf (prismaKnownError "P2002") = OtherFailure.
Proof.
  do 2 eexists. split; vm_compute; reflexivity.
Qed.

(* ------------------------------------------------------------------ *)
(** * Further properties of the token service *)

(** ** Minting and verifying *)

(** A minted token against its own verifier, at any clock. *)
Lemma minted_token_verifies_window (cfg : Config) (minted now : Z) (p : Payload) :
  verifyAccessToken cfg now (generateAccessToken cfg minted p)
    = (if now / 1000 <? minted / 1000 + accessExpiresIn cfg
       then Ok (mintedClaims minted p "access" (accessExpiresIn cfg))
       else Err (newAuthenticationError "Invalid access token")) /\
  verifyRefreshToken cfg now (generateRefreshToken cfg minted p)
    = (if now / 1000 <? minted / 1000 + refreshExpiresIn cfg
       then Ok (mintedClaims minted p "refresh" (refreshExpiresIn cfg))
       else Err (newAuthenticationError "Invalid refresh token")).
Proof.
  split.
  - unfold verifyAccessToken, generateAccessToken, jwt_sign, jwt_verify.
    rewrite String.eqb_refl. cbn [negb exp].
    rewrite Z.leb_antisym.
    destruct (now / 1000 <? minted / 1000 + accessExpiresIn cfg); reflexivity.
  - unfold verifyRefreshToken, generateRefreshToken, jwt_sign, jwt_verify.
    rewrite String.eqb_refl. cbn [negb exp].
    rewrite Z.leb_antisym.
    destruct (now / 1000 <? minted / 1000 + refreshExpiresIn cfg); reflexivity.
Qed.


(** X2.  What a verifier accepts.  [verifyAccessToken] returns a claim set
    exactly for a token that carries that claim set under a signature made
    with the access secret, with [type = 'access'], the fixed audience and
    issuer, and an [exp] (if it has one) after the second of the clock; in
    particular a token signed with any other key is never accepted, and a
    token without [exp] never expires.  Likewise [verifyRefreshToken] with
    the refresh secret and [type = 'refresh']. *)
Theorem verifiers_accept_exactly_their_own_tokens :
  forall (cfg : Config) (now : Z) (t : Token) (c : Claims),
    (verifyAccessToken cfg now t = Ok c <->
     t = Signed (accessSecret cfg) c /\ type c = "access" /\
     aud c = Some audience /\ iss c = Some issuer /\
     (forall e, exp c = Some e -> now / 1000 < e)) /\
    (verifyRefreshToken cfg now t = Ok c <->
     t = Signed (refreshSecret cfg) c /\ type c = "refresh" /\
     aud c = Some audience /\ iss c = Some issuer /\
     (forall e, exp c = Some e -> now / 1000 < e)).
Proof.
  intros cfg now t c.
  assert (accepted : forall secret,
             t = Signed secret c -> aud c = Some audience -> iss c = Some issuer ->
             (forall e, exp c = Some e -> now / 1000 < e) ->
             jwt_verify now t secret = Ok c).
  { intros secret -> A I E. unfold jwt_verify.
    rewrite String.eqb_refl, A, I. cbn [negb option_eqb].
    unfold audience, issuer. rewrite !String.eqb_refl. cbn [negb].
    destruct (exp c) as [e |]; [| reflexivity].
    specialize (E e eq_refl). apply Z.leb_gt in E. rewrite E. reflexivity. }
  split; split.
  - intros H. unfold verifyAccessToken in H.
    destruct (jwt_verify now t (accessSecret cfg)) as [d | e0] eqn:V; [| discriminate].
    destruct (type d =? "access")%string eqn:T; simpl in H; [| discriminate].
    inversion H; subst d. apply jwt_verify_ok in V. apply String.eqb_eq in T. tauto.
  - intros [Ht [Ty [A [I E]]]]. unfold verifyAccessToken.
    rewrite (accepted _ Ht A I E), Ty. reflexivity.
  - intros H. unfold verifyRefreshToken in H.
    destruct (jwt_verify now t (refreshSecret cfg)) as [d | e0] eqn:V; [| discriminate].
    destruct (type d =? "refresh")%string eqn:T; simpl in H; [| discriminate].
    inversion H; subst d. apply jwt_verify_ok in V. apply String.eqb_eq in T. tauto.
  - intros [Ht [Ty [A [I E]]]]. unfold verifyRefreshToken.
    rewrite (accepted _ Ht A I E), Ty. reflexivity.
Qed.

(** ** Issuing and redeeming *)

Lemma Token_eqb_refl (t : Token) : Token_eqb t t = true.
Proof. now apply Token_eqb_eq. Qed.

Lemma find_app_None {A} (p : A -> bool) (l l' : list A) :
  find p l = None -> find p (l ++ l') = find p l'.
Proof.
  induction l as [| a l IH]; simpl; [reflexivity |].
  destruct (p a); [discriminate | exact IH].
Qed.

Lemma findRefreshToken_found (t : Token) (d : Database) (r : RefreshToken) :
  findRefreshToken t d = Some r -> rt_token r = t /\ In r (refreshTokenTable d).
Proof.
  unfold findRefreshToken. intros H. apply find_some in H.
  destruct H as [Hin E]. apply Token_eqb_eq in E. auto.
Qed.

Lemma findUserById_found (i : string) (d : Database) (u : User) :
  findUserById i d = Some u -> user_id u = i /\ In u (userTable d).
Proof.
  unfold findUserById. intros H. apply find_some in H.
  destruct H as [Hin E]. apply String.eqb_eq in E. auto.
Qed.

(** What a successful [generateTokenPair] leaves in the store. *)
Lemma generateTokenPair_stored :
  forall (cfg : Config) (uid mail : string) (rs ps : list string)
         (ua ip : option string) (w w' : World) (tokens : JWTTokens),
    run (generateTokenPair cfg uid mail rs ps ua ip) w = (Ok tokens, w') ->
    findRefreshToken (refreshToken tokens) (db w) = None /\
    findRefreshToken (refreshToken tokens) (db w')
      = Some (mkRefreshToken (refreshToken tokens) uid
                ((clock w / 1000 + refreshExpiresIn cfg) * 1000) false
                (orNull ua) (orNull ip)) /\
    (forall t r, findRefreshToken t (db w) = Some r ->
                 findRefreshToken t (db w') = Some r) /\
    userTable (db w') = userTable (db w) /\
    blacklistedTokenTable (db w') = blacklistedTokenTable (db w) /\
    logs w' = logs w.
Proof.
  intros cfg uid mail rs ps ua ip w w' tokens H.
  apply generateTokenPair_ok in H. destruct H as [-> [N ->]].
  cbn [refreshToken] in *. repeat split.
  - exact N.
  - unfold findRefreshToken in *. cbn [db popFault withDb withRefreshTokens
                                         refreshTokenTable].
    rewrite find_app_None by exact N. unfold mintedRow. cbn [find rt_token].
    rewrite Token_eqb_refl. reflexivity.
  - intros t r Hr. unfold findRefreshToken in *.
    cbn [db popFault withDb withRefreshTokens refreshTokenTable].
    now apply find_app_Some.
Qed.

(** X3.  Insert and lookup.  When [generateTokenPair] returns a pair, the
    refresh token of the pair was not in the store before and is in it
    afterwards, on a row that is not revoked, belongs to the user the pair was
    issued for, expires at the token's own expiry, and records the client's
    user agent and address (an empty string is recorded as null).  Every row
    that was in the store is still found unchanged; users, blacklist and
    error log are untouched. *)
Theorem generateTokenPair_stores_what_it_returns :
  forall (cfg : Config) (uid mail : string) (rs ps : list string)
         (ua ip : option string) (w w' : World) (tokens : JWTTokens),
    run (generateTokenPair cfg uid mail rs ps ua ip) w = (Ok tokens, w') ->
    findRefreshToken (refreshToken tokens) (db w) = None /\
    findRefreshToken (refreshToken tokens) (db w')
      = Some (mkRefreshToken (refreshToken tokens) uid
                ((clock w / 1000 + refreshExpiresIn cfg) * 1000) false
                (orNull ua) (orNull ip)) /\
    (forall t r, findRefreshToken t (db w) = Some r ->
                 findRefreshToken t (db w') = Some r) /\
    userTable (db w') = userTable (db w) /\
    blacklistedTokenTable (db w') = blacklistedTokenTable (db w) /\
    logs w' = logs w.
Proof.
  intros cfg uid mail rs ps ua ip w w' tokens H.
  exact (generateTokenPair_stored cfg uid mail rs ps ua ip w w' tokens H).
Qed.

(** Issuing a pair for Alice in the sample world. *)
Lemma generateTokenPair_stores_what_it_returns_witness :
  findRefreshToken (refreshToken Sample.rotated)
    (db (snd (run (generateTokenPair Sample.cfg "u1" "alice@example.com"
                     ["admin"; "user"]
                     ["users:read"; "users:write"; "reports:view"]
                     (Some EmptyString) (Some "10.0.0.7")) Sample.world)))
    = Some (mkRefreshToken (refreshToken Sample.rotated) "u1" 606800000 false
              None (Some "10.0.0.7")).
Proof.
  exact (proj1 (proj2 (generateTokenPair_stores_what_it_returns
                         Sample.cfg "u1" "alice@example.com" ["admin"; "user"]
                         ["users:read"; "users:write"; "reports:view"]
                         (Some EmptyString) (Some "10.0.0.7") Sample.world
                         (snd (run (generateTokenPair Sample.cfg "u1"
                                      "alice@example.com" ["admin"; "user"]
                                      ["users:read"; "users:write"; "reports:view"]
                                      (Some EmptyString) (Some "10.0.0.7"))
                                   Sample.world))
                         Sample.rotated eq_refl))).
Defined.

(** X4.  Two issues in one second.  [jwt.sign] puts nothing in a token but
    the payload and the clock in whole seconds, so a second
    [generateTokenPair] for the same user, e-mail, roles and permissions
    within the second of a successful one mints the same refresh token; its
    insert violates the unique key on the token column, [storeRefreshToken]
    logs and rethrows, and the call fails with Prisma's P2002, leaving the
    store as it was. *)
Theorem generateTokenPair_twice_in_one_second_fails :
  forall (cfg : Config) (uid mail : string) (rs ps : list string)
         (ua ip ua' ip' : option string) (w w1 w2 : World) (tokens : JWTTokens),
    run (generateTokenPair cfg uid mail rs ps ua ip) w = (Ok tokens, w1) ->
    db w2 = db w1 ->
    clock w2 / 1000 = clock w / 1000 ->
    hd false (faults w2) = false ->
    run (generateTokenPair cfg uid mail rs ps ua' ip') w2
      = (Err (prismaKnownError "P2002"),
         log "Failed to store refresh token:" (popFault w2)).
Proof.
  intros cfg uid mail rs ps ua ip ua' ip' w w1 w2 tokens H D C F.
  pose proof (generateTokenPair_stored _ _ _ _ _ _ _ _ _ _ H)
    as [_ [S _]].
  apply generateTokenPair_ok in H. destruct H as [-> _]. cbn [refreshToken] in S.
  rewrite generateTokenPair_run. cbv zeta. rewrite F.
  assert (E : generateRefreshToken cfg (clock w2) (mkPayload uid mail rs ps)
              = generateRefreshToken cfg (clock w) (mkPayload uid mail rs ps)).
  { unfold generateRefreshToken, jwt_sign. rewrite C. reflexivity. }
  rewrite E, D, S. reflexivity.
Qed.

(** Half a second after a pair was issued for Alice, a second issue fails. *)
Lemma generateTokenPair_twice_in_one_second_fails_witness :
  fst (run (generateTokenPair Sample.cfg "u1" "alice@example.com" ["admin"; "user"]
              ["users:read"; "users:write"; "reports:view"] None None)
           (advance 500
              (snd (run (generateTokenPair Sample.cfg "u1" "alice@example.com"
                           ["admin"; "user"]
                           ["users:read"; "users:write"; "reports:view"]
                           (Some "curl/8") None) Sample.world))))
    = Err (prismaKnownError "P2002").
Proof.
  exact (f_equal fst
           (generateTokenPair_twice_in_one_second_fails
              Sample.cfg "u1" "alice@example.com" ["admin"; "user"]
              ["users:read"; "users:write"; "reports:view"]
              (Some "curl/8") None None None Sample.world
              (snd (run (generateTokenPair Sample.cfg "u1" "alice@example.com"
                           ["admin"; "user"]
                           ["users:read"; "users:write"; "reports:view"]
                           (Some "curl/8") None) Sample.world))
              (advance 500
                 (snd (run (generateTokenPair Sample.cfg "u1" "alice@example.com"
                              ["admin"; "user"]
                              ["users:read"; "users:write"; "reports:view"]
                              (Some "curl/8") None) Sample.world)))
              Sample.rotated eq_refl eq_refl eq_refl eq_refl)).
Defined.

Lemma findUserById_same_users (i : string) (d d' : Database) :
  userTable d' = userTable d -> findUserById i d' = findUserById i d.
Proof. unfold findUserById. now intros ->. Qed.

Lemma second_before_is_before (a q : Z) : a / 1000 < q -> a < q * 1000.
Proof.
  intros H. destruct (Z_lt_le_dec a (q * 1000)) as [L | L]; [exact L |].
  assert (q <= a / 1000) by (apply Z.div_le_lower_bound; lia). lia.
Qed.



Lemma findRefreshToken_markRevoked_other (t t' : Token) (d : Database)
    (r : RefreshToken) :
  findRefreshToken t' d = Some r ->
  t' <> t ->
  findRefreshToken t' (markRevoked t d) = Some r.
Proof.
  intros H Ne. pose proof (findRefreshToken_found _ _ _ H) as [Tok _].
  unfold findRefreshToken, markRevoked in *. simpl.
  rewrite find_map_preserving.
  - rewrite H. simpl.
    destruct (Token_eqb (rt_token r) t) eqn:E; [| reflexivity].
    apply Token_eqb_eq in E. congruence.
  - intros a. destruct (Token_eqb (rt_token a) t); reflexivity.
Qed.

(** X6.  What a successful refresh issues.  The new pair is minted at the
    clock of the call for the owner as the store has the owner now: id,
    e-mail, role names and effective permissions are read from the owner's
    row, none of them from the claims of the redeemed token.  The new refresh
    token differs from the redeemed one and is stored on a row that is not
    revoked, belongs to the owner and carries the user agent and address of
    the redeemed row (whether or not the update revoking the old row went
    through). *)
Theorem refreshTokens_issues_for_current_owner_and_keeps_metadata :
  forall (cfg : Config) (t : Token) (w w1 : World) (tokens : JWTTokens)
         (row : RefreshToken) (owner : User),
    run (refreshTokens cfg t) w = (Ok tokens, w1) ->
    findRefreshToken t (db w) = Some row ->
    findUserById (rt_userId row) (db w) = Some owner ->
    tokens = mkJWTTokens (generateAccessToken cfg (clock w) (payloadOf owner))
                         (generateRefreshToken cfg (clock w) (payloadOf owner)) /\
    refreshToken tokens <> t /\
    findRefreshToken (refreshToken tokens) (db w1)
      = Some (mkRefreshToken (refreshToken tokens) (user_id owner)
                ((clock w / 1000 + refreshExpiresIn cfg) * 1000) false
                (orNull (rt_userAgent row)) (orNull (rt_ipAddress row))).
Proof.
  intros cfg t w w1 tokens row owner H Hrow Howner.
  apply refreshTokens_ok in H.
  destruct H as [row' [owner' [wi [Hrow' [Howner' [_ [_ [G ->]]]]]]]].
  rewrite Hrow in Hrow'. inversion Hrow'; subst row'.
  rewrite Howner in Howner'. inversion Howner'; subst owner'.
  pose proof (generateTokenPair_stored _ _ _ _ _ _ _ _ _ _ G)
    as [N [S _]].
  pose proof (generateTokenPair_ok _ _ _ _ _ _ _ _ _ _ G) as [E _].
  cbn [popFault clock db] in *.
  assert (Ne : refreshToken tokens <> t).
  { intros X. rewrite X in N. congruence. }
  split; [exact E | split; [exact Ne |]].
  rewrite revokeRefreshToken_run.
  destruct (hd false (faults wi)); [exact S |].
  destruct (findRefreshToken t (db wi)); [| exact S].
  cbn [snd db popFault withDb].
  now apply findRefreshToken_markRevoked_other.
Qed.

(** Alice's refresh in the sample world: the new row keeps her user agent. *)
Lemma refreshTokens_issues_for_current_owner_and_keeps_metadata_witness :
  findRefreshToken (refreshToken Sample.rotated)
    (db (snd (run (refreshTokens Sample.cfg Sample.aliceRefresh) Sample.world)))
    = Some (mkRefreshToken (refreshToken Sample.rotated) "u1" 606800000 false
              (Some "curl/8") None).
Proof.
  exact (proj2 (proj2 (refreshTokens_issues_for_current_owner_and_keeps_metadata
                         Sample.cfg Sample.aliceRefresh Sample.world
                         (snd (run (refreshTokens Sample.cfg Sample.aliceRefresh)
                                   Sample.world))
                         Sample.rotated Sample.aliceRow Sample.alice
                         eq_refl eq_refl eq_refl))).
Defined.

(** ** Revoking, blacklisting, logging out *)

Lemma markRevoked_idempotent (t : Token) (d : Database) :
  markRevoked t (markRevoked t d) = markRevoked t d.
Proof.
  unfold markRevoked, withRefreshTokens. cbn [userTable refreshTokenTable
                                               blacklistedTokenTable].
  f_equal. rewrite map_map. apply map_ext. intros r.
  destruct (Token_eqb (rt_token r) t) eqn:E.
  - cbn [revokeRow rt_token]. rewrite E. reflexivity.
  - rewrite E. reflexivity.
Qed.

Lemma revokeRefreshToken_returns (t : Token) (w : World) :
  fst (run (revokeRefreshToken t) w) = Ok tt /\
  userTable (db (snd (run (revokeRefreshToken t) w))) = userTable (db w).
Proof.
  rewrite revokeRefreshToken_run.
  destruct (hd false (faults w)); [split; reflexivity |].
  destruct (findRefreshToken t (db w)); split; reflexivity.
Qed.

(** X7.  [revokeRefreshToken] never throws, whatever the store does; it
    touches no row but the one of its token, and neither users nor the
    blacklist; and once the store has performed it, repeating it against the
    resulting store changes nothing. *)
Theorem revokeRefreshToken_never_throws_and_is_idempotent :
  forall (t : Token) (w : World),
    fst (run (revokeRefreshToken t) w) = Ok tt /\
    userTable (db (snd (run (revokeRefreshToken t) w))) = userTable (db w) /\
    blacklistedTokenTable (db (snd (run (revokeRefreshToken t) w)))
      = blacklistedTokenTable (db w) /\
    (forall t' r, t' <> t -> findRefreshToken t' (db w) = Some r ->
       findRefreshToken t' (db (snd (run (revokeRefreshToken t) w))) = Some r) /\
    (forall w2, hd false (faults w) = false ->
       db w2 = db (snd (run (revokeRefreshToken t) w)) ->
       db (snd (run (revokeRefreshToken t) w2)) = db w2).
Proof.
  intros t w. rewrite revokeRefreshToken_run.
  destruct (hd false (faults w)) eqn:F.
  - repeat split; try reflexivity.
    + intros t' r _ H. exact H.
    + discriminate.
  - destruct (findRefreshToken t (db w)) as [row |] eqn:Hrow.
    + repeat split; try reflexivity.
      * intros t' r Ne H. cbn [snd db popFault withDb].
        now apply findRefreshToken_markRevoked_other.
      * intros w2 _ D. cbn [snd db popFault withDb] in D.
        rewrite revokeRefreshToken_run.
        destruct (hd false (faults w2)); [reflexivity |].
        destruct (findRefreshToken t (db w2)); [| reflexivity].
        cbn [snd db popFault withDb]. rewrite D. apply markRevoked_idempotent.
    + repeat split; try reflexivity.
      * intros t' r _ H. exact H.
      * intros w2 _ D. cbn [snd db popFault log] in D.
        rewrite revokeRefreshToken_run.
        destruct (hd false (faults w2)); [reflexivity |].
        replace (findRefreshToken t (db w2)) with (@None RefreshToken)
          by (rewrite D; symmetry; exact Hrow).
        reflexivity.
Qed.

Lemma blacklistAccessToken_run (t : Token) (w : World) :
  run (blacklistAccessToken t) w =
  match usableExp t with
  | None => (Ok tt, w)
  | Some e =>
      if hd false (faults w)
      then (Ok tt, log "Failed to blacklist access token:" (popFault w))
      else
        match newDateOf (e * 1000), findBlacklistedToken t (db w) with
        | Some expiresAt, None =>
            (Ok tt,
             popFault
               (withDb
                  (withBlacklistedTokens
                     (blacklistedTokenTable (db w) ++
                      [mkBlacklistedToken t expiresAt]) (db w)) w))
        | _, _ => (Ok tt, log "Failed to blacklist access token:" (popFault w))
        end
  end.
Proof.
  unfold blacklistAccessToken, usableExp. rewrite run_tryCatch.
  destruct (jwt_decode t) as [decoded |]; [| reflexivity].
  destruct (exp decoded) as [e |]; [| reflexivity].
  destruct (e =? 0); [reflexivity |].
  rewrite run_await.
  destruct (hd false (faults w)) eqn:F.
  - rewrite execDb_fails by exact F. reflexivity.
  - rewrite execDb_answers by exact F. simpl applyOp.
    destruct (newDateOf (e * 1000)); [| reflexivity].
    destruct (findBlacklistedToken t (db w)); reflexivity.
Qed.

Lemma newDateOf_in_range (value : Z) :
  Z.abs value <= maxTimeValue -> newDateOf value = Some value.
Proof.
  intros H. unfold newDateOf. apply Z.leb_le in H. rewrite H. reflexivity.
Qed.

Lemma logout_run (access refresh : Token) (w : World) :
  run (logout access refresh) w
    = run (revokeRefreshToken refresh) (snd (run (blacklistAccessToken access) w)).
Proof.
  unfold logout. rewrite run_bind.
  rewrite (blacklistAccessToken_run access w).
  destruct (usableExp access) as [e |]; [| reflexivity].
  destruct (hd false (faults w)); [reflexivity |].
  destruct (newDateOf (e * 1000)); [| reflexivity].
  destruct (findBlacklistedToken access (db w)); reflexivity.
Qed.

(** X8.  [logout] never throws: whatever the two token strings are and
    whichever store calls fail, it returns normally, and it leaves the users
    untouched. *)
Theorem logout_never_throws :
  forall (access refresh : Token) (w : World),
    fst (run (logout access refresh) w) = Ok tt /\
    userTable (db (snd (run (logout access refresh) w))) = userTable (db w).
Proof.
  intros access refresh w. rewrite logout_run.
  destruct (revokeRefreshToken_returns refresh
              (snd (run (blacklistAccessToken access) w))) as [O U].
  split; [exact O |]. rewrite U.
  rewrite blacklistAccessToken_run.
  destruct (usableExp access) as [e |]; [| reflexivity].
  destruct (hd false (faults w)); [reflexivity |].
  destruct (newDateOf (e * 1000)); [| reflexivity].
  destruct (findBlacklistedToken access (db w)); reflexivity.
Qed.

Lemma verifyAccessToken_ok_unexpired (cfg : Config) (now : Z) (t : Token) (c : Claims) :
  verifyAccessToken cfg now t = Ok c ->
  forall e, exp c = Some e -> now / 1000 < e.
Proof.
  unfold verifyAccessToken.
  destruct (jwt_verify now t (accessSecret cfg)) as [d | e0] eqn:V; [| discriminate].
  destruct (negb (type d =? "access")%string); [discriminate |].
  intros H; inversion H; subst d. apply jwt_verify_ok in V. tauto.
Qed.

Lemma usableExp_Some (t : Token) (e : Z) :
  usableExp t = Some e ->
  exists key c, t = Signed key c /\ exp c = Some e /\ e <> 0.
Proof.
  unfold usableExp. destruct t as [raw | key c]; simpl; [discriminate |].
  destruct (exp c) as [x |] eqn:X; [| discriminate].
  destruct (x =? 0) eqn:Z0; [discriminate |].
  intros H; inversion H; subst x. apply Z.eqb_neq in Z0.
  exists key, c. repeat split; assumption || reflexivity.
Qed.

Lemma findBlacklistedToken_appended (t : Token) (at_ : Z) (d : Database) :
  findBlacklistedToken t d = None ->
  findBlacklistedToken t
    (withBlacklistedTokens
       (blacklistedTokenTable d ++ [mkBlacklistedToken t at_]) d)
    = Some (mkBlacklistedToken t at_).
Proof.
  unfold findBlacklistedToken. cbn [withBlacklistedTokens blacklistedTokenTable].
  intros H. rewrite find_app_None by exact H. cbn [find bl_token].
  rewrite Token_eqb_refl. reflexivity.
Qed.

(** What [logout] leaves in the store when the store answers and the access
    token is not listed yet. *)
Lemma logout_store (access refresh : Token) (w : World) (e : Z) :
  faults w = [] ->
  usableExp access = Some e ->
  Z.abs (e * 1000) <= maxTimeValue ->
  findBlacklistedToken access (db w) = None ->
  findBlacklistedToken access (db (snd (run (logout access refresh) w)))
    = Some (mkBlacklistedToken access (e * 1000)) /\
  (forall row, findRefreshToken refresh (db w) = Some row ->
     findRefreshToken refresh (db (snd (run (logout access refresh) w)))
       = Some (revokeRow row)).
Proof.
  intros F U V N. rewrite logout_run, blacklistAccessToken_run, U, F.
  rewrite (newDateOf_in_range _ V), N.
  cbn [hd snd]. rewrite revokeRefreshToken_run.
  cbn [popFault withDb faults db]. rewrite F. cbn [tl hd].
  pose proof (findBlacklistedToken_appended access (e * 1000) (db w) N) as B.
  destruct (findRefreshToken refresh
              (withBlacklistedTokens
                 (blacklistedTokenTable (db w) ++
                  [mkBlacklistedToken access (e * 1000)]) (db w)))
    as [row0 |] eqn:R.
  - cbn [snd db popFault withDb]. split.
    + exact B.
    + intros row Hrow. apply findRefreshToken_markRevoked. exact Hrow.
  - cbn [snd db popFault log]. split.
    + exact B.
    + intros row Hrow. unfold findRefreshToken in *.
      cbn [withBlacklistedTokens refreshTokenTable] in R. congruence.
Qed.

(** X9.  After [logout], with a store that answered both calls and an
    access token that was not listed before and decodes to a usable [exp]
    within the range of [Date] ([exp * 1000] at most 8.64e15 ms away from
    the epoch; beyond it [new Date] is invalid, the insert is refused and
    the refusal swallowed):
    the access token is reported blacklisted at every clock before its
    [exp] and not from then on; [authenticate] never admits it again at any
    clock at which the store answers the blacklist lookup (before [exp] it
    answers ['Token is invalid']); and the row of the refresh token, if there
    was one, is revoked. *)
Theorem logout_invalidates_both_tokens :
  forall (cfg : Config) (access refresh : Token) (w w' : World) (e : Z),
    faults w = [] ->
    usableExp access = Some e ->
    Z.abs (e * 1000) <= maxTimeValue ->
    findBlacklistedToken access (db w) = None ->
    run (logout access refresh) w = (Ok tt, w') ->
    (forall w2, db w2 = db w' -> hd false (faults w2) = false ->
       fst (run (isTokenBlacklisted access) w2) = Ok (clock w2 <? e * 1000)) /\
    (forall w2, db w2 = db w' -> hd false (faults w2) = false ->
       exists err,
         fst (run (authenticate cfg (Some (Bearer access))) w2) = Ok (NextError err) /\
         (clock w2 < e * 1000 -> err = newAuthenticationError "Token is invalid")) /\
    (forall row, findRefreshToken refresh (db w) = Some row ->
       exists row', findRefreshToken refresh (db w') = Some row' /\
                    rt_isRevoked row' = true).
Proof.
  intros cfg access refresh w w' e F U InRange N H.
  destruct (logout_store access refresh w e F U InRange N) as [B R].
  rewrite H in B, R. cbn [snd] in B, R.
  assert (Listed : forall w2, db w2 = db w' -> hd false (faults w2) = false ->
            run (isTokenBlacklisted access) w2
              = (Ok (clock w2 <? e * 1000), popFault w2)).
  { intros w2 D F2. rewrite isTokenBlacklisted_run, F2, D, B. reflexivity. }
  split; [| split].
  - intros w2 D F2. rewrite (Listed w2 D F2). reflexivity.
  - intros w2 D F2.
    destruct (usableExp_Some access e U) as [key [c [-> [Hexp _]]]].
    rewrite authenticate_run by reflexivity. rewrite (Listed w2 D F2).
    destruct (clock w2 <? e * 1000) eqn:Before.
    + eexists. split; [reflexivity | reflexivity].
    + apply Z.ltb_ge in Before. unfold verifyAndLoad. cbn [clock popFault].
      destruct (verifyAccessToken cfg (clock w2) (Signed key c)) as [d | err] eqn:V.
      * exfalso.
        pose proof (verifyAccessToken_ok cfg _ _ _ V) as [E _].
        inversion E; subst d.
        pose proof (verifyAccessToken_ok_unexpired cfg _ _ _ V e Hexp) as Lt.
        apply second_before_is_before in Lt. lia.
      * exists err. split; [reflexivity | lia].
  - intros row Hrow. exists (revokeRow row). split; [now apply R | reflexivity].
Qed.

(** Alice logs out in the sample world, half a second into the session's
    second thousand: her access token is refused while it lasts. *)
Lemma logout_invalidates_both_tokens_witness :
  fst (run (authenticate Sample.cfg (Some (Bearer Sample.aliceAccess)))
           (snd (run (logout Sample.aliceAccess Sample.aliceRefresh)
                     Sample.earlyWorld)))
    = Ok (NextError (newAuthenticationError "Token is invalid")).
Proof.
  destruct (proj1 (proj2 (logout_invalidates_both_tokens
                            Sample.cfg Sample.aliceAccess Sample.aliceRefresh
                            Sample.earlyWorld
                            (snd (run (logout Sample.aliceAccess Sample.aliceRefresh)
                                      Sample.earlyWorld))
                            1900 eq_refl eq_refl ltac:(vm_compute; discriminate)
                            eq_refl eq_refl))
                  (snd (run (logout Sample.aliceAccess Sample.aliceRefresh)
                            Sample.earlyWorld))
                  eq_refl eq_refl) as [err [H K]].
  rewrite H, K; reflexivity.
Defined.

(** X10.  Edge cases of [blacklistAccessToken].  It never throws.  For a
    token that does not decode, has no [exp], or has [exp = 0] it makes no
    store call at all and leaves the world as it was, so such a token is
    never put on the blacklist.  For a token that is already listed the
    insert is refused by the unique key and swallowed: the store keeps the
    entry it had.  Refresh tokens and users are never touched. *)
Theorem blacklistAccessToken_edge_cases :
  forall (t : Token) (w : World),
    fst (run (blacklistAccessToken t) w) = Ok tt /\
    (usableExp t = None -> run (blacklistAccessToken t) w = (Ok tt, w)) /\
    (forall entry, findBlacklistedToken t (db w) = Some entry ->
       db (snd (run (blacklistAccessToken t) w)) = db w) /\
    refreshTokenTable (db (snd (run (blacklistAccessToken t) w)))
      = refreshTokenTable (db w) /\
    userTable (db (snd (run (blacklistAccessToken t) w))) = userTable (db w).
Proof.
  intros t w. rewrite blacklistAccessToken_run.
  destruct (usableExp t) as [e |].
  - destruct (hd false (faults w)).
    + repeat split; try reflexivity. discriminate.
    + destruct (newDateOf (e * 1000)) as [expiresAt |].
      * destruct (findBlacklistedToken t (db w)) as [b |].
        -- repeat split; try reflexivity. discriminate.
        -- repeat split; try reflexivity; discriminate.
      * repeat split; try reflexivity. discriminate.
  - repeat split; reflexivity.
Qed.

(** ** Logging out everywhere *)

Lemma logoutAll_run (uid : string) (cur : option Token) (w : World) :
  run (logoutAll uid cur) w =
  if hd false (faults w) then (Err storeFault, popFault w)
  else (Ok tt,
        popFault
          (withDb (snd (applyOp (RefreshTokenUpdateManyRevoked uid (sparedToken cur))
                                (db w))) w)).
Proof.
  unfold logoutAll. fold (sparedToken cur). rewrite run_await.
  destruct (hd false (faults w)) eqn:F.
  - rewrite execDb_fails by exact F. reflexivity.
  - rewrite execDb_answers by exact F. reflexivity.
Qed.

(** X11.  [logoutAll(userId, current)], when it returns: every stored row
    keeps its key; a row of another user and the row of the spared token are
    unchanged; every other row of the user is revoked; no row that was
    revoked becomes unrevoked; users and blacklist are untouched.  The
    spared token is [current], unless [current] is missing or the empty
    string: then nothing is spared and the store ends as
    [revokeAllUserTokens(userId)] leaves it. *)
Theorem logoutAll_revokes_all_but_current :
  forall (uid : string) (cur : option Token) (w w' : World),
    run (logoutAll uid cur) w = (Ok tt, w') ->
    (forall t row, findRefreshToken t (db w) = Some row ->
       exists row',
         findRefreshToken t (db w') = Some row' /\
         (rt_userId row <> uid -> row' = row) /\
         (sparedToken cur = Some t -> row' = row) /\
         (rt_userId row = uid -> sparedToken cur <> Some t ->
          rt_isRevoked row' = true) /\
         (rt_isRevoked row = true -> rt_isRevoked row' = true)) /\
    userTable (db w') = userTable (db w) /\
    blacklistedTokenTable (db w') = blacklistedTokenTable (db w) /\
    (sparedToken cur = None -> db w' = markAllRevoked uid (db w)).
Proof.
  intros uid cur w w' H. rewrite logoutAll_run in H.
  destruct (hd false (faults w)); [discriminate |].
  inversion H as [W]. clear H W. cbn [db popFault withDb].
  split; [| repeat split].
  - intros t row Hrow.
    pose proof (findRefreshToken_found _ _ _ Hrow) as [Tok _].
    unfold findRefreshToken in *. simpl. rewrite find_map_preserving.
    + rewrite Hrow. cbn [option_map]. eexists. split; [reflexivity |].
      repeat split.
      * intros Ne. apply String.eqb_neq in Ne. rewrite Ne. reflexivity.
      * intros S. rewrite S, Tok, Token_eqb_refl.
        rewrite andb_false_r. reflexivity.
      * intros U S. rewrite U, String.eqb_refl.
        destruct (rt_isRevoked row) eqn:R; cbn [negb andb]; [exact R |].
        destruct (sparedToken cur) as [c |]; [| reflexivity].
        destruct (Token_eqb (rt_token row) c) eqn:E; [| reflexivity].
        apply Token_eqb_eq in E. exfalso. apply S. congruence.
      * intros R.
        match goal with
        | |- context [if ?b then _ else _] => destruct b
        end; [reflexivity | exact R].
    + intros a.
      match goal with
      | |- context [if ?b then _ else _] => destruct b
      end; reflexivity.
  - intros S. rewrite S. reflexivity.
Qed.

(** Alice logs out everywhere from the session whose refresh token is the
    sample one: Bob's row and her current row stay as they were. *)
Lemma logoutAll_revokes_all_but_current_witness :
  findRefreshToken Sample.aliceRefresh
    (db (snd (run (logoutAll "u1" (Some Sample.aliceRefresh)) Sample.world)))
    = Some Sample.aliceRow /\
  findRefreshToken Sample.bobRefresh
    (db (snd (run (logoutAll "u1" (Some Sample.aliceRefresh)) Sample.world)))
    = Some Sample.bobRow.
Proof.
  pose proof (logoutAll_revokes_all_but_current "u1" (Some Sample.aliceRefresh)
                Sample.world
                (snd (run (logoutAll "u1" (Some Sample.aliceRefresh)) Sample.world))
                eq_refl) as [K _].
  split.
  - destruct (K Sample.aliceRefresh Sample.aliceRow eq_refl)
      as [row' [F [_ [S _]]]].
    rewrite F. f_equal. apply S. reflexivity.
  - destruct (K Sample.bobRefresh Sample.bobRow eq_refl) as [row' [F [O _]]].
    rewrite F. f_equal. apply O. discriminate.
Defined.

(** ** The expiry sweep *)

Lemma find_filter_kept {A} (p q : A -> bool) (l : list A) (x : A) :
  find p l = Some x -> q x = true -> find p (filter q l) = Some x.
Proof.
  induction l as [| a l IH]; simpl; [discriminate |].
  destruct (p a) eqn:P.
  - intros H Q. inversion H; subst a. rewrite Q. simpl. rewrite P. reflexivity.
  - intros H Q. destruct (q a); simpl; [rewrite P |]; now apply IH.
Qed.

Lemma find_filter_None {A} (p q : A -> bool) (l : list A) :
  find p l = None -> find p (filter q l) = None.
Proof.
  induction l as [| a l IH]; simpl; [reflexivity |].
  destruct (p a) eqn:P; [discriminate |].
  intros H. destruct (q a); simpl; [rewrite P |]; now apply IH.
Qed.

(** [cleanupExpiredTokens] returns normally; each of the two tables is left
    as it was or without its rows that expired before the clock. *)
Lemma cleanupExpiredTokens_store (w : World) :
  fst (run cleanupExpiredTokens w) = Ok tt /\
  userTable (db (snd (run cleanupExpiredTokens w))) = userTable (db w) /\
  (refreshTokenTable (db (snd (run cleanupExpiredTokens w)))
     = refreshTokenTable (db w) \/
   refreshTokenTable (db (snd (run cleanupExpiredTokens w)))
     = filter (fun r => negb (rt_expiresAt r <? clock w))
              (refreshTokenTable (db w))) /\
  (blacklistedTokenTable (db (snd (run cleanupExpiredTokens w)))
     = blacklistedTokenTable (db w) \/
   blacklistedTokenTable (db (snd (run cleanupExpiredTokens w)))
     = filter (fun b => negb (bl_expiresAt b <? clock w))
              (blacklistedTokenTable (db w))) /\
  (faults w = [] ->
   refreshTokenTable (db (snd (run cleanupExpiredTokens w)))
     = filter (fun r => negb (rt_expiresAt r <? clock w))
              (refreshTokenTable (db w)) /\
   blacklistedTokenTable (db (snd (run cleanupExpiredTokens w)))
     = filter (fun b => negb (bl_expiresAt b <? clock w))
              (blacklistedTokenTable (db w))).
Proof.
  unfold cleanupExpiredTokens, newDate. rewrite run_tryCatch.
  cbn [bind run execEff]. rewrite run_bind, run_await.
  destruct (hd false (faults w)) eqn:F.
  - rewrite execDb_fails by exact F. cbn [run logger_error execEff fst snd db].
    refine (conj eq_refl (conj eq_refl (conj (or_introl eq_refl)
                                          (conj (or_introl eq_refl) _)))).
    intros E; rewrite E in F; discriminate.
  - rewrite execDb_answers by exact F. simpl applyOp. cbn [fst snd].
    rewrite run_await.
    match goal with
    | |- context [execDb ?op ?x] =>
        destruct (hd false (faults x)) eqn:F2;
        [rewrite (execDb_fails op x F2) | rewrite (execDb_answers op x F2)]
    end.
    + cbn [run logger_error execEff fst snd db popFault withDb withRefreshTokens
               userTable refreshTokenTable blacklistedTokenTable].
      refine (conj eq_refl (conj eq_refl (conj (or_intror eq_refl)
                                            (conj (or_introl eq_refl) _)))).
      intros E; cbn [popFault withDb faults] in F2; rewrite E in F2;
        discriminate.
    + simpl applyOp.
      cbn [run fst snd db popFault withDb withRefreshTokens withBlacklistedTokens
               userTable refreshTokenTable blacklistedTokenTable clock].
      refine (conj eq_refl (conj eq_refl (conj (or_intror eq_refl)
                                            (conj (or_intror eq_refl) _)))).
      intros _. split; reflexivity.
Qed.

Lemma cleanupExpiredTokens_keeps_rows (w : World) :
  userTable (db (snd (run cleanupExpiredTokens w))) = userTable (db w) /\
  (forall t r, findRefreshToken t (db w) = Some r -> clock w <= rt_expiresAt r ->
     findRefreshToken t (db (snd (run cleanupExpiredTokens w))) = Some r) /\
  (forall t b, findBlacklistedToken t (db w) = Some b -> clock w <= bl_expiresAt b ->
     findBlacklistedToken t (db (snd (run cleanupExpiredTokens w))) = Some b) /\
  (forall t, findRefreshToken t (db w) = None ->
     findRefreshToken t (db (snd (run cleanupExpiredTokens w))) = None).
Proof.
  destruct (cleanupExpiredTokens_store w) as [_ [U [R [B _]]]].
  split; [exact U |]. split; [| split].
  - intros t r H L. unfold findRefreshToken in *.
    destruct R as [-> | ->]; [exact H |].
    apply find_filter_kept; [exact H |].
    apply negb_true_iff, Z.ltb_ge. exact L.
  - intros t b H L. unfold findBlacklistedToken in *.
    destruct B as [-> | ->]; [exact H |].
    apply find_filter_kept; [exact H |].
    apply negb_true_iff, Z.ltb_ge. exact L.
  - intros t H. unfold findRefreshToken in *.
    destruct R as [-> | ->]; [exact H |]. now apply find_filter_None.
Qed.

(** X12.  The sweep never fails and never removes a live row.
    [cleanupExpiredTokens] returns normally under every fault schedule and
    leaves the users untouched; a refresh-token row or blacklist entry whose
    [expiresAt] is not before the clock is still found afterwards, unchanged;
    no key that was absent appears; and when the store answers both calls,
    every row left in either table has an [expiresAt] that is not before the
    clock. *)
Theorem cleanupExpiredTokens_keeps_live_rows :
  forall (w : World),
    fst (run cleanupExpiredTokens w) = Ok tt /\
    userTable (db (snd (run cleanupExpiredTokens w))) = userTable (db w) /\
    (forall t r, findRefreshToken t (db w) = Some r -> clock w <= rt_expiresAt r ->
       findRefreshToken t (db (snd (run cleanupExpiredTokens w))) = Some r) /\
    (forall t b, findBlacklistedToken t (db w) = Some b -> clock w <= bl_expiresAt b ->
       findBlacklistedToken t (db (snd (run cleanupExpiredTokens w))) = Some b) /\
    (forall t, findRefreshToken t (db w) = None ->
       findRefreshToken t (db (snd (run cleanupExpiredTokens w))) = None) /\
    (faults w = [] ->
     (forall r, In r (refreshTokenTable (db (snd (run cleanupExpiredTokens w)))) ->
        clock w <= rt_expiresAt r) /\
     (forall b, In b (blacklistedTokenTable (db (snd (run cleanupExpiredTokens w)))) ->
        clock w <= bl_expiresAt b)).
Proof.
  intros w.
  destruct (cleanupExpiredTokens_store w) as [O [_ [_ [_ A]]]].
  destruct (cleanupExpiredTokens_keeps_rows w) as [U [Kr [Kb Kn]]].
  split; [exact O | split; [exact U |]].
  split; [exact Kr | split; [exact Kb | split; [exact Kn |]]].
  intros F. destruct (A F) as [-> ->]. split.
  - intros r Hin. apply filter_In in Hin. destruct Hin as [_ Q].
    apply negb_true_iff, Z.ltb_ge in Q. exact Q.
  - intros b Hin. apply filter_In in Hin. destruct Hin as [_ Q].
    apply negb_true_iff, Z.ltb_ge in Q. exact Q.
Qed.

(** Everything a successful [refreshTokens] checked on its way. *)
Lemma refreshTokens_ok_checks (cfg : Config) (t : Token) (w w1 : World)
    (tokens : JWTTokens) :
  run (refreshTokens cfg t) w = (Ok tokens, w1) ->
  exists c row owner,
    verifyRefreshToken cfg (clock w) t = Ok c /\
    hd false (faults w) = false /\
    findRefreshToken t (db w) = Some row /\
    findUserById (rt_userId row) (db w) = Some owner /\
    rt_isRevoked row = false /\
    (rt_expiresAt row <? clock w) = false /\
    user_isActive owner = true /\
    hd false (tl (faults w)) = false /\
    findRefreshToken (generateRefreshToken cfg (clock w) (payloadOf owner)) (db w)
      = None /\
    tokens = mkJWTTokens (generateAccessToken cfg (clock w) (payloadOf owner))
                         (generateRefreshToken cfg (clock w) (payloadOf owner)).
Proof.
  rewrite refreshTokens_run.
  destruct (verifyRefreshToken cfg (clock w) t) as [c | e] eqn:V; [| discriminate].
  destruct (hd false (faults w)) eqn:F; [discriminate |].
  destruct (findRefreshToken t (db w)) as [row |] eqn:Hrow; [| discriminate].
  destruct (findUserById (rt_userId row) (db w)) as [owner |] eqn:Howner;
    [| discriminate].
  destruct (rt_isRevoked row) eqn:R; [discriminate |].
  destruct (rt_expiresAt row <? clock w) eqn:X; [discriminate |].
  destruct (user_isActive owner) eqn:A; cbn [negb]; [| discriminate].
  rewrite generateTokenPair_run. cbv zeta. cbn [popFault faults db clock].
  destruct (hd false (tl (faults w))) eqn:F1; [discriminate |].
  fold (payloadOf owner).
  destruct (findRefreshToken
              (generateRefreshToken cfg (clock w) (payloadOf owner)) (db w)) eqn:N;
    [discriminate |].
  intros H; inversion H.
  exists c, row, owner. repeat split; assumption || reflexivity.
Qed.

(** X13.  The sweep does not end a live session.  If [refreshTokens] on a
    token succeeds against a store, it succeeds with the same pair against
    what [cleanupExpiredTokens] leaves of that store (whichever of the
    sweep's calls failed), when the sweep ran at a clock not after that of
    the refresh. *)
Theorem sweep_keeps_redeemable_tokens_redeemable :
  forall (cfg : Config) (t : Token) (w w1 ws w' : World) (tokens : JWTTokens),
    run (refreshTokens cfg t) w = (Ok tokens, w1) ->
    db ws = db w ->
    clock ws <= clock w ->
    db w' = db (snd (run cleanupExpiredTokens ws)) ->
    clock w' = clock w ->
    faults w' = faults w ->
    fst (run (refreshTokens cfg t) w') = Ok tokens.
Proof.
  intros cfg t w w1 ws w' tokens H Ds Cs D C F.
  destruct (refreshTokens_ok_checks cfg t w w1 tokens H)
    as [c [row [owner [V [F0 [Hrow [Howner [R [X [A [F1 [N ->]]]]]]]]]]]].
  destruct (cleanupExpiredTokens_keeps_rows ws) as [U [Kr [_ Kn]]].
  apply Z.ltb_ge in X.
  rewrite <- C.
  apply refreshTokens_succeeds with (c := c) (row := row).
  - rewrite C. exact V.
  - rewrite F. exact F0.
  - rewrite D. apply Kr; [rewrite Ds; exact Hrow | lia].
  - rewrite <- Howner. apply findUserById_same_users. rewrite D, U, Ds. reflexivity.
  - exact R.
  - apply Z.ltb_ge. lia.
  - exact A.
  - rewrite F. exact F1.
  - rewrite D, C. apply Kn. rewrite Ds. exact N.
Qed.

(** X14.  The sweep takes no token off the blacklist while it is still
    reported.  If [isTokenBlacklisted] answers [true] against a store, it
    answers [true] against what [cleanupExpiredTokens] leaves of it, when the
    sweep ran at a clock not after that of the check; [authenticate] then
    refuses the token as before. *)
Theorem sweep_keeps_blacklisted_tokens_blacklisted :
  forall (cfg : Config) (t : Token) (w ws w' : World),
    fst (run (isTokenBlacklisted t) w) = Ok true ->
    db ws = db w ->
    clock ws <= clock w ->
    db w' = db (snd (run cleanupExpiredTokens ws)) ->
    clock w' = clock w ->
    faults w' = faults w ->
    fst (run (isTokenBlacklisted t) w') = Ok true /\
    fst (run (authenticate cfg (Some (Bearer t))) w')
      = fst (run (authenticate cfg (Some (Bearer t))) w).
Proof.
  intros cfg t w ws w' H Ds Cs D C F.
  rewrite isTokenBlacklisted_run in H.
  destruct (hd false (faults w)) eqn:F0; [discriminate |].
  destruct (findBlacklistedToken t (db w)) as [entry |] eqn:B; [| discriminate].
  cbn [fst] in H. injection H as L.
  destruct (cleanupExpiredTokens_keeps_rows ws) as [_ [_ [Kb _]]].
  assert (B' : findBlacklistedToken t (db w') = Some entry).
  { rewrite D. apply Kb; [rewrite Ds; exact B |]. apply Z.ltb_lt in L. lia. }
  assert (V : run (isTokenBlacklisted t) w' = (Ok true, popFault w')).
  { rewrite isTokenBlacklisted_run, F, F0, B', C, L. reflexivity. }
  assert (V0 : run (isTokenBlacklisted t) w = (Ok true, popFault w)).
  { rewrite isTokenBlacklisted_run, F0, B, L. reflexivity. }
  split; [rewrite V; reflexivity |].
  destruct (Token_falsy t) eqn:T.
  - unfold authenticate. rewrite T. reflexivity.
  - rewrite !authenticate_run by exact T. rewrite V, V0. reflexivity.
Qed.

(** In the mixed sample world the sweep removes Bob's expired row and the
    expired blacklist entry; Alice's token is redeemed as before and Bob's
    access token is reported as before. *)
Lemma sweep_keeps_redeemable_tokens_redeemable_witness :
  fst (run (refreshTokens Sample.cfg Sample.aliceRefresh)
           (mkWorld 2000000 (db (snd (run cleanupExpiredTokens Sample.mixedWorld)))
                    [] []))
    = Ok Sample.rotated /\
  refreshTokenTable (db (snd (run cleanupExpiredTokens Sample.mixedWorld)))
    = [Sample.aliceRow].
Proof.
  split; [| reflexivity].
  exact (sweep_keeps_redeemable_tokens_redeemable
           Sample.cfg Sample.aliceRefresh Sample.mixedWorld
           (snd (run (refreshTokens Sample.cfg Sample.aliceRefresh) Sample.mixedWorld))
           Sample.mixedWorld
           (mkWorld 2000000 (db (snd (run cleanupExpiredTokens Sample.mixedWorld)))
                    [] [])
           Sample.rotated eq_refl eq_refl (Z.le_refl _) eq_refl eq_refl eq_refl).
Defined.

Lemma sweep_keeps_blacklisted_tokens_blacklisted_witness :
  fst (run (isTokenBlacklisted Sample.bobAccess)
           (mkWorld 2000000 (db (snd (run cleanupExpiredTokens Sample.mixedWorld)))
                    [] []))
    = Ok true /\
  blacklistedTokenTable (db (snd (run cleanupExpiredTokens Sample.mixedWorld)))
    = [mkBlacklistedToken Sample.bobAccess 2400000].
Proof.
  split; [| reflexivity].
  exact (proj1 (sweep_keeps_blacklisted_tokens_blacklisted
                  Sample.cfg Sample.bobAccess Sample.mixedWorld Sample.mixedWorld
                  (mkWorld 2000000
                     (db (snd (run cleanupExpiredTokens Sample.mixedWorld))) [] [])
                  eq_refl eq_refl (Z.le_refl _) eq_refl eq_refl eq_refl)).
Defined.

(* ------------------------------------------------------------------ *)
(** * Further properties of the middlewares *)

(** ** Role and permission checks *)

Lemma includes_In (names : list string) (x : string) :
  includes names x = true <-> In x names.
Proof. unfold includes. apply existsb_eqb_In. Qed.

Lemma some_includes (names required : list string) :
  existsb (includes names) required = true <->
  exists x, In x required /\ In x names.
Proof.
  rewrite existsb_exists. split; intros [x [H I]]; exists x; split; auto;
    now apply includes_In.
Qed.

Lemma every_includes (names required : list string) :
  forallb (includes names) required = true <->
  forall x, In x required -> In x names.
Proof.
  rewrite forallb_forall. split; intros H x I; apply includes_In; auto.
Qed.

(** A check that throws unless its condition holds, inside the [try] /
    [catch] all the permission middlewares share. *)
Lemma guard_run (b : bool) (e : Exn) (line : string) (w : World) :
  run (tryCatch (if negb b then Throw e else Ret (NextOk tt))
                (fun error => logger_error line ;;; Ret (NextError error))) w
  = if b then (Ok (NextOk tt), w) else (Ok (NextError e), log line w).
Proof. destruct b; reflexivity. Qed.

Lemma guard_admits (b : bool) (e : Exn) (line : string) (w : World) :
  fst (run (tryCatch (if negb b then Throw e else Ret (NextOk tt))
                     (fun error => logger_error line ;;; Ret (NextError error))) w)
    = Ok (NextOk tt) <-> b = true.
Proof. rewrite guard_run. destruct b; simpl; split; congruence. Qed.


(** X16.  The permission checks.  For an authenticated user,
    [hasPermissionAny] admits exactly when [hasPermission] does, that is
    when the user's effective permissions hold at least one of the required
    names; [hasPermissionAll] admits exactly when they hold every required
    name; [isOwnerOrHasPermission] admits exactly when the user's id is the
    resource owner's id or the effective permissions hold at least one of
    the required names. *)
Theorem permission_checks_admit_exactly :
  forall (required : list string) (u : User) (w : World),
    (fst (run (hasPermissionAny required (Some u)) w) = Ok (NextOk tt) <->
     fst (run (hasPermission required (Some u)) w) = Ok (NextOk tt)) /\
    (fst (run (hasPermissionAny required (Some u)) w) = Ok (NextOk tt) <->
     exists p, In p required /\ In p (allPermissions u)) /\
    (fst (run (hasPermissionAll required (Some u)) w) = Ok (NextOk tt) <->
     forall p, In p required -> In p (allPermissions u)) /\
    (forall resourceUserId,
        fst (run (isOwnerOrHasPermission resourceUserId required (Some u)) w)
          = Ok (NextOk tt) <->
        user_id u = resourceUserId \/
        exists p, In p required /\ In p (allPermissions u)).
Proof.
  intros required u w.
  assert (Any : fst (run (hasPermissionAny required (Some u)) w) = Ok (NextOk tt) <->
                exists p, In p required /\ In p (allPermissions u)).
  { unfold hasPermissionAny. cbv zeta. rewrite guard_admits. apply some_includes. }
  split; [| split; [exact Any | split]].
  - rewrite Any. symmetry. apply hasPermission_admits.
  - unfold hasPermissionAll. cbv zeta. rewrite guard_admits. apply every_includes.
  - intros resourceUserId. unfold isOwnerOrHasPermission. cbv zeta.
    rewrite <- some_includes.
    destruct (user_id u =? resourceUserId)%string eqn:Own.
    + split; [intros _ | reflexivity]. left. now apply String.eqb_eq.
    + rewrite guard_admits. split; [now right |].
      intros [S | R]; [| exact R]. apply String.eqb_neq in Own. contradiction.
Qed.

(** X17.  Unauthenticated or forbidden.  Each of the six role and
    permission middlewares returns normally and makes no store call (the
    store and the fault schedule are as before).  Without a user on the
    request each hands on the same
    [AuthenticationError('User not authenticated')], status 401; with a user
    each either admits or hands on an [AuthorizationError], status 403. *)
Theorem checks_answer_401_without_user_and_403_with :
  forall (required : list string) (rid : string) (pid puid : option string)
         (check : option User -> Prog (Next unit)),
    In check [hasRole required; hasPermission required; hasPermissionAny required;
              hasPermissionAll required; isOwnerOrHasPermission rid required;
              isSelfOrHasRole required pid puid] ->
    forall (w : World),
      (exists w',
          run (check None) w
            = (Ok (NextError (newAuthenticationError "User not authenticated")), w') /\
          db w' = db w /\ faults w' = faults w) /\
      statusCodeField (newAuthenticationError "User not authenticated") = Some 401 /\
      (forall u, exists n w',
          run (check (Some u)) w = (Ok n, w') /\
          db w' = db w /\ faults w' = faults w /\
          (n = NextOk tt \/
           exists msg, n = NextError (newAuthorizationError msg) /\
                       statusCodeField (newAuthorizationError msg) = Some 403)).
Proof.
  intros required rid pid puid check Hin w.
  assert (G : forall b msg line,
             exists n w',
               run (tryCatch (if negb b then Throw (newAuthorizationError msg)
                              else Ret (NextOk tt))
                             (fun error => logger_error line ;;;
                                           Ret (NextError error))) w = (Ok n, w') /\
               db w' = db w /\ faults w' = faults w /\
               (n = NextOk tt \/
                exists m, n = NextError (newAuthorizationError m) /\
                          statusCodeField (newAuthorizationError m) = Some 403)).
  { intros b msg line. rewrite guard_run. destruct b.
    - eexists; eexists. repeat split. now left.
    - eexists; eexists. repeat split. right. exists msg. split; reflexivity. }
  assert (Own : exists n w',
             run (tryCatch (Ret (NextOk tt))
                           (fun error => logger_error "x" ;;;
                                         Ret (NextError error))) w = (Ok n, w') /\
             db w' = db w /\ faults w' = faults w /\
             (n = @NextOk unit tt \/
              exists m, n = NextError (newAuthorizationError m) /\
                        statusCodeField (newAuthorizationError m) = Some 403)).
  { eexists; eexists. repeat split. now left. }
  simpl in Hin.
  destruct Hin as [<- | [<- | [<- | [<- | [<- | [<- | []]]]]]];
    (split; [eexists; repeat split | split; [reflexivity | intros u]]).
  - apply G.
  - apply G.
  - apply G.
  - apply G.
  - unfold isOwnerOrHasPermission. cbv zeta.
    destruct (user_id u =? rid)%string; [exact Own | apply G].
  - unfold isSelfOrHasRole. cbv zeta.
    destruct (option_eqb String.eqb (Some (user_id u)) (orElse pid puid));
      [exact Own | apply G].
Qed.

(** The [requireRole]-style check of the sample: Carol is no admin. *)
Lemma checks_answer_401_without_user_and_403_with_witness :
  exists w',
    run (hasRole ["admin"] None) Sample.world
      = (Ok (NextError (newAuthenticationError "User not authenticated")), w') /\
    db w' = db Sample.world /\ faults w' = faults Sample.world.
Proof.
  exact (proj1 (checks_answer_401_without_user_and_403_with
                  ["admin"] "u1" None None (hasRole ["admin"])
                  (or_introl eq_refl) Sample.world)).
Defined.

(** ** Authenticating *)

(** X18.  Whom [authenticate] admits.  It never throws: every failure is
    handed on as [next(error)].  When it admits a user, the header was a
    bearer token that [verifyAccessToken] accepts at the clock of the
    request, the user is the stored user with the id in the token's payload,
    and the user is active; and if the store answered the blacklist lookup,
    the token has no blacklist entry that is still in force. *)
Theorem authenticate_admits_only_verified_active_users :
  forall (cfg : Config) (header : option AuthorizationHeader) (w : World),
    (exists n w', run (authenticate cfg header) w = (Ok n, w')) /\
    (forall u,
        fst (run (authenticate cfg header) w) = Ok (NextOk u) ->
        exists t c,
          header = Some (Bearer t) /\
          verifyAccessToken cfg (clock w) t = Ok c /\
          findUserById (userId (payload c)) (db w) = Some u /\
          user_id u = userId (payload c) /\
          user_isActive u = true /\
          (hd false (faults w) = false ->
           forall entry, findBlacklistedToken t (db w) = Some entry ->
                         bl_expiresAt entry <= clock w)).
Proof.
  intros cfg header w.
  destruct header as [[t | other] |];
    try (split; [eexists; eexists; reflexivity | intros u H; discriminate]).
  destruct (Token_falsy t) eqn:T.
  { unfold authenticate. rewrite T.
    split; [eexists; eexists; reflexivity | intros u H; discriminate]. }
  rewrite authenticate_run by exact T. rewrite isTokenBlacklisted_run.
  assert (Load : forall w1 listed,
             clock w1 = clock w -> db w1 = db w ->
             (hd false (faults w) = false ->
              forall entry, findBlacklistedToken t (db w) = Some entry ->
                            listed = false -> bl_expiresAt entry <= clock w) ->
             listed = false ->
             (exists n w', verifyAndLoad cfg t w1 = (Ok n, w')) /\
             (forall u, fst (verifyAndLoad cfg t w1) = Ok (NextOk u) ->
                exists t0 c,
                  Some (Bearer t) = Some (Bearer t0) /\
                  verifyAccessToken cfg (clock w) t0 = Ok c /\
                  findUserById (userId (payload c)) (db w) = Some u /\
                  user_id u = userId (payload c) /\
                  user_isActive u = true /\
                  (hd false (faults w) = false ->
                   forall entry, findBlacklistedToken t0 (db w) = Some entry ->
                                 bl_expiresAt entry <= clock w))).
  { intros w1 listed C D B L. unfold verifyAndLoad. rewrite C, D.
    destruct (verifyAccessToken cfg (clock w) t) as [c | e] eqn:V.
    2:{ split; [eexists; eexists; reflexivity | intros u H; discriminate]. }
    destruct (hd false (faults w1)).
    { split; [eexists; eexists; reflexivity | intros u H; discriminate]. }
    destruct (findUserById (userId (payload c)) (db w)) as [user |] eqn:U.
    2:{ split; [eexists; eexists; reflexivity | intros u H; discriminate]. }
    destruct (user_isActive user) eqn:A; cbn [negb].
    2:{ split; [eexists; eexists; reflexivity | intros u H; discriminate]. }
    split; [eexists; eexists; reflexivity |].
    intros u H. cbn [fst] in H. inversion H; subst u.
    exists t, c. repeat split; try assumption.
    - apply (findUserById_found _ _ _ U).
    - intros F entry E. now apply (B F entry E). }
  destruct (hd false (faults w)) eqn:F.
  - apply (Load _ false); try reflexivity. discriminate.
  - destruct (findBlacklistedToken t (db w)) as [entry |] eqn:B.
    + destruct (clock w <? bl_expiresAt entry) eqn:L.
      * split; [eexists; eexists; reflexivity | intros u H; discriminate].
      * apply (Load _ false); try reflexivity.
        intros _ entry' E _. inversion E; subst entry'.
        apply Z.ltb_ge in L. exact L.
    + apply (Load _ false); try reflexivity. intros _ entry' E. discriminate.
Qed.

(** In the early sample world Alice's access token admits Alice. *)
Lemma authenticate_admits_only_verified_active_users_witness :
  exists t c,
    Some (Bearer Sample.aliceAccess) = Some (Bearer t) /\
    verifyAccessToken Sample.cfg (clock Sample.earlyWorld) t = Ok c /\
    findUserById (userId (payload c)) (db Sample.earlyWorld) = Some Sample.alice /\
    user_id Sample.alice = userId (payload c) /\
    user_isActive Sample.alice = true /\
    (hd false (faults Sample.earlyWorld) = false ->
     forall entry,
       findBlacklistedToken t (db Sample.earlyWorld) = Some entry ->
       bl_expiresAt entry <= clock Sample.earlyWorld).
Proof.
  exact (proj2 (authenticate_admits_only_verified_active_users Sample.cfg
                  (Some (Bearer Sample.aliceAccess)) Sample.earlyWorld)
               Sample.alice eq_refl).
Defined.

Lemma optionalAuthenticate_run (cfg : Config) (t : Token) (w : World) :
  Token_falsy t = false ->
  fst (run (optionalAuthenticate cfg (Some (Bearer t))) w) =
  match run (isTokenBlacklisted t) w with
  | (Ok true, _) => Ok None
  | (Ok false, w1) => Ok (attached (fst (verifyAndLoad cfg t w1)))
  | (Err _, _) => Ok None
  end /\
  db (snd (run (optionalAuthenticate cfg (Some (Bearer t))) w)) = db w.
Proof.
  intros T. unfold optionalAuthenticate. rewrite T, run_tryCatch, run_bind.
  rewrite isTokenBlacklisted_run.
  assert (Inner : forall w1, db w1 = db w ->
            fst (let (r, w2) :=
                   run (tryCatch
                          (now <- newDate ;;
                           decoded <- ofRes (verifyAccessToken cfg now t) ;;
                           found <- await (UserFindUniqueById
                                             (userId (payload decoded))) ;;
                           match found with
                           | None => Ret None
                           | Some user =>
                               if user_isActive user then Ret (Some user)
                               else Ret None
                           end)
                          (fun _ => Ret None)) w1 in
                 match r with
                 | Ok a => (Ok a, w2)
                 | Err e =>
                     run (logger_error "Optional authentication middleware error:" ;;;
                          Ret None) w2
                 end)
            = Ok (attached (fst (verifyAndLoad cfg t w1))) /\
            db (snd (let (r, w2) :=
                   run (tryCatch
                          (now <- newDate ;;
                           decoded <- ofRes (verifyAccessToken cfg now t) ;;
                           found <- await (UserFindUniqueById
                                             (userId (payload decoded))) ;;
                           match found with
                           | None => Ret None
                           | Some user =>
                               if user_isActive user then Ret (Some user)
                               else Ret None
                           end)
                          (fun _ => Ret None)) w1 in
                 match r with
                 | Ok a => (Ok a, w2)
                 | Err e =>
                     run (logger_error "Optional authentication middleware error:" ;;;
                          Ret None) w2
                 end)) = db w).
  { intros w1 D. rewrite run_tryCatch. unfold verifyAndLoad, newDate.
    cbn [bind run execEff]. rewrite run_bind, run_ofRes.
    destruct (verifyAccessToken cfg (clock w1) t) as [c | e];
      [| split; [reflexivity | exact D]].
    rewrite run_bind, run_await.
    destruct (hd false (faults w1)) eqn:F.
    - rewrite execDb_fails by exact F. split; [reflexivity | exact D].
    - rewrite execDb_answers by exact F. simpl applyOp. cbn [fst snd].
      destruct (findUserById _ (db w1)) as [user |];
        [| split; [reflexivity | exact D]].
      destruct (user_isActive user); split; reflexivity || exact D. }
  destruct (hd false (faults w)).
  - apply Inner. reflexivity.
  - destruct (findBlacklistedToken t (db w)) as [entry |].
    + destruct (clock w <? bl_expiresAt entry).
      * split; reflexivity.
      * apply Inner. reflexivity.
    + apply Inner. reflexivity.
Qed.

(** X19.  [optionalAuthenticate] never rejects and never throws: it yields
    the user that [authenticate] would admit for the same header in the same
    world, and no user in every case in which [authenticate] would hand on
    an error; it writes nothing to the store. *)
Theorem optionalAuthenticate_attaches_whom_authenticate_admits :
  forall (cfg : Config) (header : option AuthorizationHeader) (w : World),
    fst (run (optionalAuthenticate cfg header) w)
      = Ok (attached (fst (run (authenticate cfg header) w))) /\
    db (snd (run (optionalAuthenticate cfg header) w)) = db w.
Proof.
  intros cfg header w.
  destruct header as [[t | other] |]; try (split; reflexivity).
  destruct (Token_falsy t) eqn:T.
  { unfold optionalAuthenticate, authenticate. rewrite T. split; reflexivity. }
  destruct (optionalAuthenticate_run cfg t w T) as [O D].
  split; [| exact D].
  rewrite O, authenticate_run by exact T.
  destruct (run (isTokenBlacklisted t) w) as [[[|] | e] w1]; reflexivity.
Qed.

(* ------------------------------------------------------------------ *)
(** * Further properties at the request boundary *)

(** ** What the error handler answers *)

Lemma errorHandler_run (error : Exn) (w : World) :
  run (errorHandler error) w =
  (Ok match statusCodeField error with
      | Some code => mkResponse code (message error) (clock w)
      | None => mkResponse 500 "Internal server error" (clock w)
      end,
   log "Error occurred:" w).
Proof.
  unfold errorHandler, logger_error, newDate. cbn [bind run execEff clock].
  destruct (statusCodeField error); reflexivity.
Qed.

(** Every error of a Prisma call is one without a [statusCode]. *)
Lemma execDb_error_has_no_status {R} (op : DbOp R) (w w' : World) (e : Exn) :
  execDb op w = (Err e, w') -> statusCodeField e = None.
Proof.
  destruct (execDb_cases op w) as [E | E]; rewrite E.
  - intros H; inversion H; reflexivity.
  - intros H; inversion H as [[X W]]. clear H W. revert X.
    destruct op; simpl;
      repeat match goal with
             | |- context [match ?x with _ => _ end] => destruct x; simpl
             end;
      intros X; inversion X; reflexivity.
Qed.

Lemma generateTokenPair_error_has_no_status (cfg : Config) (uid mail : string)
    (rs ps : list string) (ua ip : option string) (w w' : World) (e : Exn) :
  run (generateTokenPair cfg uid mail rs ps ua ip) w = (Err e, w') ->
  statusCodeField e = None.
Proof.
  rewrite generateTokenPair_run. cbv zeta.
  destruct (hd false (faults w)).
  - intros H; inversion H; reflexivity.
  - destruct (findRefreshToken _ (db w)); intros H; inversion H; reflexivity.
Qed.

Lemma answers_from_status (e : Exn) (w : World) (messages : list string) :
  (cls e = AuthenticationError /\ In (message e) messages) \/
  statusCodeField e = None ->
  exists r w',
    run (errorHandler e) w = (Ok r, w') /\
    (answers401 messages r \/ answersInternalError r).
Proof.
  intros H. rewrite errorHandler_run. eexists; eexists. split; [reflexivity |].
  destruct H as [[C M] | N].
  - left. unfold statusCodeField, statusCode. rewrite C. split; [reflexivity | exact M].
  - right. rewrite N. split; reflexivity.
Qed.

(** X20.  What a failed login is answered.  Whatever makes [login] fail,
    [errorHandler] answers the error either with status 401 and one of the
    three messages of [login] itself, or, for every failure of the store,
    with status 500 and the fixed message ['Internal server error']: the
    store's own error text never reaches the response. *)
Theorem login_failures_are_answered_401_or_500 :
  forall (toLowerCase : string -> string)
         (bcrypt_compare : string -> string -> bool) (cfg : Config)
         (credentials : LoginCredentials) (ua ip : option string)
         (w w' w2 : World) (e : Exn),
    run (login toLowerCase bcrypt_compare cfg credentials ua ip) w = (Err e, w') ->
    exists r w3,
      run (errorHandler e) w2 = (Ok r, w3) /\
      (answers401 ["Invalid email or password";
                   "Your account has been disabled";
                   "Please verify your email address before signing in"] r \/
       answersInternalError r).
Proof.
  intros toLowerCase bcrypt_compare cfg credentials ua ip w w' w2 e H.
  apply answers_from_status. revert H. rewrite login_run.
  destruct (hd false (faults w)).
  { intros H; inversion H. right; reflexivity. }
  destruct (findUserByEmail _ (db w)) as [user |].
  2:{ intros H; inversion H. left. simpl. auto. }
  destruct (noPassword user).
  { intros H; inversion H. left. simpl. auto. }
  destruct (negb (bcrypt_compare _ _)).
  { intros H; inversion H. left. simpl. auto. }
  destruct (negb (user_isActive user)).
  { intros H; inversion H. left. simpl. auto. }
  destruct (negb (user_emailVerified user)).
  { intros H; inversion H. left. simpl. auto. }
  rewrite run_await.
  destruct (execDb _ (popFault w)) as [[[] | e1] wa] eqn:U.
  2:{ intros H; inversion H; subst. right.
      eapply execDb_error_has_no_status; eauto. }
  destruct (run (generateTokenPair _ _ _ _ _ _ _) wa) as [[tokens | e2] wb] eqn:G.
  { discriminate. }
  intros H; inversion H; subst. right.
  eapply generateTokenPair_error_has_no_status; eauto.
Qed.

(** A wrong password in the sample world is answered 401. *)
Lemma login_failures_are_answered_401_or_500_witness :
  exists r w3,
    run (errorHandler invalidCredentials) Sample.world = (Ok r, w3) /\
    (answers401 ["Invalid email or password";
                 "Your account has been disabled";
                 "Please verify your email address before signing in"] r \/
     answersInternalError r).
Proof.
  exact (login_failures_are_answered_401_or_500 Sample.toLowerCase Sample.compare Sample.cfg
           (mkLoginCredentials "alice@example.com" "wrong") None None
           Sample.world (popFault Sample.world) Sample.world invalidCredentials
           eq_refl).
Defined.

(** X21.  What a failed refresh is answered.  Whatever makes
    [refreshTokens] fail, [errorHandler] answers the error either with
    status 401 and one of the five messages of the token service
    (['Invalid refresh token'], ['Invalid token type'],
    ['Refresh token is invalid or revoked'], ['Refresh token expired'],
    ['User account is disabled']), or, for every failure of the store, with
    status 500 and the fixed message ['Internal server error']. *)
Theorem refresh_failures_are_answered_401_or_500 :
  forall (cfg : Config) (t : Token) (w w' w2 : World) (e : Exn),
    run (refreshTokens cfg t) w = (Err e, w') ->
    exists r w3,
      run (errorHandler e) w2 = (Ok r, w3) /\
      (answers401 ["Invalid refresh token"; "Invalid token type";
                   "Refresh token is invalid or revoked";
                   "Refresh token expired"; "User account is disabled"] r \/
       answersInternalError r).
Proof.
  intros cfg t w w' w2 e H.
  apply answers_from_status. revert H. rewrite refreshTokens_run.
  destruct (verifyRefreshToken cfg (clock w) t) as [c | e0] eqn:V.
  2:{ intros H; inversion H; subst. left.
      apply verifyRefreshToken_errors in V. destruct V as [-> | ->]; simpl; auto. }
  destruct (hd false (faults w)).
  { intros H; inversion H. right; reflexivity. }
  destruct (findRefreshToken t (db w)) as [row |].
  2:{ intros H; inversion H. left. simpl. auto. }
  destruct (findUserById (rt_userId row) (db w)) as [owner |].
  2:{ intros H; inversion H. right; reflexivity. }
  destruct (rt_isRevoked row).
  { intros H; inversion H. left. simpl. auto. }
  destruct (rt_expiresAt row <? clock w).
  { intros H; inversion H. left. simpl. auto 6. }
  destruct (negb (user_isActive owner)).
  { intros H; inversion H. left. simpl. auto 7. }
  destruct (run (generateTokenPair _ _ _ _ _ _ _) (popFault w))
    as [[tokens | e2] wb] eqn:G.
  { discriminate. }
  intros H; inversion H; subst. right.
  eapply generateTokenPair_error_has_no_status; eauto.
Qed.

(** A revoked token is answered 401. *)
Lemma refresh_failures_are_answered_401_or_500_witness :
  exists r w3,
    run (errorHandler (newAuthenticationError "User account is disabled"))
        Sample.world = (Ok r, w3) /\
    (answers401 ["Invalid refresh token"; "Invalid token type";
                 "Refresh token is invalid or revoked";
                 "Refresh token expired"; "User account is disabled"] r \/
     answersInternalError r).
Proof.
  exact (refresh_failures_are_answered_401_or_500 Sample.cfg Sample.bobRefresh
           Sample.world (popFault Sample.world) Sample.world
           (newAuthenticationError "User account is disabled") eq_refl).
Defined.

(** ** The local strategy and [login] *)

Lemma localStrategy_run (toLowerCase : string -> string)
    (bcrypt_compare : string -> string -> bool)
    (mail password : string) (w : World) :
  hd false (faults w) = false ->
  fst (run (localStrategy toLowerCase bcrypt_compare mail password) w) =
  match findUserByEmail (toLowerCase mail) (db w) with
  | None => Ok (NextError invalidCredentials)
  | Some user =>
      if noPassword user
      then Ok (NextError (newAuthenticationError
                            "Please sign in using your social media account"))
      else if negb (bcrypt_compare password (passwordOf user))
      then Ok (NextError invalidCredentials)
      else if negb (user_isActive user)
      then Ok (NextError (newAuthenticationError "Your account has been disabled"))
      else if negb (user_emailVerified user)
      then Ok (NextError (newAuthenticationError
                            "Please verify your email address before signing in"))
      else
        match fst (run (await (UserUpdateLastLogin (user_id user) (clock w)))
                       (popFault w)) with
        | Ok _ => Ok (NextOk user)
        | Err e => Ok (NextError e)
        end
  end.
Proof.
  intros F. unfold localStrategy. rewrite run_tryCatch, run_bind, run_await.
  rewrite execDb_answers by exact F. simpl applyOp. cbn [fst snd].
  change (popFault (withDb (db w) w)) with (popFault w).
  destruct (findUserByEmail _ (db w)) as [user |]; [| reflexivity].
  destruct (noPassword user); [reflexivity |].
  destruct (negb (bcrypt_compare _ _)); [reflexivity |].
  destruct (negb (user_isActive user)); [reflexivity |].
  destruct (negb (user_emailVerified user)); [reflexivity |].
  unfold newDate. cbn [bind run execEff clock popFault].
  rewrite run_bind.
  destruct (run (await _) (popFault w)) as [[[] | e] wa]; reflexivity.
Qed.

(** X22.  The local strategy tells accounts without a password apart.  With
    the user lookup answered, the verify callback of the passport local
    strategy answers an unknown address and a wrong password with
    ['Invalid email or password'], as [login] does, but an account that has
    no password hash with
    ['Please sign in using your social media account'], where [login]
    answers ['Invalid email or password'] again. *)
Theorem localStrategy_tells_passwordless_accounts_apart :
  forall (toLowerCase : string -> string)
         (bcrypt_compare : string -> string -> bool) (cfg : Config)
         (mail password : string) (ua ip : option string) (w : World),
    hd false (faults w) = false ->
    (findUserByEmail (toLowerCase mail) (db w) = None ->
     fst (run (localStrategy toLowerCase bcrypt_compare mail password) w)
       = Ok (NextError invalidCredentials) /\
     fst (run (login toLowerCase bcrypt_compare cfg
                   (mkLoginCredentials mail password) ua ip) w)
       = Err invalidCredentials) /\
    (forall user,
        findUserByEmail (toLowerCase mail) (db w) = Some user ->
        noPassword user = false ->
        bcrypt_compare password (passwordOf user) = false ->
        fst (run (localStrategy toLowerCase bcrypt_compare mail password) w)
          = Ok (NextError invalidCredentials) /\
        fst (run (login toLowerCase bcrypt_compare cfg
                      (mkLoginCredentials mail password) ua ip) w)
          = Err invalidCredentials) /\
    (forall user,
        findUserByEmail (toLowerCase mail) (db w) = Some user ->
        noPassword user = true ->
        fst (run (localStrategy toLowerCase bcrypt_compare mail password) w)
          = Ok (NextError (newAuthenticationError
                             "Please sign in using your social media account")) /\
        fst (run (login toLowerCase bcrypt_compare cfg
                      (mkLoginCredentials mail password) ua ip) w)
          = Err invalidCredentials).
Proof.
  intros toLowerCase bcrypt_compare cfg mail password ua ip w F.
  split; [| split].
  - intros N. rewrite localStrategy_run by exact F.
    rewrite login_run, F. cbn [cred_email]. rewrite N. split; reflexivity.
  - intros user U P C. rewrite localStrategy_run by exact F.
    rewrite login_run, F. cbn [cred_email cred_password]. rewrite U, P, C.
    split; reflexivity.
  - intros user U P. rewrite localStrategy_run by exact F.
    rewrite login_run, F. cbn [cred_email]. rewrite U, P. split; reflexivity.
Qed.

(** Carol's account has no password hash. *)
Lemma localStrategy_tells_passwordless_accounts_apart_witness :
  fst (run (localStrategy Sample.toLowerCase Sample.compare
              "carol@example.com" "guess") Sample.world)
    = Ok (NextError (newAuthenticationError
                       "Please sign in using your social media account")) /\
  fst (run (login Sample.toLowerCase Sample.compare Sample.cfg
              (mkLoginCredentials "carol@example.com" "guess") None None)
           Sample.world)
    = Err invalidCredentials.
Proof.
  exact (proj2 (proj2 (localStrategy_tells_passwordless_accounts_apart
                         Sample.toLowerCase Sample.compare Sample.cfg
                         "carol@example.com" "guess"
                         None None Sample.world eq_refl))
               Sample.carol eq_refl eq_refl).
Defined.

Lemma findUserById_stamped (i : string) (at_ : Z) (d : Database) (u : User) :
  findUserById i d = Some u ->
  findUserById i
    (withUsers (map (fun x => if (user_id x =? i)%string then setLastLogin at_ x else x)
                    (userTable d)) d)
    = Some (setLastLogin at_ u).
Proof.
  intros H. pose proof (findUserById_found _ _ _ H) as [Id _].
  unfold findUserById in *. cbn [withUsers userTable].
  rewrite find_map_preserving.
  - rewrite H. cbn [option_map]. rewrite Id, String.eqb_refl. reflexivity.
  - intros a. destruct (user_id a =? i)%string eqn:E; cbn [setLastLogin user_id];
      exact E.
Qed.

(** What a successful [login] found and left behind. *)
Lemma login_ok_effects (toLowerCase : string -> string)
    (bcrypt_compare : string -> string -> bool) (cfg : Config)
    (credentials : LoginCredentials) (ua ip : option string) (w w' : World)
    (user : User) (tokens : JWTTokens) :
  run (login toLowerCase bcrypt_compare cfg credentials ua ip) w
    = (Ok (user, tokens), w') ->
  findUserByEmail (toLowerCase (cred_email credentials)) (db w) = Some user /\
  noPassword user = false /\
  bcrypt_compare (cred_password credentials) (passwordOf user) = true /\
  user_isActive user = true /\
  user_emailVerified user = true /\
  tokens = mkJWTTokens (generateAccessToken cfg (clock w) (payloadOf user))
                       (generateRefreshToken cfg (clock w) (payloadOf user)) /\
  userTable (db w')
    = map (fun x => if (user_id x =? user_id user)%string
                    then setLastLogin (clock w) x else x) (userTable (db w)) /\
  blacklistedTokenTable (db w') = blacklistedTokenTable (db w) /\
  findRefreshToken (refreshToken tokens) (db w')
    = Some (mkRefreshToken (refreshToken tokens) (user_id user)
              ((clock w / 1000 + refreshExpiresIn cfg) * 1000) false
              (orNull ua) (orNull ip)).
Proof.
  rewrite login_run.
  destruct (hd false (faults w)); [discriminate |].
  destruct (findUserByEmail _ (db w)) as [found |] eqn:U; [| discriminate].
  destruct (noPassword found) eqn:P; [discriminate |].
  destruct (bcrypt_compare _ _) eqn:C; cbn [negb]; [| discriminate].
  destruct (user_isActive found) eqn:A; cbn [negb]; [| discriminate].
  destruct (user_emailVerified found) eqn:E; cbn [negb]; [| discriminate].
  rewrite run_await.
  destruct (execDb _ (popFault w)) as [[[] | e1] wa] eqn:X; [| discriminate].
  destruct (run (generateTokenPair _ _ _ _ _ _ _) wa) as [[issued | e2] wb] eqn:G;
    [| discriminate].
  intros H; inversion H; subst found issued wb. clear H.
  pose proof (generateTokenPair_stored _ _ _ _ _ _ _ _ _ _ G)
    as [_ [S [_ [Us [Bl _]]]]].
  pose proof (generateTokenPair_ok _ _ _ _ _ _ _ _ _ _ G) as [T _].
  destruct (execDb_cases (UserUpdateLastLogin (user_id user) (clock w)) (popFault w))
    as [Y | Y]; rewrite Y in X; [discriminate |].
  simpl applyOp in X.
  destruct (findUserById (user_id user) (db w)); cbn [fst snd] in X;
    [| discriminate].
  inversion X as [W]. clear X.
  rewrite <- W in *. cbn [clock db popFault withDb withUsers userTable
                            blacklistedTokenTable] in *.
  repeat split; assumption.
Qed.

(** X23.  What a successful [login] leaves behind.  The user it returns is
    the stored user with the lower-cased address, who has a matching
    password hash and is active and verified; the pair is minted at the clock
    of the call for that user's id, e-mail, role names and effective
    permissions.  Afterwards a lookup by id finds every user as before,
    except that under the id of the user who logged in [lastLoginAt] is the
    clock of the call; the refresh token is stored unrevoked for the user
    with the client's user agent and address; the blacklist is untouched. *)
Theorem login_success_effects :
  forall (toLowerCase : string -> string)
         (bcrypt_compare : string -> string -> bool) (cfg : Config)
         (credentials : LoginCredentials) (ua ip : option string) (w w' : World)
         (user : User) (tokens : JWTTokens),
    run (login toLowerCase bcrypt_compare cfg credentials ua ip) w
      = (Ok (user, tokens), w') ->
    findUserByEmail (toLowerCase (cred_email credentials)) (db w) = Some user /\
    bcrypt_compare (cred_password credentials) (passwordOf user) = true /\
    user_isActive user = true /\
    user_emailVerified user = true /\
    tokens = mkJWTTokens (generateAccessToken cfg (clock w) (payloadOf user))
                         (generateRefreshToken cfg (clock w) (payloadOf user)) /\
    (forall i x, findUserById i (db w) = Some x ->
       findUserById i (db w')
         = Some (if (i =? user_id user)%string then setLastLogin (clock w) x else x)) /\
    (forall i, findUserById i (db w) = None -> findUserById i (db w') = None) /\
    blacklistedTokenTable (db w') = blacklistedTokenTable (db w) /\
    findRefreshToken (refreshToken tokens) (db w')
      = Some (mkRefreshToken (refreshToken tokens) (user_id user)
                ((clock w / 1000 + refreshExpiresIn cfg) * 1000) false
                (orNull ua) (orNull ip)).
Proof.
  intros toLowerCase bcrypt_compare cfg credentials ua ip w w' user tokens H.
  destruct (login_ok_effects _ _ _ _ _ _ _ _ _ _ H)
    as [U [_ [C [A [E [T [Us [Bl S]]]]]]]].
  repeat split; try assumption.
  - intros i x Hx. pose proof (findUserById_found _ _ _ Hx) as [Id _].
    unfold findUserById in *. rewrite Us, find_map_preserving.
    + rewrite Hx. cbn [option_map]. rewrite Id. reflexivity.
    + intros a. destruct (user_id a =? user_id user)%string; reflexivity.
  - intros i Hn. unfold findUserById in *. rewrite Us, find_map_preserving.
    + rewrite Hn. reflexivity.
    + intros a. destruct (user_id a =? user_id user)%string; reflexivity.
Qed.

(** Alice logs in in the sample world. *)
Lemma login_success_effects_witness :
  findUserById "u1"
    (db (snd (run (login Sample.toLowerCase Sample.compare Sample.cfg
                     (mkLoginCredentials "Alice@Example.com" "correct horse")
                     (Some "curl/8") None) Sample.world)))
    = Some (setLastLogin 2000000 Sample.alice) /\
  findUserById "u2"
    (db (snd (run (login Sample.toLowerCase Sample.compare Sample.cfg
                     (mkLoginCredentials "Alice@Example.com" "correct horse")
                     (Some "curl/8") None) Sample.world)))
    = Some Sample.bob.
Proof.
  pose proof (login_success_effects Sample.toLowerCase Sample.compare Sample.cfg
                (mkLoginCredentials "Alice@Example.com" "correct horse")
                (Some "curl/8") None Sample.world
                (snd (run (login Sample.toLowerCase Sample.compare Sample.cfg
                             (mkLoginCredentials "Alice@Example.com" "correct horse")
                             (Some "curl/8") None) Sample.world))
                Sample.alice Sample.rotated eq_refl)
    as [_ [_ [_ [_ [_ [K _]]]]]].
  split.
  - exact (K "u1" Sample.alice eq_refl).
  - exact (K "u2" Sample.bob eq_refl).
Defined.

(** X24.  From [login] to [authenticate].  Let [login] succeed for a user
    who is also the user the store finds under that user's id, with an access
    token that is not on the blacklist.  Then, against the store the login
    left, with the store answering and while the second of the clock lies
    before the access token's expiry, [authenticate] admits a request
    carrying the returned access token as bearer, and attaches the user with
    [lastLoginAt] set to the clock of the login. *)
Theorem login_then_authenticate_admits_the_user :
  forall (toLowerCase : string -> string)
         (bcrypt_compare : string -> string -> bool) (cfg : Config)
         (credentials : LoginCredentials) (ua ip : option string)
         (w w' w2 : World) (user : User) (tokens : JWTTokens),
    run (login toLowerCase bcrypt_compare cfg credentials ua ip) w
      = (Ok (user, tokens), w') ->
    findUserById (user_id user) (db w) = Some user ->
    findBlacklistedToken (accessToken tokens) (db w) = None ->
    db w2 = db w' ->
    faults w2 = [] ->
    clock w2 / 1000 < clock w / 1000 + accessExpiresIn cfg ->
    fst (run (authenticate cfg (Some (Bearer (accessToken tokens)))) w2)
      = Ok (NextOk (setLastLogin (clock w) user)).
Proof.
  intros toLowerCase bcrypt_compare cfg credentials ua ip w w' w2 user tokens H Id B D F T.
  destruct (login_ok_effects _ _ _ _ _ _ _ _ _ _ H)
    as [_ [_ [_ [A [_ [-> [Us [Bl _]]]]]]]].
  cbn [accessToken] in *.
  rewrite authenticate_run by reflexivity.
  rewrite isTokenBlacklisted_run, F. cbn [hd].
  replace (findBlacklistedToken (generateAccessToken cfg (clock w) (payloadOf user))
                                (db w2))
    with (@None BlacklistedToken)
    by (unfold findBlacklistedToken in *; rewrite D, Bl; symmetry; exact B).
  unfold verifyAndLoad. cbn [clock popFault faults db].
  rewrite (proj1 (minted_token_verifies_window cfg (clock w) (clock w2)
                    (payloadOf user))).
  apply Z.ltb_lt in T. rewrite T, F. cbn [tl hd mintedClaims payload payloadOf userId].
  replace (findUserById (user_id user) (db w2))
    with (Some (setLastLogin (clock w) user)).
  - cbn [setLastLogin user_isActive]. rewrite A. reflexivity.
  - symmetry. unfold findUserById. rewrite D, Us.
    apply (findUserById_stamped (user_id user) (clock w) (db w) user Id).
Qed.

(** Alice logs in and then calls a protected route ten seconds later. *)
Lemma login_then_authenticate_admits_the_user_witness :
  fst (run (authenticate Sample.cfg
              (Some (Bearer (accessToken Sample.rotated))))
           (advance 10000
              (snd (run (login Sample.toLowerCase Sample.compare Sample.cfg
                           (mkLoginCredentials "Alice@Example.com" "correct horse")
                           None None) Sample.world))))
    = Ok (NextOk (setLastLogin 2000000 Sample.alice)).
Proof.
  exact (login_then_authenticate_admits_the_user
        Sample.toLowerCase Sample.compare Sample.cfg
           (mkLoginCredentials "Alice@Example.com" "correct horse") None None
           Sample.world
           (snd (run (login Sample.toLowerCase Sample.compare Sample.cfg
                        (mkLoginCredentials "Alice@Example.com" "correct horse")
                        None None) Sample.world))
           (advance 10000
              (snd (run (login Sample.toLowerCase Sample.compare Sample.cfg
                           (mkLoginCredentials "Alice@Example.com" "correct horse")
                           None None) Sample.world)))
           Sample.alice Sample.rotated
           eq_refl eq_refl eq_refl eq_refl eq_refl eq_refl).
Defined.

(** ** Changing the password *)

Lemma changePassword_run (bcrypt_compare : string -> string -> bool)
    (bcrypt_hash : string -> Z -> string) (cfg : Config) (uid : string)
    (data : ChangePasswordData) (w : World) :
  run (changePassword bcrypt_compare bcrypt_hash cfg uid data) w =
  if hd false (faults w) then (Err storeFault, popFault w)
  else
    match findUserById uid (db w) with
    | None => (Err (newNotFoundError "User not found"), popFault w)
    | Some user =>
        if noPassword user
        then (Err (newNotFoundError "User not found"), popFault w)
        else if negb (bcrypt_compare (currentPassword data) (passwordOf user))
        then (Err (newAuthenticationError "Current password is incorrect"),
              popFault w)
        else
          match run (await (UserUpdatePassword uid
                              (bcrypt_hash (newPassword data) (bcryptRounds cfg))))
                    (popFault w) with
          | (Ok _, wa) => run (revokeAllUserTokens uid) wa
          | (Err e, wa) => (Err e, wa)
          end
    end.
Proof.
  unfold changePassword. rewrite run_bind, run_await.
  destruct (hd false (faults w)) eqn:F.
  - rewrite execDb_fails by exact F. reflexivity.
  - rewrite execDb_answers by exact F. simpl applyOp. cbn [fst snd].
    change (popFault (withDb (db w) w)) with (popFault w).
    destruct (findUserById uid (db w)) as [user |]; [| reflexivity].
    destruct (noPassword user); [reflexivity |].
    destruct (negb (bcrypt_compare _ _)); [reflexivity |].
    rewrite run_bind.
    destruct (run (await _) (popFault w)) as [[[] | e] wa]; reflexivity.
Qed.

(** X25.  When [changePassword] refuses.  With the user lookup answered:
    for an unknown user id, and for a user without a password hash, it
    fails with [NotFoundError('User not found')] (status 404); for a current
    password that does not match the hash it fails with
    [AuthenticationError('Current password is incorrect')] (status 401).  In
    each of these cases the store is left exactly as it was: no password is
    written and no token is revoked. *)
Theorem changePassword_refusals_change_nothing :
  forall (bcrypt_compare : string -> string -> bool)
         (bcrypt_hash : string -> Z -> string) (cfg : Config) (uid : string)
         (data : ChangePasswordData) (w : World),
    hd false (faults w) = false ->
    (findUserById uid (db w) = None ->
     run (changePassword bcrypt_compare bcrypt_hash cfg uid data) w
       = (Err (newNotFoundError "User not found"), popFault w)) /\
    (forall user,
        findUserById uid (db w) = Some user ->
        noPassword user = true ->
        run (changePassword bcrypt_compare bcrypt_hash cfg uid data) w
          = (Err (newNotFoundError "User not found"), popFault w)) /\
    (forall user,
        findUserById uid (db w) = Some user ->
        noPassword user = false ->
        bcrypt_compare (currentPassword data) (passwordOf user) = false ->
        run (changePassword bcrypt_compare bcrypt_hash cfg uid data) w
          = (Err (newAuthenticationError "Current password is incorrect"),
             popFault w)) /\
    db (popFault w) = db w /\
    statusCodeField (newNotFoundError "User not found") = Some 404 /\
    statusCodeField (newAuthenticationError "Current password is incorrect")
      = Some 401.
Proof.
  intros bcrypt_compare bcrypt_hash cfg uid data w F.
  split; [| split; [| split; [| repeat split]]].
  - intros N. rewrite changePassword_run, F, N. reflexivity.
  - intros user U P. rewrite changePassword_run, F, U, P. reflexivity.
  - intros user U P C. rewrite changePassword_run, F, U, P, C. reflexivity.
Qed.

(** Carol has no password to change; Alice mistypes hers. *)
Lemma changePassword_refusals_change_nothing_witness :
  run (changePassword Sample.compare Sample.hash Sample.cfg "u3"
         (mkChangePasswordData "anything" "battery staple")) Sample.world
    = (Err (newNotFoundError "User not found"), popFault Sample.world) /\
  run (changePassword Sample.compare Sample.hash Sample.cfg "u1"
         (mkChangePasswordData "correct horse?" "battery staple")) Sample.world
    = (Err (newAuthenticationError "Current password is incorrect"),
       popFault Sample.world).
Proof.
  split.
  - exact (proj1 (proj2 (changePassword_refusals_change_nothing
                           Sample.compare Sample.hash Sample.cfg "u3"
                           (mkChangePasswordData "anything" "battery staple")
                           Sample.world eq_refl))
                 Sample.carol eq_refl eq_refl).
  - exact (proj1 (proj2 (proj2 (changePassword_refusals_change_nothing
                                  Sample.compare Sample.hash Sample.cfg "u1"
                                  (mkChangePasswordData "correct horse?"
                                                        "battery staple")
                                  Sample.world eq_refl)))
                 Sample.alice eq_refl eq_refl eq_refl).
Defined.

Lemma findUserByEmail_storePassword (mail uid hash : string) (d : Database)
    (u : User) :
  findUserByEmail mail d = Some u ->
  findUserByEmail mail (storePassword uid hash d)
    = Some (if (user_id u =? uid)%string then setPassword hash u else u).
Proof.
  intros H. unfold findUserByEmail, storePassword in *. cbn [withUsers userTable].
  rewrite find_map_preserving.
  - rewrite H. reflexivity.
  - intros a. destruct (user_id a =? uid)%string; reflexivity.
Qed.

(** X26.  After a password change the new password is the one that counts.
    Let [changePassword] succeed for user [uid], and let the store find,
    under some address, a user with that id.  If [bcrypt.compare] accepts
    the new password against the hash [bcrypt.hash] made of it, and that
    hash is not the empty string, then a later [login] with that address and
    the new password (the store answering the lookup) does not fail on the
    credentials: it returns, or fails with an error that is not of the
    [InvalidCredentials] kind.  If [bcrypt.compare] rejects another password
    against that hash, [login] with it fails with
    ['Invalid email or password']. *)
Theorem changePassword_then_login_uses_the_new_password :
  forall (toLowerCase : string -> string)
         (bcrypt_compare : string -> string -> bool)
         (bcrypt_hash : string -> Z -> string) (cfg : Config) (uid mail : string)
         (data : ChangePasswordData) (w w1 w2 : World) (u : User)
         (ua ip : option string),
    run (changePassword bcrypt_compare bcrypt_hash cfg uid data) w = (Ok tt, w1) ->
    findUserByEmail (toLowerCase mail) (db w) = Some u ->
    user_id u = uid ->
    bcrypt_compare (newPassword data)
                   (bcrypt_hash (newPassword data) (bcryptRounds cfg)) = true ->
    bcrypt_hash (newPassword data) (bcryptRounds cfg) <> EmptyString ->
    db w2 = db w1 ->
    hd false (faults w2) = false ->
    (forall e w3,
        run (login toLowerCase bcrypt_compare cfg
               (mkLoginCredentials mail (newPassword data)) ua ip) w2 = (Err e, w3) ->
        kindOf e <> InvalidCredentials) /\
    (forall other,
        bcrypt_compare other (bcrypt_hash (newPassword data) (bcryptRounds cfg))
          = false ->
        fst (run (login toLowerCase bcrypt_compare cfg
                      (mkLoginCredentials mail other) ua ip) w2)
          = Err invalidCredentials).
Proof.
  intros toLowerCase bcrypt_compare bcrypt_hash cfg uid mail data w w1 w2 u ua ip
         H U Id RT NE D F.
  apply changePassword_ok in H. destruct H as [user [_ [_ W1]]].
  set (h := bcrypt_hash (newPassword data) (bcryptRounds cfg)) in *.
  assert (Found : findUserByEmail (toLowerCase mail) (db w2)
                  = Some (setPassword h u)).
  { rewrite D, W1. unfold findUserByEmail, markAllRevoked. simpl.
    pose proof (findUserByEmail_storePassword (toLowerCase mail) uid h (db w) u U)
      as S.
    unfold findUserByEmail, storePassword in S. cbn [withUsers userTable] in S.
    rewrite S, Id, String.eqb_refl. reflexivity. }
  assert (HasHash : noPassword (setPassword h u) = false).
  { unfold noPassword. cbn [setPassword user_password].
    destruct h; [contradiction | reflexivity]. }
  assert (Hash : passwordOf (setPassword h u) = h) by reflexivity.
  split.
  - intros e w3. rewrite login_run, F. cbn [cred_email cred_password].
    rewrite Found, HasHash, Hash, RT. cbn [negb setPassword user_isActive
                                             user_emailVerified].
    destruct (negb (user_isActive u)).
    { intros X; inversion X. discriminate. }
    destruct (negb (user_emailVerified u)).
    { intros X; inversion X. discriminate. }
    rewrite run_await.
    destruct (execDb _ (popFault w2)) as [[[] | e1] wa] eqn:X.
    2:{ intros Y; inversion Y; subst.
        pose proof (execDb_error_has_no_status _ _ _ _ X) as S.
        unfold kindOf. unfold statusCodeField, statusCode in S.
        destruct (cls e); discriminate. }
    destruct (run (generateTokenPair _ _ _ _ _ _ _) wa) as [[tokens | e2] wb] eqn:G.
    { discriminate. }
    intros Y; inversion Y; subst.
    pose proof (generateTokenPair_error_has_no_status _ _ _ _ _ _ _ _ _ _ G) as S.
    unfold kindOf. unfold statusCodeField, statusCode in S.
    destruct (cls e); discriminate.
  - intros other C. rewrite login_run, F. cbn [cred_email cred_password].
    rewrite Found, HasHash, Hash, C. reflexivity.
Qed.

(** Alice changes her password in the sample world; the old one is refused
    afterwards. *)
Lemma changePassword_then_login_uses_the_new_password_witness :
  fst (run (login Sample.toLowerCase Sample.compare Sample.cfg
              (mkLoginCredentials "alice@example.com" "correct horse") None None)
           (snd (run (changePassword Sample.compare Sample.hash Sample.cfg "u1"
                        (mkChangePasswordData "correct horse" "battery staple"))
                     Sample.world)))
    = Err invalidCredentials.
Proof.
  refine (proj2 (changePassword_then_login_uses_the_new_password
                   Sample.toLowerCase Sample.compare Sample.hash Sample.cfg
                   "u1" "alice@example.com"
                   (mkChangePasswordData "correct horse" "battery staple")
                   Sample.world
                   (snd (run (changePassword Sample.compare Sample.hash Sample.cfg
                                "u1"
                                (mkChangePasswordData "correct horse"
                                                      "battery staple"))
                             Sample.world))
                   (snd (run (changePassword Sample.compare Sample.hash Sample.cfg
                                "u1"
                                (mkChangePasswordData "correct horse"
                                                      "battery staple"))
                             Sample.world))
                   Sample.alice None None
                   eq_refl eq_refl eq_refl eq_refl _ eq_refl eq_refl)
                "correct horse" eq_refl).
  discriminate.
Defined.

(** ** Failures and the store *)

(** X27.  A failed issue or refresh writes nothing.  When
    [generateTokenPair] fails, and when [refreshTokens] fails for whatever
    reason, the store is exactly as it was before the call.  When [login]
    fails, refresh tokens and blacklist are as before, and so are the users
    unless the failure came after the credential checks (from the store,
    while stamping [lastLoginAt] or inserting the refresh token): a failure
    answered 401 has written nothing. *)
Theorem failed_calls_and_the_store :
  forall (cfg : Config) (w w' : World) (e : Exn),
    (forall uid mail rs ps ua ip,
        run (generateTokenPair cfg uid mail rs ps ua ip) w = (Err e, w') ->
        db w' = db w) /\
    (forall t,
        run (refreshTokens cfg t) w = (Err e, w') -> db w' = db w) /\
    (forall toLowerCase bcrypt_compare credentials ua ip,
        run (login toLowerCase bcrypt_compare cfg credentials ua ip) w = (Err e, w') ->
        refreshTokenTable (db w') = refreshTokenTable (db w) /\
        blacklistedTokenTable (db w') = blacklistedTokenTable (db w) /\
        (statusCodeField e = Some 401 -> db w' = db w)).
Proof.
  intros cfg w w' e.
  assert (Gen : forall v v' uid mail rs ps ua ip x,
             run (generateTokenPair cfg uid mail rs ps ua ip) v = (Err x, v') ->
             db v' = db v).
  { intros v v' uid mail rs ps ua ip x. rewrite generateTokenPair_run. cbv zeta.
    destruct (hd false (faults v)).
    - intros H; inversion H; reflexivity.
    - destruct (findRefreshToken _ (db v)); intros H; inversion H; reflexivity. }
  split; [| split].
  - intros uid mail rs ps ua ip. apply Gen.
  - intros t. rewrite refreshTokens_run.
    destruct (verifyRefreshToken cfg (clock w) t); [| intros H; now inversion H].
    destruct (hd false (faults w)); [intros H; now inversion H |].
    destruct (findRefreshToken t (db w)) as [row |]; [| intros H; now inversion H].
    destruct (findUserById (rt_userId row) (db w)) as [owner |];
      [| intros H; now inversion H].
    destruct (rt_isRevoked row); [intros H; now inversion H |].
    destruct (rt_expiresAt row <? clock w); [intros H; now inversion H |].
    destruct (negb (user_isActive owner)); [intros H; now inversion H |].
    destruct (run (generateTokenPair _ _ _ _ _ _ _) (popFault w))
      as [[tokens | e2] wb] eqn:G; [discriminate |].
    intros H; inversion H; subst. apply (Gen _ _ _ _ _ _ _ _ _ G).
  - intros toLowerCase bcrypt_compare credentials ua ip. rewrite login_run.
    destruct (hd false (faults w)); [intros H; now inversion H |].
    destruct (findUserByEmail _ (db w)) as [user |]; [| intros H; now inversion H].
    destruct (noPassword user); [intros H; now inversion H |].
    destruct (negb (bcrypt_compare _ _)); [intros H; now inversion H |].
    destruct (negb (user_isActive user)); [intros H; now inversion H |].
    destruct (negb (user_emailVerified user)); [intros H; now inversion H |].
    rewrite run_await.
    destruct (execDb _ (popFault w)) as [[[] | e1] wa] eqn:X.
    2:{ intros H; inversion H; subst.
        pose proof (execDb_error_has_no_status _ _ _ _ X) as S.
        destruct (execDb_cases (UserUpdateLastLogin (user_id user) (clock w))
                               (popFault w)) as [Y | Y]; rewrite Y in X.
        - inversion X. repeat split.
        - simpl applyOp in X.
          destruct (findUserById (user_id user) (db w)); cbn [fst snd] in X;
            inversion X.
          repeat split. }
    destruct (run (generateTokenPair _ _ _ _ _ _ _) wa) as [[tokens | e2] wb] eqn:G;
      [discriminate |].
    intros H; inversion H; subst.
    pose proof (generateTokenPair_error_has_no_status _ _ _ _ _ _ _ _ _ _ G) as S.
    pose proof (Gen _ _ _ _ _ _ _ _ _ G) as Dg. rewrite Dg.
    destruct (execDb_cases (UserUpdateLastLogin (user_id user) (clock w))
                           (popFault w)) as [Y | Y]; rewrite Y in X;
      [discriminate |].
    simpl applyOp in X.
    destruct (findUserById (user_id user) (db w)); cbn [fst snd] in X;
      inversion X.
    repeat split. rewrite S. discriminate.
Qed.
